(** * autobrunodoc: OpenAPI documentation injected into Bruno collection files

    A shallow embedding of [autobrunodoc.py] and the properties of its
    documentation extractor, its text patcher and its revert engine.

    Python strings are sequences of Unicode code points; they are modelled
    as lists of code points ([N]).  An exception that the program does not
    catch is an error result. *)

From Stdlib Require Import String Ascii.
From Stdlib Require Import List NArith ZArith Bool Lia.
From Stdlib Require DecimalString.
Import ListNotations.

(* ================================================================== *)
(** * Python strings *)
(* ================================================================== *)

Module PyStr.

Definition char := N.
Definition str := list char.

(** A literal of the source, written as a Rocq string of ASCII characters. *)
Definition lit (s : String.string) : str :=
  map N_of_ascii (String.list_ascii_of_string s).

Definition nl : char := 10%N.
Definition lbrace : char := 123%N.
Definition rbrace : char := 125%N.

Fixpoint str_eqb (a b : str) : bool :=
  match a, b with
  | [], [] => true
  | x :: a', y :: b' => N.eqb x y && str_eqb a' b'
  | _, _ => false
  end.

(** [str.isspace] on one code point, which is also what [\s] matches in a
    [str] pattern: the code points Python's Unicode database marks as
    whitespace. *)
Definition isspace (c : char) : bool :=
  ((9 <=? c) && (c <=? 13) || (28 <=? c) && (c <=? 32)
   || (c =? 133) || (c =? 160) || (c =? 5760)
   || (8192 <=? c) && (c <=? 8202)
   || (c =? 8232) || (c =? 8233) || (c =? 8239) || (c =? 8287)
   || (c =? 12288))%N.

(** [[^{}]] *)
Definition not_brace (c : char) : bool :=
  negb (N.eqb c lbrace) && negb (N.eqb c rbrace).

Fixpoint take_while (p : char -> bool) (s : str) : str :=
  match s with
  | c :: s' => if p c then c :: take_while p s' else []
  | [] => []
  end.

Fixpoint drop_while (p : char -> bool) (s : str) : str :=
  match s with
  | c :: s' => if p c then drop_while p s' else s
  | [] => []
  end.

(** [s.strip()] with no argument. *)
Definition lstrip (s : str) : str := drop_while isspace s.
Definition rstrip (s : str) : str := rev (drop_while isspace (rev s)).
Definition strip (s : str) : str := rstrip (lstrip s).

(** [s.startswith(p)] *)
Fixpoint startswith (s p : str) {struct p} : bool :=
  match p with
  | [] => true
  | x :: p' =>
      match s with
      | y :: s' => N.eqb x y && startswith s' p'
      | [] => false
      end
  end.

(** [s.endswith(p)] *)
Definition endswith (s p : str) : bool := startswith (rev s) (rev p).

(** [s.replace(old, new)]: the occurrences of [old] are found from left to
    right and do not overlap.  [replace_from] walks [s]; [skip] counts the
    characters of an occurrence that is being stepped over. *)
Fixpoint replace_from (old new : str) (skip : nat) (s : str) : str :=
  match s with
  | [] => []
  | c :: s' =>
      match skip with
      | S k => replace_from old new k s'
      | O =>
          if startswith s old
          then new ++ replace_from old new (length old - 1) s'
          else c :: replace_from old new 0 s'
      end
  end.

Definition replace (s old new : str) : str :=
  match old with
  | [] => new ++ flat_map (fun c => c :: new) s
  | _ :: _ => replace_from old new 0 s
  end.

(** [sep.join(parts)] *)
Fixpoint join (sep : str) (parts : list str) : str :=
  match parts with
  | [] => []
  | [p] => p
  | p :: rest => p ++ sep ++ join sep rest
  end.

(** [s.split('\n')]: the pieces between line feeds, at least one piece. *)
Fixpoint split_nl (s : str) : list str :=
  match s with
  | [] => [[]]
  | c :: s' =>
      if N.eqb c nl then [] :: split_nl s'
      else match split_nl s' with
           | l :: ls => (c :: l) :: ls
           | [] => [[c]]
           end
  end.

(** [s.upper()] on the ASCII letters; the program applies it only to the
    eight lower-case method names. *)
Definition upper_char (c : char) : char :=
  if ((97 <=? c) && (c <=? 122))%N then (c - 32)%N else c.
Definition upper (s : str) : str := map upper_char s.

(** [old in s] for two strings. *)
Fixpoint contains (s old : str) : bool :=
  startswith s old ||
  match s with
  | [] => false
  | _ :: s' => contains s' old
  end.

End PyStr.
Import PyStr.

(* ================================================================== *)
(** * The two patterns of the patcher *)
(* ================================================================== *)

Module Pattern.

(** What [re] returns for a successful search: where the match starts and
    the text it covers ([group()]). *)
Record re_match := mk_match { m_start : nat; m_group : str }.

Definition m_end (m : re_match) : nat := m_start m + length (m_group m).

Definition strip_prefix (p s : str) : option str :=
  if startswith s p then Some (skipn (length p) s) else None.

(** [kw\s*{[^{}]*}] matched at the start of [s].  Each starred class is
    followed by a character outside the class, so the greedy reading is the
    only one: giving characters back never turns a failure into a match. *)
Definition match_block (kw s : str) : option str :=
  match strip_prefix kw s with
  | None => None
  | Some r1 =>
      let ws := take_while isspace r1 in
      match drop_while isspace r1 with
      | c :: r2 =>
          if N.eqb c lbrace then
            let body := take_while not_brace r2 in
            match drop_while not_brace r2 with
            | c' :: _ =>
                if N.eqb c' rbrace
                then Some (kw ++ ws ++ lbrace :: body ++ [rbrace])
                else None
            | [] => None
            end
          else None
      | [] => None
      end
  end.

(** [pattern.search(s)]: the match at the leftmost position that has one.
    [pos] is the position of [s] in the searched text. *)
Fixpoint search_from (kw : str) (pos : nat) (s : str) : option re_match :=
  match match_block kw s with
  | Some g => Some (mk_match pos g)
  | None =>
      match s with
      | [] => None
      | _ :: s' => search_from kw (S pos) s'
      end
  end.

Definition search (kw s : str) : option re_match := search_from kw 0 s.

Definition docs_kw : str := lit "docs".
Definition meta_kw : str := lit "meta".

(** The language of the pattern, stated without reference to a matcher:
    the keyword, white space, and a brace span whose content has no brace. *)
Definition block_text (kw ws body : str) : str :=
  kw ++ ws ++ [lbrace] ++ body ++ [rbrace].

Definition block (kw m : str) : Prop :=
  exists ws body,
    m = block_text kw ws body
    /\ forallb isspace ws = true
    /\ forallb not_brace body = true.

(** [m] is a match of the pattern in [s] at position [length pre]. *)
Definition block_at (kw pre m post s : str) : Prop :=
  s = pre ++ m ++ post /\ block kw m.

(** the match that [search] reports: no block starts further left. *)
Definition first_block (kw pre m post s : str) : Prop :=
  block_at kw pre m post s
  /\ forall pre' m' post', block_at kw pre' m' post' s ->
       length pre <= length pre'.

Definition has_block (kw s : str) : Prop :=
  exists pre m post, block_at kw pre m post s.

End Pattern.
Import Pattern.

(* ================================================================== *)
(** * The patcher: [update_bruno_files], lines 207-240 *)
(* ================================================================== *)

Module Patcher.

(** [bru_file_path.replace('.bru', '.bak')] *)
Definition backup_path (bru_file_path : str) : str :=
  replace bru_file_path (lit ".bru") (lit ".bak").

(** [existing_docs[:-1].strip()] followed by the new text and the brace:
    lines 221-224. *)
Definition updated_docs (group docs : str) : str :=
  let existing_docs := strip (removelast group) in
  existing_docs ++ [nl; nl] ++ docs ++ [nl; rbrace].

(** The new block, [docs {\n<docs>\n}]: line 228. *)
Definition docs_element (docs : str) : str :=
  lit "docs {" ++ [nl] ++ docs ++ [nl; rbrace].

(** The new content of a collection file, from its content and the
    documentation text of the operation: lines 216-240. *)
Definition update_content (bru_content docs : str) : str :=
  match search docs_kw bru_content with
  | Some docs_match =>
      replace bru_content (m_group docs_match)
        (updated_docs (m_group docs_match) docs)
  | None =>
      match search meta_kw bru_content with
      | Some meta_match =>
          let insert_pos := m_end meta_match in
          firstn insert_pos bru_content ++ [nl; nl] ++ docs_element docs
            ++ skipn insert_pos bru_content
      | None => docs_element docs ++ [nl; nl] ++ bru_content
      end
  end.

(** [bak_file.replace('.bak', '.bru')]: line 276 of [revert_bruno_files]. *)
Definition bru_file_of (bak_file : str) : str :=
  replace bak_file (lit ".bak") (lit ".bru").

End Patcher.
Import Patcher.

(* ================================================================== *)
(** * The workspace and the revert engine: [revert_bruno_files] *)
(* ================================================================== *)

Module Workspace.

Definition bytes := list Byte.byte.

(** A path below the workspace directory, component by component; the last
    component is the name that [os.path.join] adds to [root]. *)
Definition path := list str.

(** A directory as [os.walk] lists it: the entries that are not
    directories, each with its content, and the subdirectories. *)
#[warnings="-register-all"]
Inductive dir : Type :=
| Dir (files : list (str * bytes)) (subdirs : list (str * dir)).

Definition files_of (d : dir) : list (str * bytes) :=
  match d with Dir files _ => files end.

Definition subdirs_of (d : dir) : list (str * dir) :=
  match d with Dir _ subdirs => subdirs end.

Fixpoint lookup {A : Type} (name : str) (l : list (str * A)) : option A :=
  match l with
  | [] => None
  | (k, x) :: l' => if str_eqb k name then Some x else lookup name l'
  end.

Definition has_name {A : Type} (name : str) (l : list (str * A)) : bool :=
  existsb (fun e => str_eqb (fst e) name) l.

(** Opening [name] for writing and writing [data]: the entry gets the new
    content, and it is created when the directory has none of that name. *)
Definition write_file (name : str) (data : bytes) (files : list (str * bytes))
  : list (str * bytes) :=
  if has_name name files
  then map (fun e => if str_eqb (fst e) name then (name, data) else e) files
  else files ++ [(name, data)].

Definition write_all (ws : list (str * bytes)) (files : list (str * bytes))
  : list (str * bytes) :=
  fold_left (fun fs w => write_file (fst w) (snd w) fs) ws files.

(** What the program prints. *)
Inductive event : Type :=
| NoCollectionDirectory                      (* line 263 *)
| Reverted (bru_path : path)                 (* line 284 *)
| ErrorReverting (bru_path : path)           (* line 287 *)
| OriginalNotFound (bru_path bak_path : path) (* line 289 *)
| NotADirectory                              (* line 390 *)
| RevertedSummary (reverted_count : nat)     (* line 397 *)
| NothingReverted.                           (* line 399 *)

(** The state of the loop over one directory: its files, the files it has
    copied into its subdirectories (subdirectory, name, content), the
    running count and the output. *)
Record loop_state : Type := mk_loop {
  l_files : list (str * bytes);
  l_sent : list (str * (str * bytes));
  l_count : nat;
  l_out : list event
}.

Section Revert.

(** Whether the operating system makes [shutil.copy2(bak_path, bru_path)]
    fail (permissions, a full disk): a function of the two paths, which
    are given by their components below the workspace directory. *)
Variable copy_raises : path -> path -> bool.

(** [shutil.copy2(bak_path, bru_path)] in the directory [root] whose
    subdirectories are [subdirs]; [None] when it raises.  A destination
    that is a file gets the content of the backup.  When the destination
    is a directory, [copy2] copies the backup into it under its own name,
    which fails when that name is a directory there; this copy is recorded
    in [sent]. *)
Definition copy2 (root : path) (subdirs : list (str * dir))
  (files : list (str * bytes)) (sent : list (str * (str * bytes)))
  (bak_file bru_file : str)
  : option (list (str * bytes) * list (str * (str * bytes))) :=
  match lookup bak_file files with
  | None => None
  | Some data =>
      if copy_raises (root ++ [bak_file]) (root ++ [bru_file]) then None
      else
        match lookup bru_file subdirs with
        | Some d =>
            if has_name bak_file (subdirs_of d) then None
            else Some (files, sent ++ [(bru_file, (bak_file, data))])
        | None => Some (write_file bru_file data files, sent)
        end
  end.

(** The body of the loop over [bak_files]: lines 274-289. *)
Definition revert_file (root : path) (subdirs : list (str * dir))
  (st : loop_state) (bak_file : str) : loop_state :=
  let bak_path := root ++ [bak_file] in
  let bru_file := bru_file_of bak_file in
  let bru_path := root ++ [bru_file] in
  if has_name bru_file (l_files st) || has_name bru_file subdirs then
    match copy2 root subdirs (l_files st) (l_sent st) bak_file bru_file with
    | Some (files', sent') =>
        mk_loop files' sent' (l_count st + 1) (l_out st ++ [Reverted bru_path])
    | None =>
        mk_loop (l_files st) (l_sent st) (l_count st)
          (l_out st ++ [ErrorReverting bru_path])
    end
  else
    mk_loop (l_files st) (l_sent st) (l_count st)
      (l_out st ++ [OriginalNotFound bru_path bak_path]).

(** [[f for f in files if f.endswith('.bak')]] *)
Definition bak_files_of (files : list (str * bytes)) : list str :=
  filter (fun f => endswith f (lit ".bak")) (map fst files).

(** The files that the loop over the parent directory has copied into the
    subdirectory [name]. *)
Definition sent_to (name : str) (sent : list (str * (str * bytes)))
  : list (str * bytes) :=
  map snd (filter (fun e => str_eqb (fst e) name) sent).

(** The subdirectories in turn, in the order of the [dirs] list of
    [os.walk]; [f] is the walk from one of them down. *)
Fixpoint walk_each (f : str -> dir -> dir * nat * list event)
  (l : list (str * dir)) : list (str * dir) * nat * list event :=
  match l with
  | [] => ([], 0, [])
  | (name, sub) :: l' =>
      let '(sub', c1, o1) := f name sub in
      let '(l'', c2, o2) := walk_each f l' in
      ((name, sub') :: l'', c1 + c2, o1 ++ o2)
  end.

(** The loop over [os.walk(bruno_dir)], lines 269-289, from the directory
    [root] down: the loop body for the directory itself, then the
    subdirectories in turn.  [os.walk] lists a directory only when it gets
    there, after the loop body has run for its parent, so the directory is
    listed with the files [received] from the parent (at the end of the
    listing when they are new). *)
Fixpoint walk (root : path) (received : list (str * bytes)) (d : dir)
  : dir * nat * list event :=
  match d with
  | Dir files subdirs =>
      let files := write_all received files in
      let bak_files := bak_files_of files in
      let st :=
        fold_left (revert_file root subdirs) bak_files (mk_loop files [] 0 [])
      in
      let '(subdirs', c, o) :=
        walk_each
          (fun name sub => walk (root ++ [name]) (sent_to name (l_sent st)) sub)
          subdirs
      in
      (Dir (l_files st) subdirs', l_count st + c, l_out st ++ o)
  end.

(** [revert_bruno_files(bruno_dir)]: the workspace is [None] when
    [bruno_dir] is not a directory.  The result is the workspace as the
    function leaves it, the count it returns and what it prints. *)
Definition revert_bruno_files (bruno_dir : option dir)
  : option dir * nat * list event :=
  match bruno_dir with
  | None => (None, 0, [NoCollectionDirectory])
  | Some d =>
      let '(d', reverted_count, out) := walk [] [] d in
      (Some d', reverted_count, out)
  end.

(** The [revert] command of [main], lines 388-399, once the options are
    read: the workspace left behind, the output and the exit status. *)
Definition main_revert (bruno_dir : option dir)
  : option dir * list event * nat :=
  match bruno_dir with
  | None => (None, [NotADirectory], 1)
  | Some _ =>
      let '(ws, reverted_count, out) := revert_bruno_files bruno_dir in
      if 0 <? reverted_count
      then (ws, out ++ [RevertedSummary reverted_count], 0)
      else (ws, out ++ [NothingReverted], 0)
  end.

End Revert.

(** A workspace with a backup file in some directory. *)
Fixpoint has_backups (d : dir) : bool :=
  match d with
  | Dir files subdirs =>
      match bak_files_of files with
      | [] => existsb (fun e => has_backups (snd e)) subdirs
      | _ :: _ => true
      end
  end.

Definition is_reverted (e : event) : bool :=
  match e with Reverted _ => true | _ => false end.

End Workspace.
Import Workspace.

(* ================================================================== *)
(** * The collection file on disk: [update_bruno_files], lines 212-244 *)
(* ================================================================== *)

Module TextFile.

Definition cr : char := 13%N.

(** What [f.read()] makes of the decoded text of a file opened with
    [open(path, 'r')]: every CR LF and every other CR is read as a line
    feed. *)
Fixpoint read_newlines (s : str) : str :=
  match s with
  | [] => []
  | c :: s' =>
      if N.eqb c cr then
        nl :: match s' with
              | c' :: s'' =>
                  if N.eqb c' nl then read_newlines s'' else read_newlines s'
              | [] => []
              end
      else c :: read_newlines s'
  end.

(** What [f.write(text)] hands to the encoder for a file opened with
    [open(path, 'w')]: every line feed becomes the line separator. *)
Definition write_newlines (linesep text : str) : str :=
  flat_map (fun c => if N.eqb c nl then linesep else [c]) text.

(** The platform: the codec of the locale, which fails on some inputs, and
    [os.linesep]. *)
Class Platform : Type := {
  decode : bytes -> option str;
  encode : str -> option bytes;
  linesep : str
}.

Section Patch.

Context `{Platform}.

(** Lines 212-213; [None] when the read raises. *)
Definition read_text (data : bytes) : option str :=
  option_map read_newlines (decode data).

(** Lines 243-244; [None] when the write raises. *)
Definition write_text (bru_content : str) : option bytes :=
  encode (write_newlines linesep bru_content).

(** Lines 212-244: the bytes of the collection file after the injection
    of [docs], from its bytes before. *)
Definition patch_file (data : bytes) (docs : str) : option bytes :=
  match read_text data with
  | Some bru_content => write_text (update_content bru_content docs)
  | None => None
  end.

End Patch.

End TextFile.
Import TextFile.

(* ================================================================== *)
(** * Python values and exceptions *)
(* ================================================================== *)

Module Py.

(** The objects that [yaml.safe_load] builds for a JSON-like document: a
    [dict] keeps its items in the order of the document.  Floats,
    timestamps, binary scalars and sets, which the loader can also build,
    are not part of the model. *)
#[warnings="-register-all"]
Inductive value : Type :=
| VNone
| VBool (b : bool)
| VInt (z : Z)
| VStr (s : str)
| VList (l : list value)
| VDict (items : list (value * value)).

Inductive exn : Type := AttributeError | TypeError | KeyError.

(** The outcome of a computation that may raise. *)
Inductive result (A : Type) : Type :=
| Ok (a : A)
| Raise (e : exn).
Arguments Ok {A} a.
Arguments Raise {A} e.

Definition bind {A B : Type} (r : result A) (k : A -> result B) : result B :=
  match r with
  | Ok a => k a
  | Raise e => Raise e
  end.

Notation "x <- r ;; k" := (bind r (fun x => k))
  (at level 61, r at next level, right associativity).

(** A loop whose body may raise; [s] is what the body updates. *)
Fixpoint for_each {A S : Type} (body : S -> A -> result S) (l : list A) (s : S)
  : result S :=
  match l with
  | [] => Ok s
  | x :: l' => s' <- body s x ;; for_each body l' s'
  end.

(** [str()] of a list or a dict, and [yaml.dump(v, default_flow_style=False)]:
    the language and the YAML library provide them. *)
Class Runtime : Type := {
  repr : value -> str;
  yaml_dump : value -> str
}.

(** The truth value of an object. *)
Definition truthy (v : value) : bool :=
  match v with
  | VNone => false
  | VBool b => b
  | VInt z => negb (Z.eqb z 0)
  | VStr s => match s with [] => false | _ :: _ => true end
  | VList l => match l with [] => false | _ :: _ => true end
  | VDict items => match items with [] => false | _ :: _ => true end
  end.

Definition decimal (z : Z) : str :=
  lit (DecimalString.NilEmpty.string_of_int (Z.to_int z)).

(** The text that an f-string puts for [{v}]. *)
Definition py_str `{Runtime} (v : value) : str :=
  match v with
  | VNone => lit "None"
  | VBool true => lit "True"
  | VBool false => lit "False"
  | VInt z => decimal z
  | VStr s => s
  | VList _ | VDict _ => repr v
  end.

(** [k == 'name']: an object equals a string only if it is that string. *)
Definition is_str (name : str) (k : value) : bool :=
  match k with
  | VStr s => str_eqb s name
  | _ => false
  end.

Fixpoint dict_lookup (name : str) (items : list (value * value))
  : option value :=
  match items with
  | [] => None
  | (k, v) :: items' => if is_str name k then Some v else dict_lookup name items'
  end.

Definition dict_get (items : list (value * value)) (name : str)
  (default : value) : value :=
  match dict_lookup name items with
  | Some x => x
  | None => default
  end.

(** [v.get(name, default)] *)
Definition py_get (v : value) (name : str) (default : value) : result value :=
  match v with
  | VDict items => Ok (dict_get items name default)
  | _ => Raise AttributeError
  end.

(** [v.items()] *)
Definition py_items (v : value) : result (list (value * value)) :=
  match v with
  | VDict items => Ok items
  | _ => Raise AttributeError
  end.

(** ['name' in v] *)
Definition py_in (name : str) (v : value) : result bool :=
  match v with
  | VDict items =>
      Ok (match dict_lookup name items with Some _ => true | None => false end)
  | VList l => Ok (existsb (is_str name) l)
  | VStr s => Ok (contains s name)
  | VNone | VBool _ | VInt _ => Raise TypeError
  end.

(** [v['name']] *)
Definition py_getitem (v : value) (name : str) : result value :=
  match v with
  | VDict items =>
      match dict_lookup name items with
      | Some x => Ok x
      | None => Raise KeyError
      end
  | _ => Raise TypeError
  end.

(** The elements that [for x in v] goes through. *)
Definition py_iter (v : value) : result (list value) :=
  match v with
  | VList l => Ok l
  | VDict items => Ok (map fst items)
  | VStr s => Ok (map (fun c => VStr [c]) s)
  | VNone | VBool _ | VInt _ => Raise TypeError
  end.

(** [sep.join(parts)] for a Python list: every part has to be a string. *)
Fixpoint strings_of (parts : list value) : result (list str) :=
  match parts with
  | [] => Ok []
  | VStr s :: parts' => l <- strings_of parts' ;; Ok (s :: l)
  | _ :: _ => Raise TypeError
  end.

Definition py_join (sep : str) (parts : list value) : result str :=
  l <- strings_of parts ;; Ok (join sep l).

(** [v.startswith(prefix)] *)
Definition py_startswith (v : value) (prefix : str) : result bool :=
  match v with
  | VStr s => Ok (startswith s prefix)
  | _ => Raise AttributeError
  end.

(** Only scalars can be hashed. *)
Definition hashable (v : value) : bool :=
  match v with
  | VList _ | VDict _ => false
  | _ => true
  end.

(** [a == b] for two scalars: [True] and [False] equal 1 and 0. *)
Definition py_eq (a b : value) : bool :=
  match a, b with
  | VNone, VNone => true
  | VStr s, VStr t => str_eqb s t
  | VBool x, VBool y => Bool.eqb x y
  | VInt x, VInt y => Z.eqb x y
  | VBool x, VInt y | VInt y, VBool x => Z.eqb (if x then 1 else 0) y
  | _, _ => false
  end.

End Py.
Import Py.

(* ================================================================== *)
(** * The spec loader: [validate_openapi_file] *)
(* ================================================================== *)

Module Loader.

(** What [open] and [yaml.safe_load] make of the file. *)
Inductive loaded : Type :=
| Unreadable                       (* [open] or the read raises *)
| InvalidYaml                      (* [yaml.YAMLError] *)
| Parsed (openapi_data : value).

(** The three messages of the function. *)
Inductive message : Type :=
| NotOpenApi3          (* line 45 *)
| NotValidYaml         (* line 50 *)
| ErrorReadingFile.    (* line 53 *)

Definition validate_openapi_file (file : loaded) : option value * list message :=
  match file with
  | Unreadable => (None, [ErrorReadingFile])
  | InvalidYaml => (None, [NotValidYaml])
  | Parsed openapi_data =>
      match (version <- py_get openapi_data (lit "openapi") (VStr []) ;;
             py_startswith version (lit "3.0")) with
      | Ok true => (Some openapi_data, [])
      | Ok false => (None, [NotOpenApi3])
      | Raise _ => (None, [ErrorReadingFile])
      end
  end.

(** A root mapping whose [openapi] entry is a string that starts with
    [3.0]. *)
Definition has_version_3_0 (openapi_data : value) : bool :=
  match openapi_data with
  | VDict items =>
      match dict_lookup (lit "openapi") items with
      | Some (VStr version) => startswith version (lit "3.0")
      | _ => false
      end
  | _ => false
  end.

End Loader.
Import Loader.

(* ================================================================== *)
(** * The doc extractor: [extract_openapi_docs] *)
(* ================================================================== *)

Module Extractor.

(** A key of [path_docs]: (tag, method, path, summary). *)
Definition key : Type := (value * str * value * value)%type.

Definition key_eqb (a b : key) : bool :=
  let '(tag, method, path, summary) := a in
  let '(tag', method', path', summary') := b in
  py_eq tag tag' && str_eqb method method' && py_eq path path'
  && py_eq summary summary'.

(** [path_docs]: a dict, its items in the order of insertion. *)
Definition path_docs : Type := list (key * str).

Fixpoint docs_lookup (k : key) (d : path_docs) : option str :=
  match d with
  | [] => None
  | (k', text) :: d' => if key_eqb k' k then Some text else docs_lookup k d'
  end.

(** [path_docs[k] = text] *)
Fixpoint docs_set (k : key) (text : str) (d : path_docs) : path_docs :=
  match d with
  | [] => [(k, text)]
  | (k', text') :: d' =>
      if key_eqb k' k then (k', text) :: d' else (k', text') :: docs_set k text d'
  end.

Definition http_methods : list str :=
  [lit "get"; lit "post"; lit "put"; lit "delete"; lit "patch";
   lit "options"; lit "head"; lit "trace"].

Section Extract.

Context `{Runtime}.

(** Lines 79-80 *)
Definition add_description (operation : value) (docs : list str)
  : result (list str) :=
  has <- py_in (lit "description") operation ;;
  if has : bool then
    description <- py_getitem operation (lit "description") ;;
    Ok (docs ++ [lit "Description: " ++ py_str description ++ [nl]])
  else Ok docs.

(** Lines 83-89 *)
Definition add_security (operation : value) (docs : list str)
  : result (list str) :=
  has <- py_in (lit "security") operation ;;
  if has : bool then
    security <- py_getitem operation (lit "security") ;;
    security_items <- py_iter security ;;
    security_schemes <-
      for_each
        (fun schemes security_item =>
           items <- py_items security_item ;;
           Ok (schemes ++ map fst items))
        security_items [] ;;
    match security_schemes with
    | [] => Ok docs
    | _ :: _ =>
        joined <- py_join (lit ", ") security_schemes ;;
        Ok (docs ++ [lit "Security: " ++ joined ++ [nl]])
    end
  else Ok docs.

(** The body of the loop over the parameters: lines 95-103. *)
Definition add_parameter (docs : list str) (param : value)
  : result (list str) :=
  param_name <- py_get param (lit "name") (VStr []) ;;
  param_in <- py_get param (lit "in") (VStr []) ;;
  required <- py_get param (lit "required") (VBool false) ;;
  let param_required :=
    if truthy required then lit "required" else lit "optional" in
  param_desc <- py_get param (lit "description") (VStr []) ;;
  param_example <- py_get param (lit "example") (VStr []) ;;
  let docs :=
    docs ++ [lit "  * " ++ py_str param_name ++ lit " (" ++ py_str param_in
             ++ lit ", " ++ param_required ++ lit "): " ++ py_str param_desc] in
  if truthy param_example
  then Ok (docs ++ [nl :: lit "    Example: " ++ py_str param_example])
  else Ok docs.

(** Lines 92-104 *)
Definition add_parameters (operation : value) (docs : list str)
  : result (list str) :=
  has <- py_in (lit "parameters") operation ;;
  if has : bool then
    let docs := docs ++ [lit "Parameters:"] in
    parameters <- py_getitem operation (lit "parameters") ;;
    params <- py_iter parameters ;;
    docs <- for_each add_parameter params docs ;;
    Ok (docs ++ [[]])
  else Ok docs.

(** [yaml.dump(example, default_flow_style=False).strip().split('\n')],
    each line behind six spaces: lines 134-136 and their two copies. *)
Definition example_lines (example : value) : list str :=
  map (fun line => lit "      " ++ line) (split_nl (strip (yaml_dump example))).

(** The body of the loop over the properties of a schema: lines 117-125. *)
Definition add_property (docs : list str) (item : value * value)
  : result (list str) :=
  let '(prop_name, prop) := item in
  prop_type <- py_get prop (lit "type") (VStr []) ;;
  prop_format <- py_get prop (lit "format") (VStr []) ;;
  prop_desc <- py_get prop (lit "description") (VStr []) ;;
  let type_str :=
    if truthy prop_format
    then lit "(" ++ py_str prop_type ++ lit ", " ++ py_str prop_format ++ lit ")"
    else lit "(" ++ py_str prop_type ++ lit ")" in
  Ok (docs ++ [lit "  * " ++ py_str prop_name ++ lit ": " ++ py_str prop_desc
               ++ lit " " ++ type_str]).

(** The body of the loop over the content types of the request body:
    lines 112-136. *)
Definition add_body_content (docs : list str) (item : value * value)
  : result (list str) :=
  let '(content_type, content) := item in
  let docs := docs ++ [lit "  Content-Type: " ++ py_str content_type] in
  schema <- py_get content (lit "schema") (VDict []) ;;
  has_properties <- py_in (lit "properties") schema ;;
  docs <-
    (if has_properties : bool then
       properties <- py_getitem schema (lit "properties") ;;
       props <- py_items properties ;;
       docs <- for_each add_property props docs ;;
       has_required <- py_in (lit "required") schema ;;
       if has_required : bool then
         required <- py_getitem schema (lit "required") ;;
         names <- py_iter required ;;
         joined <- py_join (lit ", ") names ;;
         Ok (docs ++ [nl :: lit "  Required body properties: " ++ joined])
       else Ok docs
     else Ok docs) ;;
  has_example <- py_in (lit "example") content ;;
  if has_example : bool then
    example <- py_getitem content (lit "example") ;;
    Ok (docs ++ [nl :: lit "  Example:"] ++ example_lines example)
  else Ok docs.

(** Lines 107-137 *)
Definition add_request_body (operation : value) (docs : list str)
  : result (list str) :=
  has <- py_in (lit "requestBody") operation ;;
  if has : bool then
    request_body <- py_getitem operation (lit "requestBody") ;;
    let docs := docs ++ [lit "Body:"] in
    content <- py_get request_body (lit "content") (VDict []) ;;
    items <- py_items content ;;
    docs <- for_each add_body_content items docs ;;
    Ok (docs ++ [[]])
  else Ok docs.

(** The example of a response content, with its heading: lines 150-155
    and 157-162. *)
Definition response_example (content_type example : value) : list str :=
  [nl :: lit "    Example (" ++ py_str content_type ++ lit "):"; []]
  ++ example_lines example.

(** The body of the loop over the content types of a response:
    lines 149-162. *)
Definition add_response_content (docs : list str) (item : value * value)
  : result (list str) :=
  let '(content_type, content) := item in
  has_example <- py_in (lit "example") content ;;
  if has_example : bool then
    example <- py_getitem content (lit "example") ;;
    Ok (docs ++ response_example content_type example)
  else
    has_schema <- py_in (lit "schema") content ;;
    if has_schema : bool then
      schema <- py_getitem content (lit "schema") ;;
      schema_has_example <- py_in (lit "example") schema ;;
      if schema_has_example : bool then
        example <- py_getitem schema (lit "example") ;;
        Ok (docs ++ response_example content_type example)
      else Ok docs
    else Ok docs.

(** The body of the loop over the responses: lines 143-162. *)
Definition add_response (docs : list str) (item : value * value)
  : result (list str) :=
  let '(status_code, response) := item in
  response_desc <- py_get response (lit "description") (VStr []) ;;
  let docs :=
    docs ++ [lit "  * " ++ py_str status_code ++ lit ": " ++ py_str response_desc]
  in
  has_content <- py_in (lit "content") response ;;
  if has_content : bool then
    content <- py_getitem response (lit "content") ;;
    items <- py_items content ;;
    for_each add_response_content items docs
  else Ok docs.

(** Lines 140-163 *)
Definition add_responses (operation : value) (docs : list str)
  : result (list str) :=
  has <- py_in (lit "responses") operation ;;
  if has : bool then
    let docs := docs ++ [lit "Responses:"] in
    responses <- py_getitem operation (lit "responses") ;;
    items <- py_items responses ;;
    docs <- for_each add_response items docs ;;
    Ok (docs ++ [[]])
  else Ok docs.

(** *** The sections in closed form *)

(** The bullet of a parameter and, for an example that is true as a
    condition, the line of the example. *)
Definition parameter_bullet (param : list (value * value)) : str :=
  lit "  * " ++ py_str (dict_get param (lit "name") (VStr []))
  ++ lit " (" ++ py_str (dict_get param (lit "in") (VStr []))
  ++ lit ", "
  ++ (if truthy (dict_get param (lit "required") (VBool false))
      then lit "required" else lit "optional")
  ++ lit "): " ++ py_str (dict_get param (lit "description") (VStr [])).

Definition parameter_lines (param : list (value * value)) : list str :=
  parameter_bullet param
  :: (if truthy (dict_get param (lit "example") (VStr []))
      then [nl :: lit "    Example: "
              ++ py_str (dict_get param (lit "example") (VStr []))]
      else []).

Definition description_section (operation : list (value * value)) : list str :=
  match dict_lookup (lit "description") operation with
  | Some description => [lit "Description: " ++ py_str description ++ [nl]]
  | None => []
  end.

(** A section with a heading: nothing when the operation has no such key,
    else the heading, the entries of the section and an empty entry. *)
Definition headed_section (present : option value) (heading : str)
  (section : list str) : Prop :=
  match present with
  | Some _ => exists entries, section = heading :: entries ++ [[]]
  | None => section = []
  end.

(** The list [docs] of an operation: lines 76-163. *)
Definition build_docs (operation : value) : result (list str) :=
  docs <- add_description operation [] ;;
  docs <- add_security operation docs ;;
  docs <- add_parameters operation docs ;;
  docs <- add_request_body operation docs ;;
  add_responses operation docs.

(** What the extractor has built and printed so far. *)
Record state : Type := mk_state {
  s_docs : path_docs;
  s_out : list str
}.

(** Lines 166-168: one assignment for each tag. *)
Definition store_tag (method : str) (path summary : value) (text : str)
  (d : path_docs) (tag : value) : result path_docs :=
  if hashable tag && hashable path && hashable summary
  then Ok (docs_set (tag, upper method, path, summary) text d)
  else Raise TypeError.

(** The body of the loop over the items of a path: lines 63-168. *)
Definition extract_operation (path : value) (st : state)
  (item : value * value) : result state :=
  let '(method, operation) := item in
  match method with
  | VStr m =>
      if existsb (str_eqb m) http_methods then
        tags <- py_get operation (lit "tags") (VList []) ;;
        summary <- py_get operation (lit "summary") (VStr []) ;;
        if negb (truthy tags) || negb (truthy summary) then
          Ok (mk_state (s_docs st)
                (s_out st ++ [lit "Warning: Missing tags or summary for "
                              ++ upper m ++ lit " " ++ py_str path]))
        else
          docs <- build_docs operation ;;
          tag_list <- py_iter tags ;;
          d <- for_each (store_tag m path summary (join [nl] docs))
                 tag_list (s_docs st) ;;
          Ok (mk_state d (s_out st))
      else Ok st
  | _ => Ok st
  end.

(** The body of the loop over the paths: lines 61-168. *)
Definition extract_path (st : state) (item : value * value) : result state :=
  let '(path, path_item) := item in
  operations <- py_items path_item ;;
  for_each (extract_operation path) operations st.

(** [extract_openapi_docs(openapi_data)]: the mapping it returns and what
    it has printed, unless it raises. *)
Definition extract_openapi_docs (openapi_data : value) : result state :=
  paths <- py_get openapi_data (lit "paths") (VDict []) ;;
  path_items <- py_items paths ;;
  for_each extract_path path_items (mk_state [] []).

End Extract.

End Extractor.
Import Extractor.

(* ================================================================== *)
(** * The file matcher: [update_bruno_files], lines 189-208 *)
(* ================================================================== *)

Module Matcher.

(** [[a-zA-Z0-9 ]] *)
Definition summary_char (c : char) : bool :=
  ((97 <=? c) && (c <=? 122) || (65 <=? c) && (c <=? 90)
   || (48 <=? c) && (c <=? 57) || (c =? 32))%N.

(** [re.sub(r'[^a-zA-Z0-9 ]', '', summary).strip()]: line 189. *)
Definition safe_summary (summary : str) : str :=
  strip (filter summary_char summary).

Definition is_ascii (c : char) : bool := (c <? 128)%N.

Definition lower_char (c : char) : char :=
  if ((65 <=? c) && (c <=? 90))%N then (c + 32)%N else c.

Definition ascii_lower (s : str) : str := map lower_char s.

(** [s.lower()]: the Unicode tables of the language give it; in a text of
    ASCII characters it changes the letters A to Z and nothing else. *)
Class Unicode : Type := {
  lower : str -> str;
  lower_ascii : forall s, forallb is_ascii s = true -> lower s = ascii_lower s
}.

(** [os.path.join(a, b)], as [posixpath] defines it. *)
Definition path_join (a b : str) : str :=
  if startswith b (lit "/") then b
  else
    match a with
    | [] => b
    | _ :: _ => if endswith a (lit "/") then a ++ b else a ++ lit "/" ++ b
    end.

(** What the search for the collection file of an operation ends with:
    the warning of line 199, or the first match and whether the warning
    of line 203 is printed. *)
Inductive selection : Type :=
| NoMatchingFile
| UseFile (bru_file : str) (warn_multiple : bool).

Section Match.

Context `{Unicode}.

(** [[f for f in os.listdir(tag_dir) if f.endswith('.bru')]] *)
Definition bru_files_of (listing : list str) : list str :=
  filter (fun f => endswith f (lit ".bru")) listing.

(** [safe_summary.lower() in bru_file.lower()] *)
Definition matches (safe_summary bru_file : str) : bool :=
  contains (lower bru_file) (lower safe_summary).

(** Lines 191-196 *)
Definition matching_files (safe_summary : str) (bru_files : list str)
  : list str :=
  filter (matches safe_summary) bru_files.

(** Lines 189-205, for the summary of the operation and the listing of
    the tag directory. *)
Definition select_file (summary : str) (listing : list str) : selection :=
  match matching_files (safe_summary summary) (bru_files_of listing) with
  | [] => NoMatchingFile
  | bru_file :: rest => UseFile bru_file (1 <? length (bru_file :: rest))
  end.

End Match.

End Matcher.
Import Matcher.

(* ================================================================== *)
(** * The [doc] command of [main], lines 340-367 *)
(* ================================================================== *)

Module Cli.

(** What the command prints before it calls [update_bruno_files]. *)
Inductive doc_event : Type :=
| OptionsRequired                 (* line 341 *)
| UsageText                       (* line 304 *)
| NotAFile                        (* line 346 *)
| WorkspaceNotADirectory          (* line 350 *)
| FromLoader (m : message)        (* lines 45, 50, 53 *)
| FromExtractor (line : str)      (* line 72 *)
| NoDocumentationFound.           (* line 361 *)

(** How far the command gets: [sys.exit] with a status, an exception that
    nothing catches, or the call of [update_bruno_files] with the mapping
    that the extractor has returned. *)
Inductive doc_outcome : Type :=
| Exits (status : nat) (out : list doc_event)
| Uncaught (e : exn)
| Updates (docs : path_docs) (out : list doc_event).

(** [not option]: the option is missing or its argument is empty. *)
Definition not_given (option : option str) : bool :=
  match option with
  | Some (_ :: _) => false
  | _ => true
  end.

Section Doc.

Context `{Runtime}.

(** The command once the options are read: [openapi_file] and [bruno_dir]
    are [None] when the option is not given; [isfile] and [isdir] are the
    answers of [os.path.isfile(openapi_file)] and [os.path.isdir(bruno_dir)],
    and [file] is what opening and parsing the file gives. *)
Definition main_doc (openapi_file bruno_dir : option str) (isfile isdir : bool)
  (file : loaded) : doc_outcome :=
  if not_given openapi_file || not_given bruno_dir
  then Exits 1 [OptionsRequired; UsageText]
  else if negb isfile then Exits 1 [NotAFile]
  else if negb isdir then Exits 1 [WorkspaceNotADirectory]
  else
    let '(loaded_data, messages) := validate_openapi_file file in
    let printed := map FromLoader messages in
    match loaded_data with
    | None => Exits 1 printed
    | Some openapi_data =>
        if negb (truthy openapi_data) then Exits 1 printed
        else
          match extract_openapi_docs openapi_data with
          | Raise e => Uncaught e
          | Ok st =>
              let printed := printed ++ map FromExtractor (s_out st) in
              match s_docs st with
              | [] => Exits 1 (printed ++ [NoDocumentationFound])
              | _ :: _ => Updates (s_docs st) printed
              end
          end
    end.

End Doc.

End Cli.
Import Cli.

(* ================================================================== *)
(** * Operations of the shape that OpenAPI 3.0 prescribes *)
(* ================================================================== *)

Module OpenApi.

Definition is_dict (v : value) : bool :=
  match v with VDict _ => true | _ => false end.

Definition is_string (v : value) : bool :=
  match v with VStr _ => true | _ => false end.

(** [security]: a list of mappings from scheme names to scopes. *)
Definition wf_security (v : value) : bool :=
  match v with
  | VList items =>
      forallb
        (fun item =>
           match item with
           | VDict schemes => forallb (fun e => is_string (fst e)) schemes
           | _ => false
           end) items
  | _ => false
  end.

(** [parameters]: a list of mappings. *)
Definition wf_parameters (v : value) : bool :=
  match v with
  | VList params => forallb is_dict params
  | _ => false
  end.

(** A schema: a mapping whose [properties], if any, map names to mappings
    and whose [required], if any, is a list of names. *)
Definition wf_schema (v : value) : bool :=
  match v with
  | VDict schema =>
      match dict_lookup (lit "properties") schema with
      | None => true
      | Some (VDict props) =>
          forallb (fun e => is_dict (snd e)) props
          && match dict_lookup (lit "required") schema with
             | None => true
             | Some (VList names) => forallb is_string names
             | Some _ => false
             end
      | Some _ => false
      end
  | _ => false
  end.

(** [requestBody]: a mapping whose [content], if any, maps content types
    to mappings with a schema of that shape. *)
Definition wf_request_body (v : value) : bool :=
  match v with
  | VDict request_body =>
      match dict_get request_body (lit "content") (VDict []) with
      | VDict contents =>
          forallb
            (fun e =>
               match snd e with
               | VDict content =>
                   wf_schema (dict_get content (lit "schema") (VDict []))
               | _ => false
               end) contents
      | _ => false
      end
  | _ => false
  end.

(** [responses]: a mapping from status codes to mappings whose [content],
    if any, maps content types to mappings; a [schema] in one of these is
    a mapping. *)
Definition wf_response_content (v : value) : bool :=
  match v with
  | VDict content =>
      match dict_lookup (lit "example") content with
      | Some _ => true
      | None =>
          match dict_lookup (lit "schema") content with
          | None => true
          | Some schema => is_dict schema
          end
      end
  | _ => false
  end.

Definition wf_responses (v : value) : bool :=
  match v with
  | VDict responses =>
      forallb
        (fun e =>
           match snd e with
           | VDict response =>
               match dict_lookup (lit "content") response with
               | None => true
               | Some (VDict contents) =>
                   forallb (fun c => wf_response_content (snd c)) contents
               | Some _ => false
               end
           | _ => false
           end) responses
  | _ => false
  end.

Definition wf_field (check : value -> bool) (operation : list (value * value))
  (name : str) : bool :=
  match dict_lookup name operation with
  | Some v => check v
  | None => true
  end.

Definition well_formed_operation (operation : list (value * value)) : bool :=
  wf_field wf_security operation (lit "security")
  && wf_field wf_parameters operation (lit "parameters")
  && wf_field wf_request_body operation (lit "requestBody")
  && wf_field wf_responses operation (lit "responses").

End OpenApi.
Import OpenApi.

(* ================================================================== *)
(** * The sections of the documentation, entry by entry *)
(* ================================================================== *)

Module Sections.




Section Closed.

Context `{Runtime}.










End Closed.

End Sections.
Import Sections.

(* ================================================================== *)
(** * Notions used in the statements and proofs *)
(* ================================================================== *)

Module Notions.

(** *** The workspace *)

(** The number of files reported as reverted. *)
Definition count_reverted (out : list event) : nat :=
  length (filter is_reverted out).

Definition ends_bak (name : str) : Prop := endswith name (lit ".bak") = true.

(** Overriding the content of named files in place. *)
Definition ovr (f : str -> option bytes) (e : str * bytes) : str * bytes :=
  match f (fst e) with
  | Some v => (fst e, v)
  | None => e
  end.

(** The last write to a name. *)
Definition final (ws : list (str * bytes)) (name : str) : option bytes :=
  lookup name (rev ws).

(** A listing in which the writes [ws] have been done. *)
Definition settled (ws : list (str * bytes)) (files : list (str * bytes))
  : Prop :=
  forall name v, final ws name = Some v ->
    has_name name files = true
    /\ forall k x, In (k, x) files -> str_eqb k name = true -> x = v.

(** What the loop over a directory needs to know of its subdirectories:
    their names and the names of the directories in them. *)
Definition sub_names (subdirs : list (str * dir)) : list (str * list str) :=
  map (fun e => (fst e, map fst (subdirs_of (snd e)))) subdirs.

(** The invariant of the loop over the backups of a directory listed as
    [files]: the names stay, and so does the content of the backups. *)
Definition loop_inv (files : list (str * bytes)) (st : loop_state) : Prop :=
  map fst (l_files st) = map fst files
  /\ forall b, ends_bak b -> lookup b (l_files st) = lookup b files.

(** The files that a directory receives from its parent are backups. *)
Definition received_ok (received : list (str * bytes)) : Prop :=
  Forall (fun e => ends_bak (fst e)) received.

Section Plan.

Variable copy_raises : path -> path -> bool.
Variable root : path.

(** The write that the loop body makes in its own directory for the backup
    [b], given the listing [files] the loop started from. *)
Definition plan_local (subdirs : list (str * dir)) (files : list (str * bytes))
  (b : str) : list (str * bytes) :=
  let t := bru_file_of b in
  if has_name t files || has_name t subdirs then
    match lookup b files with
    | None => []
    | Some v =>
        if copy_raises (root ++ [b]) (root ++ [t]) then []
        else match lookup t subdirs with
             | Some _ => []
             | None => [(t, v)]
             end
    end
  else [].

(** The file that it copies into a subdirectory. *)
Definition plan_sent (subdirs : list (str * dir)) (files : list (str * bytes))
  (b : str) : list (str * (str * bytes)) :=
  let t := bru_file_of b in
  if has_name t files || has_name t subdirs then
    match lookup b files with
    | None => []
    | Some v =>
        if copy_raises (root ++ [b]) (root ++ [t]) then []
        else match lookup t subdirs with
             | Some d => if has_name b (subdirs_of d) then [] else [(t, (b, v))]
             | None => []
             end
    end
  else [].

End Plan.

(** *** The doc extractor *)

(** A step that only appends to [docs]. *)
Definition extends (f : list str -> result (list str)) : Prop :=
  forall docs docs', f docs = Ok docs' -> exists more, docs' = docs ++ more.

(** The number of items of the mapping under the key [k]. *)
Definition count_key (k : key) (d : path_docs) : nat :=
  length (filter (fun e => key_eqb (fst e) k) d).

(** No two items of the mapping have equal keys. *)
Definition unique_keys (d : path_docs) : Prop :=
  forall k, count_key k d <= 1.



End Notions.
Import Notions.

Module Shapes.

(** *** Documents *)

(** An item of a path item that the extractor reads as an operation: its
    key is one of the eight method names. *)
Definition is_operation_item (item : value * value) : bool :=
  match fst item with
  | VStr m => existsb (str_eqb m) http_methods
  | _ => false
  end.

(** The keys of a mapping are different objects, as in every [dict]. *)
Fixpoint distinct_keys (items : list (value * value)) : bool :=
  match items with
  | [] => true
  | (k, _) :: items' =>
      negb (existsb (fun e => py_eq k (fst e)) items') && distinct_keys items'
  end.

(** A key as the extractor builds it: an upper-case method name, three
    objects that can be hashed, and a summary that is true as a
    condition. *)
Definition key_ok (k : key) : bool :=
  let '(tag, method, path, summary) := k in
  existsb (str_eqb method) (map upper http_methods)
  && hashable tag && hashable path && hashable summary && truthy summary.

Definition is_warning (line : str) : bool :=
  startswith line (lit "Warning: Missing tags or summary for ").

(** The invariant of the extractor. *)
Definition extractor_inv (st : state) : Prop :=
  unique_keys (s_docs st)
  /\ forallb (fun e => key_ok (fst e)) (s_docs st) = true
  /\ forallb is_warning (s_out st) = true.

(** An operation without tags or without a summary. *)
Definition untagged (operation : value) : bool :=
  match operation with
  | VDict fields =>
      negb (truthy (dict_get fields (lit "tags") (VList [])))
      || negb (truthy (dict_get fields (lit "summary") (VStr [])))
  | _ => false
  end.

Section Warnings.

Context `{Runtime}.

(** The line that is printed for such an operation: line 72. *)
Definition missing_warning (path : value) (m : str) : str :=
  lit "Warning: Missing tags or summary for " ++ upper m ++ lit " "
  ++ py_str path.

(** One line for each operation of a path item. *)
Definition path_warnings (item : value * value) : list str :=
  match snd item with
  | VDict operations =>
      flat_map
        (fun e =>
           match fst e with
           | VStr m =>
               if existsb (str_eqb m) http_methods
               then [missing_warning (fst item) m] else []
           | _ => []
           end) operations
  | _ => []
  end.

End Warnings.

(** The scheme names of a list of security requirements, as objects. *)
Definition requirement (schemes : list (str * value)) : value :=
  VDict (map (fun e => (VStr (fst e), snd e)) schemes).

(** *** Workspaces *)

(** The directory at a path below a directory. *)
Fixpoint dir_at (d : dir) (p : path) : option dir :=
  match p with
  | [] => Some d
  | name :: p' =>
      match lookup name (subdirs_of d) with
      | Some sub => dir_at sub p'
      | None => None
      end
  end.

(** No directory has the name that revert derives from a backup beside
    it: every copy of the revert engine goes to a file. *)
Fixpoint plain (d : dir) : bool :=
  match d with
  | Dir files subdirs =>
      forallb (fun b => negb (has_name (bru_file_of b) subdirs))
        (bak_files_of files)
      && forallb (fun e => plain (snd e)) subdirs
  end.

(** The same for one directory. *)
Definition no_directory_target (files : list (str * bytes))
  (subdirs : list (str * dir)) : Prop :=
  forall b, In b (bak_files_of files) ->
            has_name (bru_file_of b) subdirs = false.

(** The number of backup files of a workspace. *)
Fixpoint count_backups (d : dir) : nat :=
  match d with
  | Dir files subdirs =>
      length (bak_files_of files)
      + list_sum (map (fun e => count_backups (snd e)) subdirs)
  end.

End Shapes.
Import Shapes.

Module Expected.

Section Lines.

Variable copy_raises : path -> path -> bool.

(** The line that revert prints for the backup [b] of the directory
    [root], from the listing [files] of the directory and its
    subdirectories, as they are when the loop over the directory starts:
    a warning when nothing has the derived name, an error when the copy is
    refused or goes into a directory that has a directory of the name of
    the backup, and else the line of a reverted file. *)
Definition event_of (root : path) (subdirs : list (str * dir))
  (files : list (str * bytes)) (b : str) : event :=
  let t := bru_file_of b in
  if has_name t files || has_name t subdirs then
    if copy_raises (root ++ [b]) (root ++ [t]) then ErrorReverting (root ++ [t])
    else
      match lookup t subdirs with
      | Some d =>
          if has_name b (subdirs_of d) then ErrorReverting (root ++ [t])
          else Reverted (root ++ [t])
      | None => Reverted (root ++ [t])
      end
  else OriginalNotFound (root ++ [t]) (root ++ [b]).

(** The lines for a workspace: those for the backups of the directory, in
    the order of its listing, then those for its subdirectories in turn,
    each listed with the files that the directory has copied into it. *)
Fixpoint expected_out (root : path) (received : list (str * bytes)) (d : dir)
  : list event :=
  match d with
  | Dir files subdirs =>
      let files0 := write_all received files in
      let baks := bak_files_of files0 in
      map (event_of root subdirs files0) baks
      ++ flat_map
           (fun e =>
              expected_out (root ++ [fst e])
                (sent_to (fst e)
                   (flat_map (plan_sent copy_raises root subdirs files0) baks))
                (snd e))
           subdirs
  end.

End Lines.

End Expected.
Import Expected.

(* ================================================================== *)
(** * The wording of the specification, for comparison *)
(* ================================================================== *)

Module PatcherSpec.

(** Replacement of the first occurrence only. *)
Fixpoint replace_first (s old new : str) : str :=
  match s with
  | [] => if startswith [] old then new else []
  | c :: s' =>
      if startswith s old then new ++ skipn (length old) s
      else c :: replace_first s' old new
  end.

(** The merged span: the matched span without its trailing closing brace,
    two newlines, the new documentation text, a newline and a closing
    brace. *)
Definition merged_span (group docs : str) : str :=
  removelast group ++ [nl; nl] ++ docs ++ [nl; rbrace].

(** The merged span replaces the original span in the file content, at
    its first occurrence only. *)
Definition merge_docs (bru_content docs : str) : option str :=
  match search docs_kw bru_content with
  | Some docs_match =>
      Some (replace_first bru_content (m_group docs_match)
              (merged_span (m_group docs_match) docs))
  | None => None
  end.

End PatcherSpec.

Module ExtractorSpec.

Section Parameters.

Context `{Runtime}.

Definition field (fields : list (value * value)) (name : str) : str :=
  match dict_lookup name fields with
  | Some v => py_str v
  | None => []
  end.

(** One bullet per parameter, [name (location, required|optional):
    description], with [required] exactly when the required field of the
    parameter is [true]; if the parameter carries an example value, an
    indented [Example: <value>] line follows. *)
Definition parameter_entries (fields : list (value * value)) : list str :=
  let required :=
    match dict_lookup (lit "required") fields with
    | Some (VBool true) => lit "required"
    | _ => lit "optional"
    end in
  (lit "  * " ++ field fields (lit "name") ++ lit " ("
     ++ field fields (lit "in") ++ lit ", " ++ required ++ lit "): "
     ++ field fields (lit "description"))
  :: match dict_lookup (lit "example") fields with
     | Some example => [nl :: lit "    Example: " ++ py_str example]
     | None => []
     end.

End Parameters.

End ExtractorSpec.

Module LoaderSpec.

(** The contract of the loader: it fails with ParseError if the file is
    invalid YAML, with FormatError if the top-level [openapi] field is
    absent or does not start with [3.0], with IOError if the file is
    unreadable, and returns the root document object on success.  The
    three kinds are named by the messages of the program. *)
Definition load (file : loaded) : option value * list message :=
  match file with
  | Unreadable => (None, [ErrorReadingFile])
  | InvalidYaml => (None, [NotValidYaml])
  | Parsed openapi_data =>
      if has_version_3_0 openapi_data then (Some openapi_data, [])
      else (None, [NotOpenApi3])
  end.

End LoaderSpec.

Module FileSpec.


End FileSpec.

(* ================================================================== *)
(** * Sample data *)
(* ================================================================== *)

(** Two platforms with the Latin-1 codec: one whose line separator is the
    line feed, one whose line separator is CR LF. *)
Definition latin1_decode (data : bytes) : option str :=
  Some (map Byte.to_N data).

Fixpoint latin1_encode (text : str) : option bytes :=
  match text with
  | [] => Some []
  | c :: text' =>
      match Byte.of_N c, latin1_encode text' with
      | Some b, Some data => Some (b :: data)
      | _, _ => None
      end
  end.

Definition example_posix : Platform :=
  {| decode := latin1_decode; encode := latin1_encode; linesep := [nl] |}.

Definition example_windows : Platform :=
  {| decode := latin1_decode; encode := latin1_encode; linesep := [cr; nl] |}.

Definition ascii_bytes (s : String.string) : bytes :=
  String.list_byte_of_string s.

(** A collection file with a docs block, and one whose lines end with
    CR LF. *)
Definition docs_file : bytes := ascii_bytes "meta {a} docs {x } get {u}".



(** A runtime for the examples; none of them formats a list or a dict or
    dumps an example. *)
Definition example_runtime : Runtime :=
  {| repr := fun _ => lit "[...]"; yaml_dump := fun _ => lit "..." |}.

(** The operation [GET /users/{id}] of the end-to-end example, with a
    second tag. *)
Definition example_operation : list (value * value) :=
  [(VStr (lit "tags"), VList [VStr (lit "Users"); VStr (lit "Admin")]);
   (VStr (lit "summary"), VStr (lit "Get User"));
   (VStr (lit "description"), VStr (lit "Returns one user"));
   (VStr (lit "parameters"),
    VList [VDict [(VStr (lit "name"), VStr (lit "id"));
                  (VStr (lit "in"), VStr (lit "path"));
                  (VStr (lit "required"), VBool true);
                  (VStr (lit "description"), VStr (lit "User ID"));
                  (VStr (lit "example"), VInt 123)]]);
   (VStr (lit "responses"),
    VDict [(VInt 200, VDict [(VStr (lit "description"), VStr (lit "OK"))])])].

(** The entries of [docs] for it. *)
Definition example_docs : list str :=
  [lit "Description: Returns one user" ++ [nl];
   lit "Parameters:";
   lit "  * id (path, required): User ID";
   nl :: lit "    Example: 123";
   [];
   lit "Responses:";
   lit "  * 200: OK";
   []].

(** A parameter whose example is the number 0. *)
Definition example_parameter : list (value * value) :=
  [(VStr (lit "name"), VStr (lit "limit"));
   (VStr (lit "in"), VStr (lit "query"));
   (VStr (lit "description"), VStr (lit "Page size"));
   (VStr (lit "example"), VInt 0)].

(** A workspace with three backups, one of them without a working file,
    and a subdirectory. *)
Definition workspace_a : dir :=
  Dir [(lit "a.bak", [Byte.x01]); (lit "a.bru", [Byte.x02]);
       (lit "b.bak", [Byte.x03]); (lit "c.bak", [Byte.x04]);
       (lit "c.bru", [Byte.x05])]
      [(lit "Users", Dir [(lit "u.bak", [Byte.x06]); (lit "u.bru", [])] [])].

(** An operation with two tags and every section: two security
    requirements, a parameter, a request body with a schema and an example, and two
    responses, one of them with an example. *)
Definition example_full_operation : list (value * value) :=
  [(VStr (lit "tags"), VList [VStr (lit "Users"); VStr (lit "Admin")]);
   (VStr (lit "summary"), VStr (lit "Create User"));
   (VStr (lit "description"), VStr (lit "Adds a user"));
   (VStr (lit "security"),
    VList [VDict [(VStr (lit "api_key"), VList [])];
           VDict [(VStr (lit "oauth"), VList [VStr (lit "write")])]]);
   (VStr (lit "parameters"),
    VList [VDict [(VStr (lit "name"), VStr (lit "dry"));
                  (VStr (lit "in"), VStr (lit "query"));
                  (VStr (lit "description"), VStr (lit "Dry run"))]]);
   (VStr (lit "requestBody"),
    VDict
      [(VStr (lit "content"),
        VDict
          [(VStr (lit "application/json"),
            VDict
              [(VStr (lit "schema"),
                VDict
                  [(VStr (lit "properties"),
                    VDict
                      [(VStr (lit "name"),
                        VDict [(VStr (lit "type"), VStr (lit "string"));
                               (VStr (lit "description"), VStr (lit "Name"))]);
                       (VStr (lit "age"),
                        VDict [(VStr (lit "type"), VStr (lit "integer"));
                               (VStr (lit "format"), VStr (lit "int32"));
                               (VStr (lit "description"), VStr (lit "Age"))])]);
                   (VStr (lit "required"), VList [VStr (lit "name")])]);
               (VStr (lit "example"),
                VDict [(VStr (lit "name"), VStr (lit "a"))])])])]);
   (VStr (lit "responses"),
    VDict
      [(VInt 201,
        VDict
          [(VStr (lit "description"), VStr (lit "Created"));
           (VStr (lit "content"),
            VDict
              [(VStr (lit "application/json"),
                VDict [(VStr (lit "example"), VDict [(VStr (lit "id"), VInt 1)])])])]);
       (VInt 400, VDict [(VStr (lit "description"), VStr (lit "Bad"))])])].

(** The entries of [docs] for it, with the example runtime. *)
Definition example_full_docs : list str :=
  [lit "Description: Adds a user" ++ [nl];
   lit "Security: api_key, oauth" ++ [nl];
   lit "Parameters:";
   lit "  * dry (query, optional): Dry run";
   [];
   lit "Body:";
   lit "  Content-Type: application/json";
   lit "  * name: Name (string)";
   lit "  * age: Age (integer, int32)";
   nl :: lit "  Required body properties: name";
   nl :: lit "  Example:";
   lit "      ...";
   [];
   lit "Responses:";
   lit "  * 201: Created";
   nl :: lit "    Example (application/json):";
   [];
   lit "      ...";
   lit "  * 400: Bad";
   []].

(** A [lower] that changes the ASCII letters only. *)
Definition example_unicode : Unicode :=
  {| lower := ascii_lower; lower_ascii := fun s _ => eq_refl |}.

(** The document of the end-to-end example: a path item with a path-level
    entry, an operation without tags and the operation above. *)
Definition example_paths : list (value * value) :=
  [(VStr (lit "/users/{id}"),
    VDict
      [(VStr (lit "parameters"), VList []);
       (VStr (lit "delete"),
        VDict [(VStr (lit "summary"), VStr (lit "Delete User"))]);
       (VStr (lit "get"), VDict example_operation)])].

Definition example_document : list (value * value) :=
  [(VStr (lit "openapi"), VStr (lit "3.0.0"));
   (VStr (lit "paths"), VDict example_paths)].

(** What the extractor returns and prints for it. *)
Definition example_state : state :=
  mk_state
    [((VStr (lit "Users"), lit "GET", VStr (lit "/users/{id}"),
       VStr (lit "Get User")), join [nl] example_docs);
     ((VStr (lit "Admin"), lit "GET", VStr (lit "/users/{id}"),
       VStr (lit "Get User")), join [nl] example_docs)]
    [lit "Warning: Missing tags or summary for DELETE /users/{id}"].

(** A document whose only operation has no tags. *)
Definition example_untagged_paths : list (value * value) :=
  [(VStr (lit "/users"),
    VDict
      [(VStr (lit "summary"), VStr (lit "Users"));
       (VStr (lit "post"),
        VDict [(VStr (lit "summary"), VStr (lit "Create User"))])])].

Definition example_untagged_document : list (value * value) :=
  [(VStr (lit "openapi"), VStr (lit "3.0.1"));
   (VStr (lit "paths"), VDict example_untagged_paths)].

(** A workspace in which the doc command has made two backups. *)
Definition workspace_b : dir :=
  Dir [(lit "bruno.json", [Byte.x07])]
      [(lit "Users",
        Dir [(lit "Get User.bak", [Byte.x01]); (lit "Get User.bru", [Byte.x02]);
             (lit "List Users.bru", [Byte.x03])]
            [(lit "Admin",
              Dir [(lit "Delete User.bak", [Byte.x04]);
                   (lit "Delete User.bru", [Byte.x05])] [])])].

(* ================================================================== *)
(** * Properties *)
(* ================================================================== *)

Example update_content_merge :
  update_content (lit "meta {a} docs {x} get {u}") (lit "B")
  = lit "meta {a} docs {x" ++ [nl; nl] ++ lit "B" ++ [nl] ++ lit "} get {u}".
Proof. reflexivity. Qed.

Example update_content_after_meta :
  update_content (lit "meta {a} get {u}") (lit "B")
  = lit "meta {a}" ++ [nl; nl] ++ lit "docs {" ++ [nl] ++ lit "B" ++ [nl]
    ++ lit "} get {u}".
Proof. reflexivity. Qed.

Example update_content_prepend :
  update_content (lit "get {u}") (lit "B")
  = lit "docs {" ++ [nl] ++ lit "B" ++ [nl] ++ lit "}" ++ [nl; nl] ++ lit "get {u}".
Proof. reflexivity. Qed.

(* ------------------------------------------------------------------ *)
(** ** Strings *)
(* ------------------------------------------------------------------ *)

Module PyStrFacts.

Lemma str_eqb_eq (a b : str) : str_eqb a b = true <-> a = b.
Proof.
  revert b; induction a as [|x a IH]; intros [|y b]; simpl;
    try (split; [discriminate | intros; congruence]); [tauto|].
  rewrite andb_true_iff, N.eqb_eq, IH.
  split; [intros [-> ->]; reflexivity | intros H; injection H; auto].
Qed.

Lemma str_eqb_refl (a : str) : str_eqb a a = true.
Proof. apply str_eqb_eq; reflexivity. Qed.

Lemma startswith_iff (s p : str) :
  startswith s p = true <-> exists r, s = p ++ r.
Proof.
  revert s; induction p as [|x p IH]; intros s; simpl.
  - split; [intros _; exists s; reflexivity | reflexivity].
  - destruct s as [|y s].
    + split; [discriminate | intros [r H]; discriminate].
    + rewrite andb_true_iff, N.eqb_eq, IH. split.
      * intros [-> [r ->]]. exists r; reflexivity.
      * intros [r H]. injection H as -> ->. eauto.
Qed.

Lemma startswith_app (p r : str) : startswith (p ++ r) p = true.
Proof. apply startswith_iff; eauto. Qed.

Lemma take_drop_while (p : char -> bool) (s : str) :
  take_while p s ++ drop_while p s = s.
Proof.
  induction s as [|c s IH]; simpl; [reflexivity|].
  destruct (p c); simpl; [rewrite IH|]; reflexivity.
Qed.

Lemma take_while_all (p : char -> bool) (s : str) :
  forallb p (take_while p s) = true.
Proof.
  induction s as [|c s IH]; simpl; [reflexivity|].
  destruct (p c) eqn:E; simpl; [rewrite E, IH|]; reflexivity.
Qed.

(** A run of characters of the class, ended by one outside it. *)
Lemma take_while_run (p : char -> bool) (u : str) (c : char) (v : str) :
  forallb p u = true -> p c = false -> take_while p (u ++ c :: v) = u.
Proof.
  induction u as [|x u IH]; simpl; intros Hu Hc.
  - rewrite Hc; reflexivity.
  - apply andb_true_iff in Hu as [-> Hu]. rewrite IH; auto.
Qed.

Lemma drop_while_run (p : char -> bool) (u : str) (c : char) (v : str) :
  forallb p u = true -> p c = false -> drop_while p (u ++ c :: v) = c :: v.
Proof.
  induction u as [|x u IH]; simpl; intros Hu Hc.
  - rewrite Hc; reflexivity.
  - apply andb_true_iff in Hu as [-> Hu]. rewrite IH; auto.
Qed.

(** Dropping stops at the first character outside the class, wherever
    it is. *)
Lemma drop_while_stop (p : char -> bool) (u : str) (c : char) (v : str) :
  p c = false -> drop_while p (u ++ c :: v) = drop_while p u ++ c :: v.
Proof.
  intros Hc. induction u as [|x u IH]; simpl.
  - rewrite Hc; reflexivity.
  - destruct (p x); [exact IH | reflexivity].
Qed.

Lemma rstrip_stop (x : str) (c : char) (body : str) :
  isspace c = false -> rstrip (x ++ c :: body) = x ++ c :: rstrip body.
Proof.
  intros Hc. unfold rstrip.
  replace (rev (x ++ c :: body)) with (rev body ++ c :: rev x).
  - rewrite drop_while_stop by exact Hc.
    rewrite rev_app_distr. simpl rev. rewrite rev_involutive.
    rewrite <- app_assoc. reflexivity.
  - rewrite rev_app_distr. simpl rev. rewrite <- app_assoc. reflexivity.
Qed.

(** *** [replace] *)

Lemma replace_from_skip (old new x r : str) :
  replace_from old new (length x) (x ++ r) = replace_from old new 0 r.
Proof.
  induction x as [|c x IH]; simpl; [|exact IH].
  destruct r; reflexivity.
Qed.

Lemma replace_from_nil (old new : str) (k : nat) :
  replace_from old new k [] = [].
Proof. reflexivity. Qed.

(** An occurrence at the front is replaced and the scan resumes behind it. *)
Lemma replace_from_hit (old new r : str) :
  old <> [] ->
  replace_from old new 0 (old ++ r) = new ++ replace_from old new 0 r.
Proof.
  destruct old as [|c old]; [congruence|]. intros _.
  change ((c :: old) ++ r) with (c :: (old ++ r)).
  cbn [replace_from].
  change (c :: old ++ r) with ((c :: old) ++ r).
  rewrite startswith_app.
  replace (length (c :: old) - 1) with (length old) by (simpl; lia).
  rewrite replace_from_skip. reflexivity.
Qed.

(** No occurrence at the front: the character is kept. *)
Lemma replace_from_miss (old new : str) (c : char) (s : str) :
  startswith (c :: s) old = false ->
  replace_from old new 0 (c :: s) = c :: replace_from old new 0 s.
Proof. intros H. cbn [replace_from]. rewrite H. reflexivity. Qed.

(** A prefix in which no occurrence starts is copied. *)
Lemma replace_from_prefix (old new pre rest : str) :
  (forall a b, pre = a ++ b -> b <> [] -> startswith (b ++ rest) old = false) ->
  replace_from old new 0 (pre ++ rest) = pre ++ replace_from old new 0 rest.
Proof.
  induction pre as [|c pre IH]; intros H; [reflexivity|].
  simpl app. rewrite replace_from_miss.
  - f_equal. apply IH. intros a b -> Hb.
    apply (H (c :: a) b); [reflexivity | exact Hb].
  - apply (H [] (c :: pre)); [reflexivity | discriminate].
Qed.

Lemma replace_from_absent (old new s : str) :
  old <> [] -> contains s old = false -> replace_from old new 0 s = s.
Proof.
  intros Hold. induction s as [|c s IH]; intros H; [reflexivity|].
  simpl in H. apply orb_false_iff in H as [H1 H2].
  rewrite replace_from_miss by exact H1. f_equal. apply IH.
  exact H2.
Qed.

Lemma replace_hit (old new r : str) :
  old <> [] -> replace (old ++ r) old new = new ++ replace r old new.
Proof.
  intros H. unfold replace. destruct old; [congruence|].
  apply replace_from_hit; discriminate.
Qed.

Lemma replace_miss (old new : str) (c : char) (s : str) :
  startswith (c :: s) old = false ->
  replace (c :: s) old new = c :: replace s old new.
Proof.
  intros H. unfold replace. destruct old; [discriminate|].
  apply replace_from_miss; exact H.
Qed.

Lemma replace_nil (old new : str) : old <> [] -> replace [] old new = [].
Proof. destruct old; [congruence | reflexivity]. Qed.

Lemma contains_iff (s old : str) :
  contains s old = true <-> exists a b, s = a ++ old ++ b.
Proof.
  induction s as [|c s IH]; simpl.
  - rewrite orb_false_r, startswith_iff. split.
    + intros [r H]. exists [], r. exact H.
    + intros [a [b H]]. destruct a; simpl in H.
      * eauto.
      * discriminate.
  - rewrite orb_true_iff, startswith_iff, IH. split.
    + intros [[r H] | [a [b H]]].
      * exists [], r. exact H.
      * exists (c :: a), b. rewrite H. reflexivity.
    + intros [[|x a] [b H]]; simpl in H.
      * left. eauto.
      * right. injection H as -> ->. eauto.
Qed.

End PyStrFacts.
Import PyStrFacts.

(* ------------------------------------------------------------------ *)
(** ** The patterns *)
(* ------------------------------------------------------------------ *)

Module PatternFacts.

Lemma skipn_length_app (p r : str) : skipn (length p) (p ++ r) = r.
Proof. induction p; simpl; auto. Qed.

Lemma firstn_length_app (p r : str) : firstn (length p) (p ++ r) = p.
Proof. induction p; simpl; f_equal; auto. Qed.

Lemma isspace_lbrace : isspace lbrace = false.
Proof. reflexivity. Qed.

Lemma not_brace_rbrace : not_brace rbrace = false.
Proof. reflexivity. Qed.

(** The matcher accepts exactly the prefixes that are in the language of
    the pattern, and a text has at most one such prefix. *)
Lemma match_block_sound (kw s m : str) :
  match_block kw s = Some m -> block kw m /\ exists r, s = m ++ r.
Proof.
  unfold match_block, strip_prefix.
  destruct (startswith s kw) eqn:Hkw; [|discriminate].
  apply startswith_iff in Hkw as [r1 ->].
  rewrite skipn_length_app.
  pose proof (take_drop_while isspace r1) as Hws.
  pose proof (take_while_all isspace r1) as Hall.
  destruct (drop_while isspace r1) as [|c r2]; [discriminate|].
  destruct (N.eqb_spec c lbrace) as [->|]; [|discriminate].
  pose proof (take_drop_while not_brace r2) as Hb.
  pose proof (take_while_all not_brace r2) as Hball.
  destruct (drop_while not_brace r2) as [|c' r3]; [discriminate|].
  destruct (N.eqb_spec c' rbrace) as [->|]; [|discriminate].
  intros H; injection H as <-. split.
  - exists (take_while isspace r1), (take_while not_brace r2).
    unfold block_text. simpl. auto.
  - exists r3. rewrite <- Hws at 1. rewrite <- Hb at 1.
    repeat (rewrite <- app_assoc; simpl). reflexivity.
Qed.

Lemma match_block_complete (kw m r : str) :
  block kw m -> match_block kw (m ++ r) = Some m.
Proof.
  intros [ws [body [-> [Hws Hbody]]]].
  unfold match_block, strip_prefix, block_text.
  repeat (rewrite <- app_assoc; simpl).
  rewrite startswith_app, skipn_length_app.
  rewrite take_while_run, drop_while_run by (auto using isspace_lbrace).
  rewrite N.eqb_refl.
  rewrite take_while_run, drop_while_run by (auto using not_brace_rbrace).
  rewrite N.eqb_refl. reflexivity.
Qed.

Lemma block_nonempty (kw m : str) : block kw m -> m <> [].
Proof.
  intros [ws [body [-> _]]] H. unfold block_text in H.
  apply app_eq_nil in H as [_ H]. apply app_eq_nil in H as [_ H].
  discriminate.
Qed.

Lemma search_from_hit (kw : str) (pos : nat) (s g : str) :
  match_block kw s = Some g -> search_from kw pos s = Some (mk_match pos g).
Proof. intros H. destruct s; simpl; rewrite H; reflexivity. Qed.

(** [search_from] returns the leftmost match. *)
Lemma search_from_first (kw pre m post : str) (pos : nat) :
  first_block kw pre m post (pre ++ m ++ post) ->
  search_from kw pos (pre ++ m ++ post) = Some (mk_match (pos + length pre) m).
Proof.
  revert pos. induction pre as [|c pre IH]; intros pos [[_ Hm] Hmin].
  - cbn [app length]. rewrite Nat.add_0_r.
    apply search_from_hit, match_block_complete, Hm.
  - simpl app. cbn [search_from].
    destruct (match_block kw (c :: pre ++ m ++ post)) as [g|] eqn:E.
    + apply match_block_sound in E as [Hg [r Hr]].
      assert (length (c :: pre) <= length (@nil char)) as Hle.
      { apply (Hmin [] g r). split; [exact Hr | exact Hg]. }
      simpl in Hle. lia.
    + rewrite IH.
      * simpl. rewrite Nat.add_succ_r. reflexivity.
      * split; [split; [reflexivity | exact Hm]|].
        intros pre' m' post' [Hs Hb].
        assert (length (c :: pre) <= length (c :: pre')) as Hle.
        { apply (Hmin (c :: pre') m' post'). split; [|exact Hb].
          simpl. rewrite Hs. reflexivity. }
        simpl in Hle. lia.
Qed.

Lemma search_first (kw pre m post s : str) :
  first_block kw pre m post s ->
  search kw s = Some (mk_match (length pre) m).
Proof.
  intros H. pose proof H as [[-> _] _]. unfold search.
  rewrite search_from_first by exact H. reflexivity.
Qed.

Lemma search_from_none (kw : str) (pos : nat) (s : str) :
  search_from kw pos s = None -> ~ has_block kw s.
Proof.
  revert pos. induction s as [|c s IH]; intros pos H [pre [m [post [Hs Hm]]]].
  - symmetry in Hs. apply app_eq_nil in Hs as [_ Hs].
    apply app_eq_nil in Hs as [Hs _]. apply block_nonempty in Hm. tauto.
  - cbn [search_from] in H.
    destruct (match_block kw (c :: s)) eqn:E; [discriminate|].
    destruct pre as [|x pre].
    + simpl in Hs. rewrite Hs, match_block_complete in E by exact Hm.
      discriminate.
    + injection Hs as -> ->. apply (IH _ H). exists pre, m, post.
      split; [reflexivity | exact Hm].
Qed.

Lemma search_from_some (kw : str) (pos : nat) (s : str) (mm : re_match) :
  search_from kw pos s = Some mm ->
  exists pre post,
    first_block kw pre (m_group mm) post s /\ m_start mm = pos + length pre.
Proof.
  revert pos. induction s as [|c s IH]; intros pos H; cbn [search_from] in H.
  - destruct (match_block kw []) as [g|] eqn:E; [|discriminate].
    injection H as <-. apply match_block_sound in E as [Hg [r Hr]].
    exists [], r. simpl. repeat split; auto. intros; simpl; lia.
  - destruct (match_block kw (c :: s)) as [g|] eqn:E.
    + injection H as <-. apply match_block_sound in E as [Hg [r Hr]].
      exists [], r. simpl. repeat split; auto. intros; simpl; lia.
    + apply IH in H as [pre [post [[[Hs Hm] Hmin] Hst]]].
      exists (c :: pre), post. split; [split; [split|]|].
      * simpl. rewrite Hs. reflexivity.
      * exact Hm.
      * intros [|x pre'] m' post' [Hs' Hm'].
        -- simpl in Hs'. rewrite Hs', match_block_complete in E by exact Hm'.
           discriminate.
        -- injection Hs' as -> Hs'. simpl.
           apply le_n_S, (Hmin pre' m' post'). split; assumption.
      * rewrite Hst. simpl. lia.
Qed.

Lemma search_none_iff (kw s : str) :
  search kw s = None <-> ~ has_block kw s.
Proof.
  split; [apply search_from_none|].
  intros H. destruct (search kw s) as [mm|] eqn:E; [|reflexivity].
  apply search_from_some in E as [pre [post [[Hb _] _]]].
  exfalso. apply H. exists pre, (m_group mm), post. exact Hb.
Qed.

Lemma search_some_iff (kw s pre m post : str) :
  s = pre ++ m ++ post ->
  search kw s = Some (mk_match (length pre) m) <-> first_block kw pre m post s.
Proof.
  intros Hs. split; [|apply search_first].
  intros H. apply search_from_some in H as [pre' [post' [Hf Hst]]].
  simpl in Hf, Hst. pose proof Hf as [[Hs' _] _].
  assert (pre' = pre /\ post' = post) as [-> ->]; [|exact Hf].
  rewrite Hs in Hs'. clear - Hs' Hst. revert pre' Hst Hs'.
  induction pre as [|c pre IH]; intros [|c' pre'] Hst Hs'; try discriminate.
  - simpl in Hs'. apply app_inv_head in Hs'. auto.
  - simpl in Hst, Hs'. injection Hs' as -> Hs'.
    destruct (IH pre') as [-> ->]; auto.
Qed.

End PatternFacts.
Import PatternFacts.

(* ------------------------------------------------------------------ *)
(** ** The patcher *)
(* ------------------------------------------------------------------ *)

Module PatcherFacts.

Lemma replace_prefix (old new pre rest : str) :
  old <> [] ->
  (forall a b, pre = a ++ b -> b <> [] -> startswith (b ++ rest) old = false) ->
  replace (pre ++ rest) old new = pre ++ replace rest old new.
Proof.
  intros Hold H. unfold replace. destruct old; [congruence|].
  apply replace_from_prefix, H.
Qed.

Lemma replace_absent (old new s : str) :
  old <> [] -> contains s old = false -> replace s old new = s.
Proof.
  intros Hold H. unfold replace. destruct old; [congruence|].
  apply replace_from_absent; [discriminate | exact H].
Qed.

(** No copy of the first match starts before it. *)
Lemma first_block_no_earlier_copy (kw pre m post s a b : str) :
  first_block kw pre m post s ->
  pre = a ++ b -> b <> [] -> startswith (b ++ m ++ post) m = false.
Proof.
  intros [[Hs Hm] Hmin] -> Hb.
  destruct (startswith (b ++ m ++ post) m) eqn:E; [|reflexivity].
  apply startswith_iff in E as [r Hr].
  assert (length (a ++ b) <= length a) as Hle.
  { apply (Hmin a m r). split; [|exact Hm].
    rewrite Hs, <- app_assoc, Hr. reflexivity. }
  rewrite length_app in Hle. destruct b; [congruence | simpl in Hle; lia].
Qed.

(** What the merge branch does, whatever follows the first match: the text
    before it is kept, the match is replaced, and [replace] goes on through
    the rest of the content. *)
Lemma update_content_docs (content pre m post docs : str) :
  first_block docs_kw pre m post content ->
  update_content content docs
  = pre ++ updated_docs m docs ++ replace post m (updated_docs m docs).
Proof.
  intros H. unfold update_content.
  rewrite (search_first _ _ _ _ _ H). cbn [m_group].
  pose proof H as [[-> Hm] _].
  pose proof (block_nonempty _ _ Hm) as Hne.
  rewrite replace_prefix.
  - rewrite replace_hit by exact Hne. reflexivity.
  - exact Hne.
  - intros a b. eapply first_block_no_earlier_copy. exact H.
Qed.

(** The replacement span: the block keeps its keyword, white space and
    opening brace; its content loses its trailing white space and gains a
    blank line, the new text and a line feed. *)
Lemma updated_docs_block (ws A docs : str) :
  updated_docs (block_text docs_kw ws A) docs
  = block_text docs_kw ws (rstrip A ++ [nl; nl] ++ docs ++ [nl]).
Proof.
  unfold updated_docs, block_text.
  replace (docs_kw ++ ws ++ [lbrace] ++ A ++ [rbrace])
    with ((docs_kw ++ ws ++ lbrace :: A) ++ [rbrace])
    by (repeat (rewrite <- app_assoc; simpl); reflexivity).
  rewrite removelast_last.
  unfold strip.
  replace (lstrip (docs_kw ++ ws ++ lbrace :: A))
    with ((docs_kw ++ ws) ++ lbrace :: A)
    by (rewrite <- app_assoc; reflexivity).
  rewrite rstrip_stop by reflexivity.
  repeat (rewrite <- app_assoc; simpl). reflexivity.
Qed.

Lemma docs_element_block (docs : str) :
  docs_element docs = block_text docs_kw (lit " ") (nl :: docs ++ [nl]).
Proof.
  unfold docs_element, block_text. simpl.
  rewrite <- app_assoc. reflexivity.
Qed.

End PatcherFacts.
Import PatcherFacts.

(** The merge on the text that the program has read: when it has a docs
    block, the first one having white space [ws] and content [A], and the
    text of that block does not occur again behind it, then injecting the
    documentation text [B] keeps everything before and behind the block and
    replaces the block by a docs block whose content is [A] without its
    trailing white space, a blank line, [B] and a line feed. *)
Theorem update_content_merges_docs (content pre ws A post B : str) :
  first_block docs_kw pre (block_text docs_kw ws A) post content ->
  contains post (block_text docs_kw ws A) = false ->
  update_content content B
  = pre ++ block_text docs_kw ws (rstrip A ++ [nl; nl] ++ B ++ [nl]) ++ post.
Proof.
  intros Hfirst Honce.
  rewrite (update_content_docs _ _ _ _ B Hfirst).
  rewrite replace_absent.
  - rewrite updated_docs_block. reflexivity.
  - apply (block_nonempty docs_kw). apply Hfirst.
  - exact Honce.
Qed.

Lemma update_content_merges_docs_witness :
  update_content (lit "meta {a} docs {x } get {u}") (lit "B")
  = lit "meta {a} "
    ++ block_text docs_kw (lit " ") (rstrip (lit "x ") ++ [nl; nl] ++ lit "B" ++ [nl])
    ++ lit " get {u}".
Proof.
  apply (@update_content_merges_docs
           (lit "meta {a} docs {x } get {u}") (lit "meta {a} ") (lit " ")
           (lit "x ") (lit " get {u}") (lit "B")).
  - apply search_some_iff; reflexivity.
  - reflexivity.
Defined.

(** C1, as stated, fails: the program replaces every copy of the matched
    span, and it trims the white space that ends the old content.  Here the
    file holds the same docs block twice; the specification's wording
    changes the first copy only and keeps the space before the brace. *)
Lemma update_content_not_first_only :
  update_content (lit "docs {a } docs {a }") (lit "b")
  = lit "docs {a" ++ [nl; nl] ++ lit "b" ++ [nl] ++ lit "} docs {a"
    ++ [nl; nl] ++ lit "b" ++ [nl] ++ lit "}"
  /\ PatcherSpec.merge_docs (lit "docs {a } docs {a }") (lit "b")
     = Some (lit "docs {a " ++ [nl; nl] ++ lit "b" ++ [nl] ++ lit "} docs {a }")
  /\ Some (update_content (lit "docs {a } docs {a }") (lit "b"))
     <> PatcherSpec.merge_docs (lit "docs {a } docs {a }") (lit "b").
Proof. repeat split. discriminate. Qed.

Example update_content_replaces_all_copies :
  update_content (lit "docs {a} docs {a}") (lit "b")
  = lit "docs {a" ++ [nl; nl] ++ lit "b" ++ [nl] ++ lit "} docs {a"
    ++ [nl; nl] ++ lit "b" ++ [nl] ++ lit "}".
Proof. reflexivity. Qed.

Example update_content_trims_old_content :
  update_content (lit "docs {a  }") (lit "b")
  = lit "docs {a" ++ [nl; nl] ++ lit "b" ++ [nl] ++ lit "}".
Proof. reflexivity. Qed.

(** The insertion on the text that the program has read: when it has no
    docs block, the new block is put right behind the first meta block,
    after a blank line, and the text before and behind that point is kept
    as it is; without a meta block it is put, with a blank line behind it,
    in front of the text. *)
Theorem update_content_inserts_docs (content B : str) :
  ~ has_block docs_kw content ->
  (forall pre m post,
      first_block meta_kw pre m post content ->
      update_content content B
      = (pre ++ m) ++ [nl; nl] ++ docs_element B ++ post)
  /\ (~ has_block meta_kw content ->
      update_content content B = docs_element B ++ [nl; nl] ++ content).
Proof.
  intros Hdocs. apply search_none_iff in Hdocs.
  unfold update_content. rewrite Hdocs. split.
  - intros pre m post H. rewrite (search_first _ _ _ _ _ H).
    destruct H as [[-> _] _]. unfold m_end. cbn [m_start m_group].
    rewrite <- length_app.
    replace (pre ++ m ++ post) with ((pre ++ m) ++ post)
      by (symmetry; apply app_assoc).
    rewrite firstn_length_app, skipn_length_app. reflexivity.
  - intros Hmeta. apply search_none_iff in Hmeta. rewrite Hmeta. reflexivity.
Qed.

Lemma update_content_inserts_docs_witness :
  update_content (lit "x meta {a} get {u}") (lit "B")
  = (lit "x " ++ lit "meta {a}") ++ [nl; nl] ++ docs_element (lit "B")
    ++ lit " get {u}"
  /\ update_content (lit "get {u}") (lit "B")
     = docs_element (lit "B") ++ [nl; nl] ++ lit "get {u}".
Proof.
  split.
  - apply (@update_content_inserts_docs (lit "x meta {a} get {u}") (lit "B")).
    + apply search_none_iff. reflexivity.
    + apply search_some_iff; reflexivity.
  - apply (@update_content_inserts_docs (lit "get {u}") (lit "B")).
    + apply search_none_iff. reflexivity.
    + apply search_none_iff. reflexivity.
Defined.

(* ------------------------------------------------------------------ *)
(** ** Backup and working file names *)
(* ------------------------------------------------------------------ *)

Module NameFacts.

(** The output of [replace] starts with a text that avoids the first
    character of [new] only if the input does. *)
Lemma replace_keeps_head (old new' : str) (n0 : char) (t : str) :
  old <> [] ->
  forallb (fun x => negb (N.eqb x n0)) t = true ->
  forall s, startswith (replace s old (n0 :: new')) t = true ->
            startswith s t = true.
Proof.
  intros Hold. induction t as [|x t IH]; intros Ht s H; [reflexivity|].
  simpl in Ht. apply andb_true_iff in Ht as [Hx Ht].
  destruct s as [|c s].
  - rewrite replace_nil in H by exact Hold. discriminate.
  - destruct (startswith (c :: s) old) eqn:E.
    + apply startswith_iff in E as [r Hr]. rewrite Hr in H.
      rewrite replace_hit in H by exact Hold.
      simpl in H. apply andb_true_iff in H as [H _].
      apply N.eqb_eq in H. subst. rewrite N.eqb_refl in Hx. discriminate.
    + rewrite replace_miss in H by exact E.
      simpl in H. apply andb_true_iff in H as [H1 H2].
      simpl. rewrite H1. simpl. apply IH; assumption.
Qed.

(** After the replacement no occurrence of [old] is left, when the text put
    in cannot be part of one. *)
Lemma replace_removes_all (o : char) (t new' : str) (n0 : char) :
  forallb (fun x => negb (N.eqb x n0)) t = true ->
  (forall X, contains ((n0 :: new') ++ X) (o :: t) = contains X (o :: t)) ->
  forall s, contains (replace s (o :: t) (n0 :: new')) (o :: t) = false.
Proof.
  intros Ht Hnew s.
  remember (length s) as n eqn:Hn. revert s Hn.
  induction n as [n IH] using lt_wf_ind. intros s Hn.
  destruct s as [|c s].
  - reflexivity.
  - destruct (startswith (c :: s) (o :: t)) eqn:E.
    + apply startswith_iff in E as [r Hr]. rewrite Hr.
      rewrite replace_hit by discriminate. rewrite Hnew.
      apply (IH (length r)); [|reflexivity].
      rewrite Hn, Hr. simpl. rewrite length_app. lia.
    + rewrite replace_miss by exact E.
      cbn [contains]. apply orb_false_iff. split.
      * destruct (startswith (c :: replace s (o :: t) (n0 :: new')) (o :: t))
          eqn:E'; [|reflexivity].
        cbn [startswith] in E'. apply andb_true_iff in E' as [E1 E2].
        apply replace_keeps_head in E2; [|discriminate | exact Ht].
        cbn [startswith] in E. rewrite E1, E2 in E. discriminate.
      * apply (IH (length s)); [|reflexivity]. rewrite Hn. simpl. lia.
Qed.

Lemma backup_path_no_bru (p : str) :
  contains (backup_path p) (lit ".bru") = false.
Proof. apply replace_removes_all; [reflexivity | intros X; reflexivity]. Qed.

Lemma bru_file_of_no_bak (f : str) :
  contains (bru_file_of f) (lit ".bak") = false.
Proof. apply replace_removes_all; [reflexivity | intros X; reflexivity]. Qed.

Lemma contains_app_l (p old r : str) :
  contains p old = true -> contains (p ++ r) old = true.
Proof.
  intros H. apply contains_iff in H as [a [b ->]].
  apply contains_iff. exists a, (b ++ r).
  repeat rewrite <- app_assoc. reflexivity.
Qed.

End NameFacts.
Import NameFacts.

(** C10.  The backup path is the path of the collection file with every
    occurrence of [.bru] replaced by [.bak], from left to right, so that no
    [.bru] is left in it; when [.bru] occurs in the path before the
    extension, the backup path is therefore not the path with its extension
    swapped.  The revert engine derives the name of the working file from
    the name of the backup in the same way, with [.bak] replaced by
    [.bru] everywhere. *)
Theorem backup_path_replaces_every_occurrence :
  (backup_path [] = []
   /\ (forall r, backup_path (lit ".bru" ++ r) = lit ".bak" ++ backup_path r)
   /\ (forall c s, startswith (c :: s) (lit ".bru") = false ->
                   backup_path (c :: s) = c :: backup_path s)
   /\ (forall p, contains (backup_path p) (lit ".bru") = false)
   /\ (forall p, contains p (lit ".bru") = true ->
                 backup_path (p ++ lit ".bru") <> p ++ lit ".bak"))
  /\ (bru_file_of [] = []
      /\ (forall r, bru_file_of (lit ".bak" ++ r) = lit ".bru" ++ bru_file_of r)
      /\ (forall c s, startswith (c :: s) (lit ".bak") = false ->
                      bru_file_of (c :: s) = c :: bru_file_of s)
      /\ (forall f, contains (bru_file_of f) (lit ".bak") = false)
      /\ (forall f, contains f (lit ".bak") = true ->
                    bru_file_of (f ++ lit ".bak") <> f ++ lit ".bru")).
Proof.
  split; (split; [reflexivity|]); (split; [|split; [|split]]).
  - intros r. apply (@replace_hit (lit ".bru")). discriminate.
  - intros c s H. apply replace_miss, H.
  - apply backup_path_no_bru.
  - intros p Hp Heq.
    pose proof (backup_path_no_bru (p ++ lit ".bru")) as H.
    rewrite Heq, contains_app_l in H by exact Hp. discriminate.
  - intros r. apply (@replace_hit (lit ".bak")). discriminate.
  - intros c s H. apply replace_miss, H.
  - apply bru_file_of_no_bak.
  - intros f Hf Heq.
    pose proof (bru_file_of_no_bak (f ++ lit ".bak")) as H.
    rewrite Heq, contains_app_l in H by exact Hf. discriminate.
Qed.

Lemma backup_path_replaces_every_occurrence_witness :
  backup_path (lit "/ws/Users.bruno/Get.v2.bru" ++ lit ".bru")
  <> lit "/ws/Users.bruno/Get.v2.bru" ++ lit ".bak"
  /\ bru_file_of (lit "a.bak.v2" ++ lit ".bak") <> lit "a.bak.v2" ++ lit ".bru".
Proof.
  split.
  - apply (proj2 (proj2 (proj2 (proj2
             (proj1 backup_path_replaces_every_occurrence))))).
    reflexivity.
  - apply (proj2 (proj2 (proj2 (proj2
             (proj2 backup_path_replaces_every_occurrence))))).
    reflexivity.
Defined.

Example backup_path_in_directory_name :
  backup_path (lit "/ws/Users.bruno/Get User.bru")
  = lit "/ws/Users.bakno/Get User.bak".
Proof. reflexivity. Qed.

Example backup_path_mid_filename :
  backup_path (lit "/ws/Users/Get.brunch.bru") = lit "/ws/Users/Get.baknch.bak".
Proof. reflexivity. Qed.

Example bru_file_of_mid_filename :
  bru_file_of (lit "Get.bakery.bak") = lit "Get.bruery.bru".
Proof. reflexivity. Qed.

(* ------------------------------------------------------------------ *)
(** ** The workspace: files written by name *)
(* ------------------------------------------------------------------ *)

Module WorkspaceFacts.

Lemma endswith_iff (s p : str) :
  endswith s p = true <-> exists a, s = a ++ p.
Proof.
  unfold endswith. rewrite startswith_iff. split.
  - intros [r H]. exists (rev r).
    rewrite <- (rev_involutive s), H, rev_app_distr, rev_involutive.
    reflexivity.
  - intros [a ->]. exists (rev a). apply rev_app_distr.
Qed.

Lemma endswith_contains (s p : str) :
  endswith s p = true -> contains s p = true.
Proof.
  intros H. apply endswith_iff in H as [a ->].
  apply contains_iff. exists a, []. rewrite app_nil_r. reflexivity.
Qed.

(** The working name derived from a backup is never itself a backup name. *)
Lemma bru_file_of_not_bak (bak_file name : str) :
  endswith name (lit ".bak") = true -> str_eqb (bru_file_of bak_file) name = false.
Proof.
  intros H. destruct (str_eqb (bru_file_of bak_file) name) eqn:E; [|reflexivity].
  apply str_eqb_eq in E. apply endswith_contains in H.
  rewrite <- E, bru_file_of_no_bak in H. discriminate.
Qed.

Section Assoc.
Context {A : Type}.
Implicit Types l : list (str * A).

Lemma has_name_in name l :
  has_name name l = true <-> In name (map fst l).
Proof.
  unfold has_name. rewrite existsb_exists, in_map_iff. split.
  - intros [e [He H]]. apply str_eqb_eq in H. eauto.
  - intros [e [He H]]. exists e. split; [exact H|]. apply str_eqb_eq, He.
Qed.

Lemma has_name_names name l l' :
  map fst l = map fst l' -> has_name name l = has_name name l'.
Proof.
  intros H. apply eq_true_iff_eq. rewrite !has_name_in, H. reflexivity.
Qed.

Lemma lookup_none name l : lookup name l = None <-> has_name name l = false.
Proof.
  induction l as [|[k x] l IH]; simpl; [tauto|].
  destruct (str_eqb k name); simpl; [|exact IH]. split; discriminate.
Qed.

Lemma lookup_some_has_name name l x :
  lookup name l = Some x -> has_name name l = true.
Proof.
  intros H. destruct (has_name name l) eqn:E; [reflexivity|].
  apply lookup_none in E. congruence.
Qed.

Lemma lookup_app name l l' :
  lookup name (l ++ l')
  = match lookup name l with Some x => Some x | None => lookup name l' end.
Proof.
  induction l as [|[k x] l IH]; simpl; [reflexivity|].
  destruct (str_eqb k name); [reflexivity | exact IH].
Qed.

End Assoc.

(** *** Overriding the content of named files in place *)

Lemma map_ovr_names f files : map fst (map (ovr f) files) = map fst files.
Proof.
  rewrite map_map. apply map_ext. intros e. unfold ovr.
  destruct (f (fst e)); reflexivity.
Qed.

Lemma ovr_idem f e : ovr f (ovr f e) = ovr f e.
Proof.
  unfold ovr. destruct (f (fst e)) eqn:E; simpl; rewrite E; reflexivity.
Qed.

Lemma write_file_in_place name data files :
  has_name name files = true ->
  write_file name data files
  = map (ovr (fun k => if str_eqb k name then Some data else None)) files.
Proof.
  intros H. unfold write_file. rewrite H. apply map_ext. intros [k x].
  unfold ovr. simpl. destruct (str_eqb k name) eqn:E; [|reflexivity].
  apply str_eqb_eq in E. subst. reflexivity.
Qed.

Lemma write_file_names_in_place name data files :
  has_name name files = true ->
  map fst (write_file name data files) = map fst files.
Proof.
  intros H. rewrite write_file_in_place by exact H. apply map_ovr_names.
Qed.

Lemma final_cons w ws name :
  final (w :: ws) name
  = match final ws name with
    | Some v => Some v
    | None => if str_eqb (fst w) name then Some (snd w) else None
    end.
Proof.
  unfold final. simpl. rewrite lookup_app. destruct w as [k v]. simpl.
  destruct (str_eqb k name); reflexivity.
Qed.

Lemma final_snoc ws w name :
  final (ws ++ [w]) name
  = if str_eqb (fst w) name then Some (snd w) else final ws name.
Proof.
  unfold final. rewrite rev_app_distr. destruct w as [k v]. reflexivity.
Qed.

Lemma final_none ws name :
  final ws name = None <-> ~ In name (map fst ws).
Proof.
  unfold final. rewrite lookup_none.
  rewrite <- not_true_iff_false, has_name_in, map_rev, <- in_rev. tauto.
Qed.

Lemma str_eqb_sym a b : str_eqb a b = str_eqb b a.
Proof.
  apply eq_true_iff_eq. rewrite !str_eqb_eq. split; congruence.
Qed.

(** Writes to names that all exist are one override of the listing. *)
Lemma write_all_in_place ws files :
  (forall name, In name (map fst ws) -> has_name name files = true) ->
  write_all ws files = map (ovr (final ws)) files.
Proof.
  revert files. induction ws as [|[n v] ws IH]; intros files H.
  - simpl. symmetry. rewrite <- (map_id files) at 2. apply map_ext.
    intros e. reflexivity.
  - unfold write_all in *. simpl fold_left.
    rewrite write_file_in_place by (apply H; simpl; auto).
    rewrite IH.
    + rewrite map_map. apply map_ext. intros [k x].
      unfold ovr. cbn [fst snd].
      rewrite final_cons. cbn [fst snd].
      rewrite (str_eqb_sym n k).
      destruct (str_eqb k n) eqn:E; cbn [fst snd];
        destruct (final ws k); reflexivity.
    + intros name Hn. erewrite has_name_names by apply map_ovr_names.
      apply H. simpl. auto.
Qed.

Lemma write_all_app ws ws' files :
  write_all (ws ++ ws') files = write_all ws' (write_all ws files).
Proof. unfold write_all. apply fold_left_app. Qed.

(** Writes in place, done twice, are the writes done once. *)
Lemma write_all_in_place_twice ws files :
  (forall name, In name (map fst ws) -> has_name name files = true) ->
  write_all ws (write_all ws files) = write_all ws files.
Proof.
  intros H. rewrite (write_all_in_place ws files H).
  rewrite write_all_in_place.
  - rewrite map_map. apply map_ext. intros e. apply ovr_idem.
  - intros name Hn. erewrite has_name_names by apply map_ovr_names. auto.
Qed.

(** *** A listing in which the writes [ws] have been done *)

Lemma has_name_write_file name data files k :
  has_name k (write_file name data files)
  = has_name k files || str_eqb name k.
Proof.
  unfold write_file. destruct (has_name name files) eqn:E.
  - rewrite (@has_name_names _ k _ files).
    + destruct (str_eqb name k) eqn:E'; [|rewrite orb_false_r; reflexivity].
      apply str_eqb_eq in E'. subst. rewrite E. reflexivity.
    + rewrite <- (map_ovr_names
                    (fun k => if str_eqb k name then Some data else None) files).
      f_equal. apply map_ext. intros [k' x]. unfold ovr. simpl.
      destruct (str_eqb k' name) eqn:E'; [|reflexivity].
      apply str_eqb_eq in E'. subst. reflexivity.
  - unfold has_name. rewrite existsb_app. simpl. rewrite orb_false_r.
    reflexivity.
Qed.

Lemma in_write_file name data files k x :
  In (k, x) (write_file name data files) ->
  (str_eqb k name = true /\ x = data)
  \/ (str_eqb k name = false /\ In (k, x) files).
Proof.
  unfold write_file. destruct (has_name name files) eqn:E.
  - rewrite in_map_iff. intros [[k' x'] [He Hin]]. simpl in He.
    destruct (str_eqb k' name) eqn:E'.
    + injection He as <- <-. left. split; [apply str_eqb_refl | reflexivity].
    + injection He as <- <-. right. auto.
  - rewrite in_app_iff. intros [Hin | [He | []]].
    + right. split; [|exact Hin].
      destruct (str_eqb k name) eqn:E'; [|reflexivity].
      apply str_eqb_eq in E'. subst.
      assert (has_name name files = true) as Hh
          by (apply has_name_in, in_map_iff; exists (name, x); auto).
      congruence.
    + injection He as <- <-. left. split; [apply str_eqb_refl | reflexivity].
Qed.

Lemma settled_write_all ws files : settled ws (write_all ws files).
Proof.
  induction ws as [|[n d] ws IH] using rev_ind; intros name v Hf.
  - discriminate.
  - rewrite write_all_app. simpl. rewrite final_snoc in Hf. simpl in Hf.
    change (write_all [(n, d)] (write_all ws files))
      with (write_file n d (write_all ws files)).
    rewrite has_name_write_file.
    destruct (str_eqb n name) eqn:E.
    + injection Hf as <-. split; [apply orb_true_r|].
      intros k x Hin Hk. apply in_write_file in Hin as [[_ ->] | [Hk' _]].
      * reflexivity.
      * apply str_eqb_eq in E. subst. congruence.
    + destruct (IH name v Hf) as [Hh Hv]. split; [rewrite Hh; reflexivity|].
      intros k x Hin Hk. apply in_write_file in Hin as [[Hk' _] | [_ Hin]].
      * apply str_eqb_eq in Hk, Hk'. subst.
        rewrite str_eqb_refl in E. discriminate.
      * eauto.
Qed.

Lemma settled_fixed ws files : settled ws files -> write_all ws files = files.
Proof.
  intros H. rewrite write_all_in_place.
  - rewrite <- (map_id files) at 2. apply map_ext_in. intros [k x] Hin.
    unfold ovr. simpl. destruct (final ws k) as [v|] eqn:E; [|reflexivity].
    destruct (H k v E) as [_ Hv]. f_equal. symmetry.
    apply (Hv k x Hin). apply str_eqb_refl.
  - intros name Hn. destruct (final ws name) as [v|] eqn:E.
    + apply (H name v E).
    + apply final_none in E. tauto.
Qed.

(** An override that leaves the names of [ws] alone keeps it settled. *)
Lemma settled_ovr ws f files :
  (forall name, In name (map fst ws) -> f name = None) ->
  settled ws files -> settled ws (map (ovr f) files).
Proof.
  intros Hf H name v Hfin. destruct (H name v Hfin) as [Hh Hv]. split.
  - erewrite has_name_names by apply map_ovr_names. exact Hh.
  - intros k x Hin Hk. apply in_map_iff in Hin as [[k' x'] [He Hin]].
    apply str_eqb_eq in Hk. subst.
    assert (f k' = None) as Hnone.
    { unfold ovr in He. simpl in He.
      assert (k' = name) as ->.
      { destruct (f k'); injection He; auto. }
      apply Hf. destruct (in_dec (list_eq_dec N.eq_dec) name (map fst ws))
        as [Hi|Hi]; [exact Hi|].
      apply final_none in Hi. congruence. }
    unfold ovr in He. simpl in He. rewrite Hnone in He.
    injection He as -> ->. apply (Hv name x Hin). apply str_eqb_refl.
Qed.

End WorkspaceFacts.
Import WorkspaceFacts.

(* ------------------------------------------------------------------ *)
(** ** The revert engine *)
(* ------------------------------------------------------------------ *)

Module RevertFacts.

(** Induction on a directory with the property at hand for its
    subdirectories. *)
Lemma dir_induction (P : dir -> Prop) :
  (forall files subdirs,
      Forall (fun e => P (snd e)) subdirs -> P (Dir files subdirs)) ->
  forall d, P d.
Proof.
  intros H. fix IH 1. intros [files subdirs]. apply H.
  induction subdirs as [|[name sub] l IHl]; constructor.
  - apply IH.
  - exact IHl.
Qed.

Lemma sub_names_has_name name subdirs subdirs' :
  sub_names subdirs = sub_names subdirs' ->
  has_name name subdirs = has_name name subdirs'.
Proof.
  intros H. apply has_name_names.
  apply (f_equal (map fst)) in H. unfold sub_names in H.
  rewrite !map_map in H. exact H.
Qed.

Lemma sub_names_lookup name subdirs :
  lookup name (sub_names subdirs)
  = option_map (fun d => map fst (subdirs_of d)) (lookup name subdirs).
Proof.
  induction subdirs as [|[k d] l IH]; simpl; [reflexivity|].
  destruct (str_eqb k name); [reflexivity | exact IH].
Qed.

Lemma bak_files_of_ends_bak files : Forall ends_bak (bak_files_of files).
Proof.
  apply Forall_forall. intros b Hb. apply filter_In in Hb. apply Hb.
Qed.

Lemma bak_files_of_names files files' :
  map fst files = map fst files' -> bak_files_of files = bak_files_of files'.
Proof. unfold bak_files_of. intros ->. reflexivity. Qed.

Lemma lookup_write_file_other name data files k :
  str_eqb name k = false ->
  lookup k (write_file name data files) = lookup k files.
Proof.
  intros H. unfold write_file. destruct (has_name name files).
  - induction files as [|[k' x] l IH]; simpl; [reflexivity|].
    destruct (str_eqb k' name) eqn:E; simpl.
    + rewrite H. apply str_eqb_eq in E. subst. rewrite H. exact IH.
    + rewrite IH. reflexivity.
  - rewrite lookup_app. simpl. rewrite H.
    destruct (lookup k files); reflexivity.
Qed.

Lemma flat_map_ext_in {A B : Type} (f g : A -> list B) (l : list A) :
  (forall x, In x l -> f x = g x) -> flat_map f l = flat_map g l.
Proof.
  induction l as [|x l IH]; intros H; [reflexivity|].
  simpl. rewrite (H x (or_introl eq_refl)), IH; [reflexivity|].
  intros y Hy. apply H. right. exact Hy.
Qed.

Section Loop.

Variable copy_raises : path -> path -> bool.
Variable root : path.

Lemma plan_ext subdirs subdirs' files files' b :
  sub_names subdirs = sub_names subdirs' ->
  map fst files = map fst files' ->
  lookup b files = lookup b files' ->
  plan_local copy_raises root subdirs files b
  = plan_local copy_raises root subdirs' files' b
  /\ plan_sent copy_raises root subdirs files b
     = plan_sent copy_raises root subdirs' files' b.
Proof.
  intros Hs Hn Hb. unfold plan_local, plan_sent.
  rewrite (has_name_names _ _ _ Hn), (sub_names_has_name _ _ _ Hs), Hb.
  pose proof (sub_names_lookup (bru_file_of b) subdirs) as H1.
  pose proof (sub_names_lookup (bru_file_of b) subdirs') as H2.
  rewrite Hs in H1. rewrite H1 in H2. clear H1.
  destruct (lookup (bru_file_of b) subdirs) as [d|],
           (lookup (bru_file_of b) subdirs') as [d'|]; try discriminate.
  - simpl in H2. injection H2 as H2.
    rewrite (has_name_names b _ _ H2). auto.
  - auto.
Qed.

Lemma plan_local_in_place subdirs files b name :
  In name (map fst (plan_local copy_raises root subdirs files b)) ->
  has_name name files = true /\ name = bru_file_of b.
Proof.
  unfold plan_local.
  destruct (has_name (bru_file_of b) files) eqn:E1;
    destruct (has_name (bru_file_of b) subdirs) eqn:E2; simpl;
    try tauto;
    destruct (lookup b files); try (simpl; tauto);
    destruct (copy_raises _ _); try (simpl; tauto);
    destruct (lookup (bru_file_of b) subdirs) eqn:E3; try (simpl; tauto);
    simpl; intros [<- | []]; auto.
  apply lookup_none in E3. congruence.
Qed.

Lemma revert_file_plan subdirs files st b :
  loop_inv files st -> ends_bak b ->
  let st' := revert_file copy_raises root subdirs st b in
  loop_inv files st'
  /\ l_files st'
     = write_all (plan_local copy_raises root subdirs files b) (l_files st)
  /\ l_sent st' = l_sent st ++ plan_sent copy_raises root subdirs files b.
Proof.
  intros [Hn Hb] Hbak. unfold revert_file, copy2, plan_local, plan_sent.
  rewrite (has_name_names _ _ _ Hn), (Hb b Hbak).
  assert (forall v, has_name (bru_file_of b) files = true ->
            loop_inv files
              (mk_loop (write_file (bru_file_of b) v (l_files st)) (l_sent st)
                 (l_count st + 1)
                 (l_out st ++ [Reverted (root ++ [bru_file_of b])]))) as Hwrite.
  { intros v E1. split; cbn [l_files].
    - rewrite write_file_names_in_place; [exact Hn|].
      rewrite (has_name_names _ _ _ Hn). exact E1.
    - intros b' Hb'. rewrite lookup_write_file_other; [auto|].
      apply bru_file_of_not_bak, Hb'. }
  destruct (has_name (bru_file_of b) files) eqn:E1;
    destruct (has_name (bru_file_of b) subdirs) eqn:E2; cbn [orb];
    try (destruct (lookup b files) as [v|]);
    try (destruct (copy_raises _ _));
    try (destruct (lookup (bru_file_of b) subdirs) as [d|] eqn:E3);
    try (destruct (has_name b (subdirs_of d)));
    try (apply lookup_none in E3; congruence);
    unfold write_all; cbn [l_files l_sent l_count l_out fold_left fst snd];
    rewrite ?app_nil_r;
    (split; [|split; reflexivity]);
    try (split; assumption);
    apply Hwrite; reflexivity.
Qed.

Lemma loop_plan subdirs files baks st :
  loop_inv files st -> Forall ends_bak baks ->
  let st' := fold_left (revert_file copy_raises root subdirs) baks st in
  loop_inv files st'
  /\ l_files st'
     = write_all (flat_map (plan_local copy_raises root subdirs files) baks)
         (l_files st)
  /\ l_sent st'
     = l_sent st ++ flat_map (plan_sent copy_raises root subdirs files) baks.
Proof.
  revert st. induction baks as [|b baks IH]; intros st Hinv Hbaks.
  - simpl. rewrite app_nil_r. auto.
  - inversion Hbaks as [|? ? Hb Hrest]; subst.
    destruct (revert_file_plan subdirs files st b Hinv Hb) as [Hinv' [Hf Hs]].
    destruct (IH _ Hinv' Hrest) as [Hinv'' [Hf' Hs']].
    cbn [fold_left flat_map]. split; [exact Hinv''|]. split.
    + rewrite Hf', Hf, write_all_app. reflexivity.
    + rewrite Hs', Hs, <- app_assoc. reflexivity.
Qed.

Lemma loop_inv_start files : loop_inv files (mk_loop files [] 0 []).
Proof. split; reflexivity. Qed.

Lemma plan_names subdirs files baks name :
  In name (map fst (flat_map (plan_local copy_raises root subdirs files) baks)) ->
  has_name name files = true /\ exists b, name = bru_file_of b.
Proof.
  induction baks as [|b baks IH]; simpl; [tauto|].
  rewrite map_app, in_app_iff. intros [H | H]; [|auto].
  apply plan_local_in_place in H as [H ->]. eauto.
Qed.

Lemma plan_sent_ends_bak subdirs files baks :
  Forall ends_bak baks ->
  Forall (fun e => ends_bak (fst (snd e)))
    (flat_map (plan_sent copy_raises root subdirs files) baks).
Proof.
  induction 1 as [|b baks Hb _ IH]; simpl; [constructor|].
  apply Forall_app. split; [|exact IH]. unfold plan_sent.
  destruct (_ || _); [|constructor].
  destruct (lookup b files); [|constructor].
  destruct (copy_raises _ _); [constructor|].
  destruct (lookup (bru_file_of b) subdirs) as [d|]; [|constructor].
  destruct (has_name b (subdirs_of d)); constructor; [exact Hb | constructor].
Qed.

(** The listing after the loop is an override of the listing before it
    that leaves the backups alone. *)
Lemma loop_files subdirs files :
  let st := fold_left (revert_file copy_raises root subdirs)
              (bak_files_of files) (mk_loop files [] 0 []) in
  exists f,
    l_files st = map (ovr f) files
    /\ forall name, ends_bak name -> f name = None.
Proof.
  destruct (loop_plan subdirs files (bak_files_of files) _
              (loop_inv_start files) (bak_files_of_ends_bak files))
    as [_ [Hf _]].
  cbn [l_files] in Hf. cbv zeta.
  exists (final (flat_map (plan_local copy_raises root subdirs files)
                   (bak_files_of files))).
  split.
  - rewrite Hf. apply write_all_in_place.
    intros name Hn. apply plan_names in Hn. apply Hn.
  - intros name Hname. apply final_none. intros Hin.
    apply plan_names in Hin as [_ [b ->]].
    pose proof (bru_file_of_not_bak b _ Hname) as E.
    rewrite str_eqb_refl in E. discriminate.
Qed.

(** Running the loop of a directory again, on the listing it has left and
    with subdirectories of the same names, changes nothing and sends the
    same files down. *)
Lemma loop_twice subdirs subdirs' files :
  sub_names subdirs' = sub_names subdirs ->
  let st := fold_left (revert_file copy_raises root subdirs)
              (bak_files_of files) (mk_loop files [] 0 []) in
  let st' := fold_left (revert_file copy_raises root subdirs')
               (bak_files_of (l_files st)) (mk_loop (l_files st) [] 0 []) in
  l_files st' = l_files st /\ l_sent st' = l_sent st.
Proof.
  intros Hsub st st'.
  destruct (loop_plan subdirs files (bak_files_of files) _
              (loop_inv_start files) (bak_files_of_ends_bak files))
    as [[Hn Hb] [Hf Hs]].
  fold st in Hn, Hb, Hf, Hs. cbn [l_files l_sent app] in Hf, Hs.
  destruct (loop_plan subdirs' (l_files st) (bak_files_of (l_files st)) _
              (loop_inv_start (l_files st))
              (bak_files_of_ends_bak (l_files st)))
    as [_ [Hf' Hs']].
  fold st' in Hf', Hs'. cbn [l_files l_sent app] in Hf', Hs'.
  rewrite (bak_files_of_names _ _ Hn) in Hf', Hs'.
  assert (forall b, In b (bak_files_of files) ->
            plan_local copy_raises root subdirs' (l_files st) b
            = plan_local copy_raises root subdirs files b
            /\ plan_sent copy_raises root subdirs' (l_files st) b
               = plan_sent copy_raises root subdirs files b)
    as Hplan.
  { intros b Hin. apply plan_ext; [exact Hsub | exact Hn |].
    apply Hb. pose proof (bak_files_of_ends_bak files) as Hall.
    rewrite Forall_forall in Hall. apply Hall, Hin. }
  assert (flat_map (plan_local copy_raises root subdirs' (l_files st))
            (bak_files_of files)
          = flat_map (plan_local copy_raises root subdirs files)
              (bak_files_of files)) as EW.
  { apply flat_map_ext_in. intros b Hin. apply Hplan, Hin. }
  assert (flat_map (plan_sent copy_raises root subdirs' (l_files st))
            (bak_files_of files)
          = flat_map (plan_sent copy_raises root subdirs files)
              (bak_files_of files)) as ES.
  { apply flat_map_ext_in. intros b Hin. apply Hplan, Hin. }
  split.
  - rewrite Hf', EW, Hf. apply write_all_in_place_twice.
    intros name Hin. apply plan_names in Hin. apply Hin.
  - rewrite Hs', ES, Hs. reflexivity.
Qed.

End Loop.

(** *** The walk *)

Section Walk.

Variable copy_raises : path -> path -> bool.

Lemma walk_each_cons f name sub l :
  walk_each f ((name, sub) :: l)
  = ((name, fst (fst (f name sub))) :: fst (fst (walk_each f l)),
     snd (fst (f name sub)) + snd (fst (walk_each f l)),
     snd (f name sub) ++ snd (walk_each f l)).
Proof.
  simpl. destruct (f name sub) as [[sub' c1] o1].
  destruct (walk_each f l) as [[l' c2] o2]. reflexivity.
Qed.

Lemma walk_dir root received files subdirs :
  let files0 := write_all received files in
  let st := fold_left (revert_file copy_raises root subdirs)
              (bak_files_of files0) (mk_loop files0 [] 0 []) in
  let r := walk_each
             (fun name sub =>
                walk copy_raises (root ++ [name]) (sent_to name (l_sent st)) sub)
             subdirs in
  walk copy_raises root received (Dir files subdirs)
  = (Dir (l_files st) (fst (fst r)), l_count st + snd (fst r),
     l_out st ++ snd r).
Proof.
  cbv zeta. cbn [walk].
  destruct (walk_each _ subdirs) as [[l' c] o]. reflexivity.
Qed.

Lemma walk_each_sub_names f l :
  (forall name sub,
      map fst (subdirs_of (fst (fst (f name sub)))) = map fst (subdirs_of sub)) ->
  sub_names (fst (fst (walk_each f l))) = sub_names l.
Proof.
  intros H. induction l as [|[name sub] l IH]; [reflexivity|].
  rewrite walk_each_cons. cbn [fst snd sub_names map].
  rewrite H. f_equal. exact IH.
Qed.

Lemma walk_each_names f l : map fst (fst (fst (walk_each f l))) = map fst l.
Proof.
  induction l as [|[name sub] l IH]; [reflexivity|].
  rewrite walk_each_cons. cbn [fst snd map]. f_equal. exact IH.
Qed.

(** The walk keeps the names of the subdirectories. *)
Lemma walk_subdir_names root received d :
  map fst (subdirs_of (fst (fst (walk copy_raises root received d))))
  = map fst (subdirs_of d).
Proof.
  destruct d as [files subdirs]. rewrite walk_dir. cbn [fst snd subdirs_of].
  apply walk_each_names.
Qed.

Lemma sent_to_ok name sent :
  Forall (fun e => ends_bak (fst (snd e))) sent -> received_ok (sent_to name sent).
Proof.
  intros H. unfold received_ok, sent_to. rewrite Forall_forall in *.
  intros e He. apply in_map_iff in He as [e' [<- He']].
  apply filter_In in He' as [He' _]. apply (H e' He').
Qed.

Lemma loop_sent_ok root subdirs files :
  Forall (fun e => ends_bak (fst (snd e)))
    (l_sent (fold_left (revert_file copy_raises root subdirs)
               (bak_files_of files) (mk_loop files [] 0 []))).
Proof.
  destruct (loop_plan copy_raises root subdirs files (bak_files_of files) _
              (loop_inv_start files) (bak_files_of_ends_bak files))
    as [_ [_ Hs]].
  rewrite Hs. cbn [l_sent app].
  apply plan_sent_ends_bak, bak_files_of_ends_bak.
Qed.

Lemma walk_each_twice root sent l :
  Forall
    (fun e =>
       forall root received,
         received_ok received ->
         fst (fst (walk copy_raises root received
                     (fst (fst (walk copy_raises root received (snd e))))))
         = fst (fst (walk copy_raises root received (snd e)))) l ->
  (forall name, received_ok (sent_to name sent)) ->
  let f := fun name sub =>
             walk copy_raises (root ++ [name]) (sent_to name sent) sub in
  fst (fst (walk_each f (fst (fst (walk_each f l)))))
  = fst (fst (walk_each f l)).
Proof.
  intros IH Hok f.
  induction l as [|[name sub] l IHl]; [reflexivity|].
  inversion IH as [|? ? Hsub Hl]; subst.
  rewrite walk_each_cons. cbn [fst snd].
  rewrite walk_each_cons. cbn [fst snd].
  f_equal.
  - f_equal. apply Hsub, Hok.
  - apply IHl, Hl.
Qed.

(** A second walk over what the first walk has left changes nothing. *)
Lemma walk_twice d :
  forall root received,
    received_ok received ->
    fst (fst (walk copy_raises root received
                (fst (fst (walk copy_raises root received d)))))
    = fst (fst (walk copy_raises root received d)).
Proof.
  induction d as [files subdirs IH] using dir_induction.
  intros root received Hrec.
  rewrite (walk_dir root received files subdirs). cbv zeta. cbn [fst].
  set (files0 := write_all received files).
  set (st := fold_left (revert_file copy_raises root subdirs)
               (bak_files_of files0) (mk_loop files0 [] 0 [])).
  set (f := fun name sub =>
              walk copy_raises (root ++ [name]) (sent_to name (l_sent st)) sub).
  rewrite walk_dir. cbv zeta. cbn [fst].
  destruct (loop_files copy_raises root subdirs files0) as [g [Hg Hbak]].
  fold st in Hg.
  assert (write_all received (l_files st) = l_files st) as Hfix.
  { apply settled_fixed. rewrite Hg. apply settled_ovr.
    - intros name Hin. apply Hbak. unfold received_ok in Hrec.
      rewrite Forall_forall in Hrec.
      apply in_map_iff in Hin as [e [<- He]]. apply (Hrec e He).
    - apply settled_write_all. }
  rewrite Hfix.
  assert (sub_names (fst (fst (walk_each f subdirs))) = sub_names subdirs)
    as Hsub.
  { apply walk_each_sub_names. intros name sub. apply walk_subdir_names. }
  destruct (loop_twice copy_raises root subdirs _ files0 Hsub) as [Hf Hs].
  fold st in Hf, Hs. rewrite Hf, Hs. fold f. f_equal.
  apply (walk_each_twice root (l_sent st) subdirs IH).
  intros name. apply sent_to_ok. apply loop_sent_ok.
Qed.

End Walk.

End RevertFacts.
Import RevertFacts.

(** C6.  Revert is idempotent: running it on the workspace that a first
    run has left gives that workspace again, every file with the content
    the first run gave it.  The backups are the same in both runs, and a
    copy that the operating system refuses is refused in both. *)
Theorem revert_bruno_files_idempotent
  (copy_raises : path -> path -> bool) (bruno_dir : option dir) :
  let once := fst (fst (revert_bruno_files copy_raises bruno_dir)) in
  fst (fst (revert_bruno_files copy_raises once)) = once.
Proof.
  destruct bruno_dir as [d|]; [|reflexivity].
  cbv zeta. unfold revert_bruno_files.
  destruct (walk copy_raises [] [] d) as [[d1 c1] o1] eqn:E1. cbn [fst].
  destruct (walk copy_raises [] [] d1) as [[d2 c2] o2] eqn:E2. cbn [fst].
  f_equal.
  pose proof (walk_twice copy_raises d [] [] (Forall_nil _)) as H.
  rewrite E1 in H. cbn [fst] in H. rewrite E2 in H. exact H.
Qed.

(* ------------------------------------------------------------------ *)
(** ** The count that the revert engine returns *)
(* ------------------------------------------------------------------ *)

Module CountFacts.

Lemma count_reverted_app out out' :
  count_reverted (out ++ out') = count_reverted out + count_reverted out'.
Proof. unfold count_reverted. rewrite filter_app, length_app. reflexivity. Qed.

Section Count.

Variable copy_raises : path -> path -> bool.

Lemma revert_file_count root subdirs st b :
  l_count st = count_reverted (l_out st) ->
  let st' := revert_file copy_raises root subdirs st b in
  l_count st' = count_reverted (l_out st').
Proof.
  intros H. unfold revert_file.
  destruct (_ || _); [destruct (copy2 _ _ _ _ _ _ _) as [[files' sent']|]|];
    cbn [l_count l_out]; rewrite count_reverted_app, H; cbn; lia.
Qed.

Lemma loop_count root subdirs baks st :
  l_count st = count_reverted (l_out st) ->
  let st' := fold_left (revert_file copy_raises root subdirs) baks st in
  l_count st' = count_reverted (l_out st').
Proof.
  revert st. induction baks as [|b baks IH]; intros st H; [exact H|].
  apply IH, revert_file_count, H.
Qed.

Lemma walk_count d :
  forall root received,
    snd (fst (walk copy_raises root received d))
    = count_reverted (snd (walk copy_raises root received d)).
Proof.
  induction d as [files subdirs IH] using dir_induction.
  intros root received. rewrite walk_dir. cbv zeta. cbn [fst snd].
  rewrite count_reverted_app. f_equal.
  - apply loop_count. reflexivity.
  - generalize (l_sent
                  (fold_left (revert_file copy_raises root subdirs)
                     (bak_files_of (write_all received files))
                     (mk_loop (write_all received files) [] 0 []))).
    intros sent.
    induction subdirs as [|[name sub] l IHl]; [reflexivity|].
    inversion IH as [|? ? Hsub Hl]; subst.
    rewrite walk_each_cons. cbn [fst snd].
    rewrite count_reverted_app, (IHl Hl). f_equal. apply Hsub.
Qed.

(** Without a backup anywhere the walk is over at once. *)
Lemma walk_no_backups d :
  forall root,
    has_backups d = false -> walk copy_raises root [] d = (d, 0, []).
Proof.
  induction d as [files subdirs IH] using dir_induction.
  intros root H. rewrite walk_dir. cbv zeta. cbn [write_all fold_left].
  cbn [has_backups] in H.
  destruct (bak_files_of files); [|discriminate].
  cbn [fold_left l_files l_sent l_count l_out sent_to filter map app Nat.add].
  assert (walk_each (fun name sub => walk copy_raises (root ++ [name]) [] sub)
            subdirs = (subdirs, 0, [])) as ->; [|reflexivity].
  induction subdirs as [|[name sub] l IHl]; [reflexivity|].
  inversion IH as [|? ? Hsub Hl]; subst.
  cbn [existsb snd] in H. apply orb_false_iff in H as [H1 H2].
  rewrite walk_each_cons, (IHl Hl H2). cbn [snd] in Hsub.
  rewrite (Hsub _ H1). reflexivity.
Qed.

End Count.

End CountFacts.
Import CountFacts.

(** The count and the steps of the loop.  For a workspace directory that
    exists, the count that revert returns is the number of files copied
    from their backup, each reported by a line of its own.  A backup
    without a working file of the derived name gives a warning, a copy that fails gives an error line, and in
    both cases the count and the files stay as they are.  A workspace with
    no backup at all gives the count 0 and no output, and the command
    ends with status 0 for every workspace directory. *)
Theorem revert_counts_copied_files (copy_raises : path -> path -> bool) :
  (forall d,
      snd (fst (revert_bruno_files copy_raises (Some d)))
      = count_reverted (snd (revert_bruno_files copy_raises (Some d))))
  /\ (forall root subdirs st bak_file,
         has_name (bru_file_of bak_file) (l_files st) = false ->
         has_name (bru_file_of bak_file) subdirs = false ->
         revert_file copy_raises root subdirs st bak_file
         = mk_loop (l_files st) (l_sent st) (l_count st)
             (l_out st ++ [OriginalNotFound (root ++ [bru_file_of bak_file])
                             (root ++ [bak_file])]))
  /\ (forall root subdirs st bak_file,
         has_name (bru_file_of bak_file) (l_files st)
         || has_name (bru_file_of bak_file) subdirs = true ->
         copy_raises (root ++ [bak_file]) (root ++ [bru_file_of bak_file]) = true ->
         revert_file copy_raises root subdirs st bak_file
         = mk_loop (l_files st) (l_sent st) (l_count st)
             (l_out st ++ [ErrorReverting (root ++ [bru_file_of bak_file])]))
  /\ (forall root subdirs st bak_file data,
         has_name (bru_file_of bak_file) (l_files st) = true ->
         has_name (bru_file_of bak_file) subdirs = false ->
         lookup bak_file (l_files st) = Some data ->
         copy_raises (root ++ [bak_file]) (root ++ [bru_file_of bak_file]) = false ->
         revert_file copy_raises root subdirs st bak_file
         = mk_loop (write_file (bru_file_of bak_file) data (l_files st))
             (l_sent st) (l_count st + 1)
             (l_out st ++ [Reverted (root ++ [bru_file_of bak_file])]))
  /\ (forall d,
         has_backups d = false ->
         revert_bruno_files copy_raises (Some d) = (Some d, 0, [])
         /\ main_revert copy_raises (Some d) = (Some d, [NothingReverted], 0))
  /\ (forall d, snd (main_revert copy_raises (Some d)) = 0).
Proof.
  repeat apply conj.
  - intros d. unfold revert_bruno_files.
    pose proof (walk_count copy_raises d [] []) as H.
    destruct (walk copy_raises [] [] d) as [[d' c] o]. exact H.
  - intros root subdirs st b H1 H2. unfold revert_file.
    rewrite H1, H2. reflexivity.
  - intros root subdirs st b H1 H2. unfold revert_file, copy2.
    rewrite H1, H2. destruct (lookup b (l_files st)); reflexivity.
  - intros root subdirs st b data H1 H2 H3 H4. unfold revert_file, copy2.
    rewrite H1, H3, H4. apply lookup_none in H2. rewrite H2. reflexivity.
  - intros d H. unfold main_revert, revert_bruno_files.
    rewrite (walk_no_backups copy_raises d [] H). split; reflexivity.
  - intros d. unfold main_revert.
    destruct (revert_bruno_files copy_raises (Some d)) as [[ws c] o].
    destruct (0 <? c); reflexivity.
Qed.

Example revert_workspace_a :
  revert_bruno_files
    (fun _ dst => str_eqb (last dst []) (lit "c.bru")) (Some workspace_a)
  = (Some (Dir [(lit "a.bak", [Byte.x01]); (lit "a.bru", [Byte.x01]);
                (lit "b.bak", [Byte.x03]); (lit "c.bak", [Byte.x04]);
                (lit "c.bru", [Byte.x05])]
             [(lit "Users",
               Dir [(lit "u.bak", [Byte.x06]); (lit "u.bru", [Byte.x06])] [])]),
     2,
     [Reverted [lit "a.bru"];
      OriginalNotFound [lit "b.bru"] [lit "b.bak"];
      ErrorReverting [lit "c.bru"];
      Reverted [lit "Users"; lit "u.bru"]]).
Proof. reflexivity. Qed.

(** A working name that is a directory: [copy2] copies the backup into it,
    and the walk then finds it there. *)
Example revert_into_directory :
  revert_bruno_files (fun _ _ => false)
    (Some (Dir [(lit "x.bak", [Byte.x01])]
             [(lit "x.bru", Dir [(lit "x.bru", [Byte.x02])] [])]))
  = (Some (Dir [(lit "x.bak", [Byte.x01])]
             [(lit "x.bru",
               Dir [(lit "x.bru", [Byte.x01]); (lit "x.bak", [Byte.x01])] [])]),
     2,
     [Reverted [lit "x.bru"]; Reverted [lit "x.bru"; lit "x.bru"]]).
Proof. reflexivity. Qed.

Lemma revert_counts_copied_files_witness :
  snd (fst (revert_bruno_files (fun _ _ => false) (Some workspace_a)))
  = count_reverted (snd (revert_bruno_files (fun _ _ => false) (Some workspace_a)))
  /\ main_revert (fun _ _ => false) (Some (Dir [(lit "a.bru", [Byte.x02])] []))
     = (Some (Dir [(lit "a.bru", [Byte.x02])] []), [NothingReverted], 0).
Proof.
  split.
  - apply (proj1 (revert_counts_copied_files (fun _ _ => false))).
  - apply (proj1 (proj2 (proj2 (proj2 (proj2
             (revert_counts_copied_files (fun _ _ => false))))))).
    reflexivity.
Defined.

(* ------------------------------------------------------------------ *)
(** ** The spec loader *)
(* ------------------------------------------------------------------ *)

Arguments lit : simpl never.

(** C8, as amended.  The loader returns no document when the file cannot
    be read, is not valid YAML, or has no string starting with "3.0" under
    [openapi]; its messages tell apart invalid YAML, a root mapping whose
    [openapi] entry is absent or is a string that does not start with
    "3.0", and every other failure: an unreadable file, a root that is not
    a mapping, an [openapi] entry that is not a string.  Otherwise it
    returns the parsed root document and prints nothing. *)
Theorem validate_openapi_file_outcomes :
  validate_openapi_file Unreadable = (None, [ErrorReadingFile])
  /\ validate_openapi_file InvalidYaml = (None, [NotValidYaml])
  /\ (forall items,
         dict_lookup (lit "openapi") items = None ->
         validate_openapi_file (Parsed (VDict items)) = (None, [NotOpenApi3]))
  /\ (forall items version,
         dict_lookup (lit "openapi") items = Some (VStr version) ->
         validate_openapi_file (Parsed (VDict items))
         = if startswith version (lit "3.0")
           then (Some (VDict items), [])
           else (None, [NotOpenApi3]))
  /\ (forall items v,
         dict_lookup (lit "openapi") items = Some v ->
         (forall version, v <> VStr version) ->
         validate_openapi_file (Parsed (VDict items))
         = (None, [ErrorReadingFile]))
  /\ (forall openapi_data,
         (forall items, openapi_data <> VDict items) ->
         validate_openapi_file (Parsed openapi_data)
         = (None, [ErrorReadingFile]))
  /\ (forall file openapi_data,
         fst (validate_openapi_file file) = Some openapi_data <->
         file = Parsed openapi_data
         /\ has_version_3_0 openapi_data = true).
Proof.
  assert (forall items,
            validate_openapi_file (Parsed (VDict items))
            = match dict_lookup (lit "openapi") items with
              | Some (VStr version) =>
                  if startswith version (lit "3.0")
                  then (Some (VDict items), [])
                  else (None, [NotOpenApi3])
              | Some _ => (None, [ErrorReadingFile])
              | None => (None, [NotOpenApi3])
              end) as Hdict.
  { intros items.
    unfold validate_openapi_file, py_get, dict_get, bind, py_startswith.
    destruct (dict_lookup (lit "openapi") items) as [[| | |version| |]|];
      reflexivity. }
  repeat apply conj; try reflexivity.
  - intros items H. rewrite Hdict, H. reflexivity.
  - intros items version H. rewrite Hdict, H. reflexivity.
  - intros items v H Hv. rewrite Hdict, H.
    destruct v; try reflexivity. exfalso. apply (Hv s). reflexivity.
  - intros d Hd. destruct d; try reflexivity. exfalso. apply (Hd items).
    reflexivity.
  - intros file d. split.
    + destruct file as [| |d']; try discriminate.
      destruct d' as [| | | | |items]; try discriminate.
      rewrite Hdict. unfold has_version_3_0.
      destruct (dict_lookup (lit "openapi") items) as [v|] eqn:E;
        [|discriminate].
      destruct v as [| | |version| |]; try discriminate.
      destruct (startswith version (lit "3.0")) eqn:E'; [|discriminate].
      cbn [fst]. intros H; injection H as <-. rewrite E, E'. auto.
    + intros [-> H]. unfold has_version_3_0 in H.
      destruct d as [| | | | |items]; try discriminate.
      rewrite Hdict.
      destruct (dict_lookup (lit "openapi") items) as [v|]; [|discriminate].
      destruct v; try discriminate. rewrite H. reflexivity.
Qed.

Lemma validate_openapi_file_outcomes_witness :
  validate_openapi_file
    (Parsed (VDict [(VStr (lit "openapi"), VStr (lit "3.0.3"));
                    (VStr (lit "paths"), VDict [])]))
  = (Some (VDict [(VStr (lit "openapi"), VStr (lit "3.0.3"));
                  (VStr (lit "paths"), VDict [])]), [])
  /\ validate_openapi_file (Parsed (VDict [(VStr (lit "swagger"), VStr (lit "2.0"))]))
     = (None, [NotOpenApi3]).
Proof.
  split.
  - apply (proj1 (proj2 (proj2 (proj2 validate_openapi_file_outcomes)))
             [(VStr (lit "openapi"), VStr (lit "3.0.3"));
              (VStr (lit "paths"), VDict [])] (lit "3.0.3")).
    reflexivity.
  - apply (proj1 (proj2 (proj2 validate_openapi_file_outcomes))).
    reflexivity.
Defined.

(** C8, as stated, fails: for a document with [openapi: 3] (an integer; the
    field is there and does not start with "3.0") the loader prints the
    message of a file that cannot be read, not that of a document that is
    not OpenAPI 3.0; and so it does for an empty document. *)
Lemma validate_openapi_file_kinds_not_distinguished :
  validate_openapi_file (Parsed (VDict [(VStr (lit "openapi"), VInt 3)]))
  = (None, [ErrorReadingFile])
  /\ LoaderSpec.load (Parsed (VDict [(VStr (lit "openapi"), VInt 3)]))
     = (None, [NotOpenApi3])
  /\ validate_openapi_file (Parsed (VDict [(VStr (lit "openapi"), VInt 3)]))
     <> LoaderSpec.load (Parsed (VDict [(VStr (lit "openapi"), VInt 3)]))
  /\ validate_openapi_file (Parsed VNone)
     = validate_openapi_file Unreadable.
Proof. repeat split. discriminate. Qed.

(* ------------------------------------------------------------------ *)
(** ** The doc extractor *)
(* ------------------------------------------------------------------ *)

Module ExtractorFacts.

Lemma bind_ok {A B : Type} (r : result A) (k : A -> result B) (b : B) :
  bind r k = Ok b -> exists a, r = Ok a /\ k a = Ok b.
Proof. destruct r as [a|e]; simpl; [eauto | discriminate]. Qed.

Tactic Notation "inv_bind" hyp(H) "as" ident(a) ident(Ha) :=
  apply bind_ok in H; destruct H as [a [Ha H]].

Tactic Notation "inv_bind" hyp(H) :=
  let a := fresh "a" in
  let Ha := fresh "Ha" in
  apply bind_ok in H; destruct H as [a [Ha H]].

Lemma py_in_dict name items :
  py_in name (VDict items)
  = Ok (match dict_lookup name items with Some _ => true | None => false end).
Proof. reflexivity. Qed.

Lemma py_getitem_dict name items x :
  dict_lookup name items = Some x -> py_getitem (VDict items) name = Ok x.
Proof. intros H. unfold py_getitem. rewrite H. reflexivity. Qed.

Lemma http_method_in m :
  In m http_methods -> existsb (str_eqb m) http_methods = true.
Proof.
  intros H. apply existsb_exists. exists m. split; [exact H|].
  apply str_eqb_refl.
Qed.

Lemma for_each_extends {A : Type} (body : list str -> A -> result (list str))
  (l : list A) :
  (forall x, extends (fun docs => body docs x)) ->
  extends (for_each body l).
Proof.
  intros Hbody. induction l as [|x l IH]; intros docs docs' H.
  - injection H as <-. exists []. symmetry. apply app_nil_r.
  - cbn [for_each] in H. inv_bind H.
    apply Hbody in Ha as [m1 ->]. apply IH in H as [m2 ->].
    exists (m1 ++ m2). symmetry. apply app_assoc.
Qed.

Lemma extends_ok_app (docs more : list str) :
  exists more', docs ++ more = docs ++ more'.
Proof. eauto. Qed.

Section Sections.

Context `{Runtime}.

Lemma add_description_dict operation docs :
  add_description (VDict operation) docs
  = Ok (docs ++ description_section operation).
Proof.
  unfold add_description, description_section.
  rewrite py_in_dict. cbn [bind].
  destruct (dict_lookup (lit "description") operation) as [v|] eqn:E.
  - rewrite (py_getitem_dict _ _ _ E). reflexivity.
  - rewrite app_nil_r. reflexivity.
Qed.

Lemma add_security_dict operation docs docs' :
  add_security (VDict operation) docs = Ok docs' ->
  exists section,
    docs' = docs ++ section
    /\ (section = [] \/ exists text, section = [lit "Security: " ++ text ++ [nl]])
    /\ (dict_lookup (lit "security") operation = None -> section = []).
Proof.
  unfold add_security. rewrite py_in_dict. cbn [bind].
  destruct (dict_lookup (lit "security") operation) as [v|] eqn:E.
  - intros Hs. inv_bind Hs. inv_bind Hs.
    inv_bind Hs as security_schemes Hschemes.
    destruct security_schemes as [|x schemes].
    + injection Hs as <-. exists []. rewrite app_nil_r.
      split; [reflexivity|]. split; [auto | discriminate].
    + inv_bind Hs as joined Hjoined. injection Hs as <-.
      exists [lit "Security: " ++ joined ++ [nl]].
      split; [reflexivity|]. split; [eauto | discriminate].
  - intros Hs. injection Hs as <-. exists []. rewrite app_nil_r. auto.
Qed.

Lemma add_parameter_dict docs param :
  add_parameter docs (VDict param) = Ok (docs ++ parameter_lines param).
Proof.
  unfold add_parameter, parameter_lines, parameter_bullet.
  cbn [py_get bind].
  destruct (truthy (dict_get param (lit "example") (VStr []))).
  - rewrite <- app_assoc. reflexivity.
  - reflexivity.
Qed.

Lemma add_parameter_extends param :
  extends (fun docs => add_parameter docs param).
Proof.
  intros docs docs' Hp. unfold add_parameter in Hp.
  inv_bind Hp. inv_bind Hp. inv_bind Hp. inv_bind Hp.
  inv_bind Hp as param_example Hexample.
  destruct (truthy param_example); injection Hp as <-;
    rewrite <- ?app_assoc; apply extends_ok_app.
Qed.

Lemma for_each_add_parameter docs params :
  for_each add_parameter (map VDict params) docs
  = Ok (docs ++ flat_map parameter_lines params).
Proof.
  revert docs. induction params as [|p params IH]; intros docs.
  - simpl. rewrite app_nil_r. reflexivity.
  - cbn [map for_each flat_map]. rewrite add_parameter_dict. cbn [bind].
    rewrite IH, <- app_assoc. reflexivity.
Qed.

Lemma add_parameters_dict operation docs docs' :
  add_parameters (VDict operation) docs = Ok docs' ->
  exists section,
    docs' = docs ++ section
    /\ headed_section (dict_lookup (lit "parameters") operation)
         (lit "Parameters:") section.
Proof.
  unfold add_parameters. rewrite py_in_dict. cbn [bind].
  destruct (dict_lookup (lit "parameters") operation) as [v|] eqn:E.
  - intros Hp. inv_bind Hp. inv_bind Hp. inv_bind Hp as docs1 Hloop.
    injection Hp as <-.
    apply (for_each_extends add_parameter _ add_parameter_extends) in Hloop
      as [more ->].
    exists (lit "Parameters:" :: more ++ [[]]). split.
    + repeat rewrite <- app_assoc. reflexivity.
    + exists more. reflexivity.
  - intros Hp. injection Hp as <-. exists []. rewrite app_nil_r.
    split; reflexivity.
Qed.

Lemma add_property_extends item :
  extends (fun docs => add_property docs item).
Proof.
  intros docs docs' Hp. destruct item as [prop_name prop].
  unfold add_property in Hp. inv_bind Hp. inv_bind Hp. inv_bind Hp.
  injection Hp as <-. apply extends_ok_app.
Qed.

Lemma add_body_content_extends item :
  extends (fun docs => add_body_content docs item).
Proof.
  intros docs docs' Hb. destruct item as [content_type content].
  unfold add_body_content in Hb.
  inv_bind Hb. inv_bind Hb as has_properties Hhas.
  inv_bind Hb as docs1 Hprops.
  assert (exists m1, docs1 = docs ++ m1) as [m1 ->].
  { destruct has_properties.
    - inv_bind Hprops. inv_bind Hprops. inv_bind Hprops as docs2 Hloop.
      apply (for_each_extends add_property _ add_property_extends) in Hloop
        as [m ->].
      inv_bind Hprops as has_required Hreq. destruct has_required.
      + inv_bind Hprops. inv_bind Hprops. inv_bind Hprops.
        injection Hprops as <-.
        rewrite <- ?app_assoc; apply extends_ok_app.
      + injection Hprops as <-. rewrite <- ?app_assoc; apply extends_ok_app.
    - injection Hprops as <-. apply extends_ok_app. }
  inv_bind Hb as has_example Hex. destruct has_example.
  - inv_bind Hb. injection Hb as <-.
    rewrite <- ?app_assoc; apply extends_ok_app.
  - injection Hb as <-. rewrite <- ?app_assoc; apply extends_ok_app.
Qed.

Lemma add_request_body_dict operation docs docs' :
  add_request_body (VDict operation) docs = Ok docs' ->
  exists section,
    docs' = docs ++ section
    /\ headed_section (dict_lookup (lit "requestBody") operation)
         (lit "Body:") section.
Proof.
  unfold add_request_body. rewrite py_in_dict. cbn [bind].
  destruct (dict_lookup (lit "requestBody") operation) as [v|] eqn:E.
  - intros Hb. inv_bind Hb. inv_bind Hb. inv_bind Hb.
    inv_bind Hb as docs1 Hloop. injection Hb as <-.
    apply (for_each_extends add_body_content _ add_body_content_extends)
      in Hloop as [more ->].
    exists (lit "Body:" :: more ++ [[]]). split.
    + repeat rewrite <- app_assoc. reflexivity.
    + exists more. reflexivity.
  - intros Hb. injection Hb as <-. exists []. rewrite app_nil_r.
    split; reflexivity.
Qed.

Lemma add_response_content_extends item :
  extends (fun docs => add_response_content docs item).
Proof.
  intros docs docs' Hr. destruct item as [content_type content].
  unfold add_response_content in Hr.
  inv_bind Hr as has_example Hex. destruct has_example.
  - inv_bind Hr. injection Hr as <-. apply extends_ok_app.
  - inv_bind Hr as has_schema Hsch. destruct has_schema.
    + inv_bind Hr. inv_bind Hr as schema_has_example Hex'.
      destruct schema_has_example.
      * inv_bind Hr. injection Hr as <-. apply extends_ok_app.
      * injection Hr as <-. exists []. symmetry. apply app_nil_r.
    + injection Hr as <-. exists []. symmetry. apply app_nil_r.
Qed.

Lemma add_response_extends item :
  extends (fun docs => add_response docs item).
Proof.
  intros docs docs' Hr. destruct item as [status_code response].
  unfold add_response in Hr.
  inv_bind Hr. inv_bind Hr as has_content Hc. destruct has_content.
  - inv_bind Hr. inv_bind Hr.
    apply (for_each_extends add_response_content _
             add_response_content_extends) in Hr as [more ->].
    rewrite <- ?app_assoc; apply extends_ok_app.
  - injection Hr as <-. apply extends_ok_app.
Qed.

Lemma add_responses_dict operation docs docs' :
  add_responses (VDict operation) docs = Ok docs' ->
  exists section,
    docs' = docs ++ section
    /\ headed_section (dict_lookup (lit "responses") operation)
         (lit "Responses:") section.
Proof.
  unfold add_responses. rewrite py_in_dict. cbn [bind].
  destruct (dict_lookup (lit "responses") operation) as [v|] eqn:E.
  - intros Hr. inv_bind Hr. inv_bind Hr. inv_bind Hr as docs1 Hloop.
    injection Hr as <-.
    apply (for_each_extends add_response _ add_response_extends)
      in Hloop as [more ->].
    exists (lit "Responses:" :: more ++ [[]]). split.
    + repeat rewrite <- app_assoc. reflexivity.
    + exists more. reflexivity.
  - intros Hr. injection Hr as <-. exists []. rewrite app_nil_r.
    split; reflexivity.
Qed.

(** The sections of [docs], in the order of the program. *)
Lemma build_docs_sections operation docs :
  build_docs (VDict operation) = Ok docs ->
  exists security parameters body responses,
    docs = description_section operation ++ security ++ parameters ++ body
           ++ responses
    /\ (security = []
        \/ exists text, security = [lit "Security: " ++ text ++ [nl]])
    /\ (dict_lookup (lit "security") operation = None -> security = [])
    /\ headed_section (dict_lookup (lit "parameters") operation)
         (lit "Parameters:") parameters
    /\ headed_section (dict_lookup (lit "requestBody") operation)
         (lit "Body:") body
    /\ headed_section (dict_lookup (lit "responses") operation)
         (lit "Responses:") responses.
Proof.
  unfold build_docs. rewrite add_description_dict. cbn [bind app].
  intros Hd. inv_bind Hd as d1 Ha. inv_bind Hd as d2 Ha0.
  inv_bind Hd as d3 Ha1.
  apply add_security_dict in Ha as [S [-> [HS HS']]].
  apply add_parameters_dict in Ha0 as [P [-> HP]].
  apply add_request_body_dict in Ha1 as [B [-> HB]].
  apply add_responses_dict in Hd as [R [-> HR]].
  exists S, P, B, R. repeat rewrite <- app_assoc. auto 10.
Qed.

(** *** Operations of the prescribed shape raise nothing *)

Lemma for_each_total {A S : Type} (body : S -> A -> result S) (l : list A) :
  (forall x s, In x l -> exists s', body s x = Ok s') ->
  forall s, exists s', for_each body l s = Ok s'.
Proof.
  induction l as [|x l IH]; intros Hbody s; [eexists; reflexivity|].
  destruct (Hbody x s (or_introl eq_refl)) as [s1 H1].
  destruct (IH (fun y t Hy => Hbody y t (or_intror Hy)) s1) as [s2 H2].
  exists s2. cbn [for_each]. rewrite H1. exact H2.
Qed.

Lemma strings_of_total (l : list value) :
  forallb is_string l = true -> exists names, strings_of l = Ok names.
Proof.
  induction l as [|v l IH]; intros Hl; [eexists; reflexivity|].
  cbn [forallb] in Hl. apply andb_true_iff in Hl as [Hv Hl].
  destruct v as [| | |name| |]; try discriminate.
  destruct (IH Hl) as [names Hn].
  exists (name :: names). cbn [strings_of]. rewrite Hn. reflexivity.
Qed.

Lemma all_dicts (l : list value) :
  forallb is_dict l = true -> exists items, l = map VDict items.
Proof.
  induction l as [|v l IH]; intros Hl; [exists []; reflexivity|].
  cbn [forallb] in Hl. apply andb_true_iff in Hl as [Hv Hl].
  destruct v as [| | | | |d]; try discriminate.
  destruct (IH Hl) as [ds ->]. exists (d :: ds). reflexivity.
Qed.

Lemma security_schemes_total (items acc : list value) :
  forallb
    (fun item =>
       match item with
       | VDict schemes => forallb (fun e => is_string (fst e)) schemes
       | _ => false
       end) items = true ->
  forallb is_string acc = true ->
  exists schemes,
    for_each
      (fun schemes security_item =>
         items <- py_items security_item ;; Ok (schemes ++ map fst items))
      items acc = Ok schemes
    /\ forallb is_string schemes = true.
Proof.
  revert acc. induction items as [|item items IH]; intros acc Hi Hacc.
  - exists acc. split; [reflexivity | exact Hacc].
  - cbn [forallb] in Hi. apply andb_true_iff in Hi as [Hitem Hi].
    destruct item as [| | | | |schemes]; try discriminate.
    cbn [for_each py_items bind]. apply IH; [exact Hi|].
    rewrite forallb_app, Hacc. cbn [andb].
    rewrite forallb_forall in *. intros v Hv.
    apply in_map_iff in Hv as [e [<- He]]. apply (Hitem e He).
Qed.

Lemma add_security_total operation docs :
  wf_field wf_security operation (lit "security") = true ->
  exists docs', add_security (VDict operation) docs = Ok docs'.
Proof.
  unfold wf_field, add_security. rewrite py_in_dict. cbn [bind].
  destruct (dict_lookup (lit "security") operation) as [v|] eqn:E;
    [|eexists; reflexivity].
  intros Hwf. rewrite (py_getitem_dict _ _ _ E). cbn [bind].
  destruct v as [| | | |items|]; try discriminate. cbn [py_iter bind].
  destruct (security_schemes_total items [] Hwf eq_refl) as [schemes [-> Hs]].
  cbn [bind]. destruct schemes as [|x schemes]; [eexists; reflexivity|].
  unfold py_join. destruct (strings_of_total _ Hs) as [names ->].
  eexists; reflexivity.
Qed.

Lemma add_parameters_total operation docs :
  wf_field wf_parameters operation (lit "parameters") = true ->
  exists docs', add_parameters (VDict operation) docs = Ok docs'.
Proof.
  unfold wf_field, add_parameters. rewrite py_in_dict. cbn [bind].
  destruct (dict_lookup (lit "parameters") operation) as [v|] eqn:E;
    [|eexists; reflexivity].
  intros Hwf. rewrite (py_getitem_dict _ _ _ E). cbn [bind].
  destruct v as [| | | |params|]; try discriminate. cbn [py_iter bind].
  destruct (all_dicts params Hwf) as [items ->].
  rewrite for_each_add_parameter. eexists; reflexivity.
Qed.

Lemma add_property_total docs item :
  is_dict (snd item) = true -> exists docs', add_property docs item = Ok docs'.
Proof.
  destruct item as [prop_name prop]. cbn [snd].
  destruct prop; try discriminate. intros _. eexists; reflexivity.
Qed.

Lemma add_body_content_total docs item :
  match snd item with
  | VDict content => wf_schema (dict_get content (lit "schema") (VDict []))
  | _ => false
  end = true ->
  exists docs', add_body_content docs item = Ok docs'.
Proof.
  destruct item as [content_type content]. cbn [snd].
  destruct content as [| | | | |content]; try discriminate.
  intros Hwf. unfold add_body_content. cbn [py_get bind].
  assert (forall docs1,
            exists docs',
              (has_example <- py_in (lit "example") (VDict content) ;;
               if has_example : bool then
                 example <- py_getitem (VDict content) (lit "example") ;;
                 Ok (docs1 ++ [nl :: lit "  Example:"] ++ example_lines example)
               else Ok docs1) = Ok docs') as Hexample.
  { intros docs1. rewrite py_in_dict. cbn [bind].
    destruct (dict_lookup (lit "example") content) as [v|] eqn:E;
      [|eexists; reflexivity].
    rewrite (py_getitem_dict _ _ _ E). eexists; reflexivity. }
  destruct (dict_get content (lit "schema") (VDict [])) as [| | | | |schema];
    try discriminate.
  cbn [wf_schema] in Hwf. rewrite py_in_dict. cbn [bind].
  destruct (dict_lookup (lit "properties") schema) as [props|] eqn:Ep;
    [|cbn [bind]; apply Hexample].
  rewrite (py_getitem_dict _ _ _ Ep). cbn [bind].
  destruct props as [| | | | |props]; try discriminate.
  apply andb_true_iff in Hwf as [Hprops Hreq]. cbn [py_items bind].
  destruct (for_each_total add_property props) with
    (s := docs ++ [lit "  Content-Type: " ++ py_str content_type])
    as [docs1 ->].
  { intros x s Hx. apply add_property_total.
    rewrite forallb_forall in Hprops. apply (Hprops x Hx). }
  cbn [bind]. rewrite py_in_dict. cbn [bind].
  destruct (dict_lookup (lit "required") schema) as [required|] eqn:Er;
    [|cbn [bind]; apply Hexample].
  rewrite (py_getitem_dict _ _ _ Er). cbn [bind].
  destruct required as [| | | |names|]; try discriminate.
  cbn [py_iter bind]. unfold py_join.
  destruct (strings_of_total names Hreq) as [ss ->]. cbn [bind].
  apply Hexample.
Qed.

Lemma add_request_body_total operation docs :
  wf_field wf_request_body operation (lit "requestBody") = true ->
  exists docs', add_request_body (VDict operation) docs = Ok docs'.
Proof.
  unfold wf_field, add_request_body. rewrite py_in_dict. cbn [bind].
  destruct (dict_lookup (lit "requestBody") operation) as [v|] eqn:E;
    [|eexists; reflexivity].
  intros Hwf. rewrite (py_getitem_dict _ _ _ E). cbn [bind].
  destruct v as [| | | | |request_body]; try discriminate.
  cbn [wf_request_body] in Hwf. cbn [py_get bind].
  destruct (dict_get request_body (lit "content") (VDict []))
    as [| | | | |contents]; try discriminate.
  cbn [py_items bind].
  destruct (for_each_total add_body_content contents) with
    (s := docs ++ [lit "Body:"]) as [docs1 ->].
  { intros x s Hx. apply add_body_content_total.
    rewrite forallb_forall in Hwf. apply (Hwf x Hx). }
  eexists; reflexivity.
Qed.

Lemma add_response_content_total docs item :
  wf_response_content (snd item) = true ->
  exists docs', add_response_content docs item = Ok docs'.
Proof.
  destruct item as [content_type content]. cbn [snd].
  destruct content as [| | | | |content]; try discriminate.
  cbn [wf_response_content]. unfold add_response_content.
  rewrite py_in_dict. cbn [bind].
  destruct (dict_lookup (lit "example") content) as [v|] eqn:E.
  - intros _. rewrite (py_getitem_dict _ _ _ E). eexists; reflexivity.
  - rewrite py_in_dict. cbn [bind].
    destruct (dict_lookup (lit "schema") content) as [schema|] eqn:Es;
      [|eexists; reflexivity].
    intros Hs. rewrite (py_getitem_dict _ _ _ Es). cbn [bind].
    destruct schema as [| | | | |schema]; try discriminate.
    rewrite py_in_dict. cbn [bind].
    destruct (dict_lookup (lit "example") schema) as [v|] eqn:Ee;
      [|eexists; reflexivity].
    rewrite (py_getitem_dict _ _ _ Ee). eexists; reflexivity.
Qed.

Lemma add_response_total docs item :
  match snd item with
  | VDict response =>
      match dict_lookup (lit "content") response with
      | None => true
      | Some (VDict contents) =>
          forallb (fun c => wf_response_content (snd c)) contents
      | Some _ => false
      end
  | _ => false
  end = true ->
  exists docs', add_response docs item = Ok docs'.
Proof.
  destruct item as [status_code response]. cbn [snd].
  destruct response as [| | | | |response]; try discriminate.
  unfold add_response. cbn [py_get bind]. rewrite py_in_dict. cbn [bind].
  destruct (dict_lookup (lit "content") response) as [c|] eqn:E;
    [|eexists; reflexivity].
  intros Hwf. rewrite (py_getitem_dict _ _ _ E). cbn [bind].
  destruct c as [| | | | |contents]; try discriminate. cbn [py_items bind].
  apply for_each_total. intros x s Hx. apply add_response_content_total.
  rewrite forallb_forall in Hwf. apply (Hwf x Hx).
Qed.

Lemma add_responses_total operation docs :
  wf_field wf_responses operation (lit "responses") = true ->
  exists docs', add_responses (VDict operation) docs = Ok docs'.
Proof.
  unfold wf_field, add_responses. rewrite py_in_dict. cbn [bind].
  destruct (dict_lookup (lit "responses") operation) as [v|] eqn:E;
    [|eexists; reflexivity].
  intros Hwf. rewrite (py_getitem_dict _ _ _ E). cbn [bind].
  destruct v as [| | | | |responses]; try discriminate.
  cbn [py_items bind].
  destruct (for_each_total add_response responses) with
    (s := docs ++ [lit "Responses:"]) as [docs1 ->].
  { intros x s Hx. apply add_response_total.
    cbn [wf_responses] in Hwf. rewrite forallb_forall in Hwf.
    apply (Hwf x Hx). }
  eexists; reflexivity.
Qed.

(** The extractor builds the documentation of every operation of the
    prescribed shape. *)
Lemma build_docs_total operation :
  well_formed_operation operation = true ->
  exists docs, build_docs (VDict operation) = Ok docs.
Proof.
  unfold well_formed_operation. rewrite !andb_true_iff.
  intros [[[Hs Hp] Hb] Hr]. unfold build_docs.
  rewrite add_description_dict. cbn [bind].
  destruct (add_security_total operation
              ([] ++ description_section operation) Hs) as [d1 ->].
  cbn [bind].
  destruct (add_parameters_total operation d1 Hp) as [d2 ->]. cbn [bind].
  destruct (add_request_body_total operation d2 Hb) as [d3 ->]. cbn [bind].
  apply add_responses_total, Hr.
Qed.

End Sections.

End ExtractorFacts.
Import ExtractorFacts.

(* ------------------------------------------------------------------ *)
(** ** The mapping [path_docs] *)
(* ------------------------------------------------------------------ *)

Module StoreFacts.

Lemma py_eq_refl v : hashable v = true -> py_eq v v = true.
Proof.
  destruct v as [|b|z|s| |]; simpl; try discriminate; intros _.
  - reflexivity.
  - destruct b; reflexivity.
  - apply Z.eqb_refl.
  - apply str_eqb_refl.
Qed.

Lemma py_eq_sym a b : py_eq a b = py_eq b a.
Proof.
  destruct a as [|x|x|s| |], b as [|y|y|t| |]; simpl; try reflexivity.
  - destruct x, y; reflexivity.
  - apply Z.eqb_sym.
  - apply str_eqb_sym.
Qed.

Lemma py_eq_trans a b c :
  py_eq a b = true -> py_eq b c = true -> py_eq a c = true.
Proof.
  destruct a as [|x|x|s| |], b as [|y|y|t| |], c as [|z|z|u| |]; simpl;
    try discriminate; try reflexivity;
    rewrite ?Z.eqb_eq, ?str_eqb_eq, ?Bool.eqb_true_iff;
    try (intros; subst; auto; fail);
    try (destruct x; destruct y; simpl; intros; subst; auto; lia);
    try (destruct x; destruct z; simpl; intros; subst; auto; lia);
    try (destruct y; destruct z; simpl; intros; subst; auto; lia).
Qed.

Lemma key_eqb_refl (k : key) :
  (let '(tag, _, path, summary) := k in
   hashable tag && hashable path && hashable summary) = true ->
  key_eqb k k = true.
Proof.
  destruct k as [[[tag m] path] summary]. intros Hh.
  apply andb_true_iff in Hh as [Hh H3]. apply andb_true_iff in Hh as [H1 H2].
  unfold key_eqb. rewrite !py_eq_refl, str_eqb_refl by assumption.
  reflexivity.
Qed.

Lemma key_eqb_sym (a b : key) : key_eqb a b = key_eqb b a.
Proof.
  destruct a as [[[t1 m1] p1] s1], b as [[[t2 m2] p2] s2]. unfold key_eqb.
  rewrite (py_eq_sym t1), (str_eqb_sym m1), (py_eq_sym p1), (py_eq_sym s1).
  reflexivity.
Qed.

Lemma key_eqb_trans (a b c : key) :
  key_eqb a b = true -> key_eqb b c = true -> key_eqb a c = true.
Proof.
  destruct a as [[[t1 m1] p1] s1], b as [[[t2 m2] p2] s2],
           c as [[[t3 m3] p3] s3]. unfold key_eqb.
  rewrite !andb_true_iff, !str_eqb_eq.
  intros [[[H1 H2] H3] H4] [[[H5 H6] H7] H8].
  repeat split; try (eapply py_eq_trans; eassumption). congruence.
Qed.

(** Two keys that equal a third are equal or unequal to the same keys. *)
Lemma key_eqb_congr (a b k : key) :
  key_eqb a b = true -> key_eqb a k = key_eqb b k.
Proof.
  intros H. apply eq_true_iff_eq. split; intros Hk.
  - apply key_eqb_trans with a; [rewrite key_eqb_sym|]; assumption.
  - apply key_eqb_trans with b; assumption.
Qed.

Lemma docs_lookup_set k k' text d :
  docs_lookup k (docs_set k' text d)
  = if key_eqb k' k then Some text else docs_lookup k d.
Proof.
  induction d as [|[k0 t0] d IH]; simpl.
  - reflexivity.
  - destruct (key_eqb k0 k') eqn:E; simpl.
    + rewrite (key_eqb_congr _ _ k E).
      destruct (key_eqb k' k); reflexivity.
    + rewrite IH. destruct (key_eqb k0 k) eqn:E0; [|reflexivity].
      destruct (key_eqb k' k) eqn:E1; [|reflexivity].
      rewrite key_eqb_sym in E1.
      rewrite (key_eqb_trans _ _ _ E0 E1) in E. discriminate.
Qed.

Lemma count_key_lookup k d :
  docs_lookup k d = None <-> count_key k d = 0.
Proof.
  unfold count_key. induction d as [|[k0 t0] d IH]; simpl; [tauto|].
  destruct (key_eqb k0 k); simpl; [|exact IH]. split; discriminate.
Qed.

Lemma count_key_set k k' text d :
  count_key k (docs_set k' text d)
  = match docs_lookup k' d with
    | Some _ => count_key k d
    | None => count_key k d + (if key_eqb k' k then 1 else 0)
    end.
Proof.
  unfold count_key. induction d as [|[k0 t0] d IH]; simpl.
  - destruct (key_eqb k' k); reflexivity.
  - destruct (key_eqb k0 k') eqn:E; simpl.
    + destruct (key_eqb k0 k); reflexivity.
    + destruct (key_eqb k0 k); simpl; rewrite IH;
        destruct (docs_lookup k' d); reflexivity.
Qed.

Lemma unique_keys_set k text d :
  unique_keys d -> unique_keys (docs_set k text d).
Proof.
  intros Hu j. rewrite count_key_set.
  destruct (docs_lookup k d) eqn:E; [apply Hu|].
  destruct (key_eqb k j) eqn:Ej; [|rewrite Nat.add_0_r; apply Hu].
  assert (count_key j d = 0) as ->; [|simpl; lia].
  apply count_key_lookup.
  destruct (docs_lookup j d) eqn:Ed; [|reflexivity].
  assert (docs_lookup k d <> None) as Hne; [|congruence].
  clear E Hu. induction d as [|[k0 t0] d IH]; simpl in *; [discriminate|].
  destruct (key_eqb k0 j) eqn:E0.
  - rewrite key_eqb_sym in Ej. rewrite (key_eqb_trans _ _ _ E0 Ej).
    discriminate.
  - destruct (key_eqb k0 k); [discriminate | auto].
Qed.

Lemma unique_keys_nil : unique_keys [].
Proof. intros k. unfold count_key. simpl. lia. Qed.

Section Tags.

Variables (method : str) (path summary : value) (text : str).




End Tags.

End StoreFacts.
Import StoreFacts.

(* ------------------------------------------------------------------ *)
(** ** The sections in closed form *)
(* ------------------------------------------------------------------ *)

Module ClosedFormFacts.







Section Closed.

Context `{Runtime}.









End Closed.

End ClosedFormFacts.
Import ClosedFormFacts.

(* ------------------------------------------------------------------ *)
(** ** The claims on the doc extractor *)
(* ------------------------------------------------------------------ *)


Example example_operation_docs :
  @build_docs example_runtime (VDict example_operation) = Ok example_docs.
Proof. reflexivity. Qed.

Example example_full_operation_docs :
  @build_docs example_runtime (VDict example_full_operation)
  = Ok example_full_docs.
Proof. reflexivity. Qed.


(** C4.  An operation whose tags are absent or empty, or whose summary is
    absent or empty, stores nothing and adds one warning to the output,
    and the extractor goes on with the operations that follow. *)
Theorem extract_operation_warns_and_skips `{Runtime}
  (path : value) (m : str) (operation : list (value * value))
  (rest : list (value * value)) (st : state) :
  In m http_methods ->
  truthy (dict_get operation (lit "tags") (VList [])) = false
  \/ truthy (dict_get operation (lit "summary") (VStr [])) = false ->
  let warned :=
    mk_state (s_docs st)
      (s_out st ++ [lit "Warning: Missing tags or summary for " ++ upper m
                    ++ lit " " ++ py_str path]) in
  extract_operation path st (VStr m, VDict operation) = Ok warned
  /\ for_each (extract_operation path) ((VStr m, VDict operation) :: rest) st
     = for_each (extract_operation path) rest warned.
Proof.
  intros Hm Hmissing warned.
  assert (extract_operation path st (VStr m, VDict operation) = Ok warned)
    as Hstep.
  { unfold extract_operation. rewrite (http_method_in m Hm).
    cbn [py_get bind].
    destruct Hmissing as [-> | ->]; [|rewrite orb_true_r]; reflexivity. }
  split; [exact Hstep|].
  cbn [for_each]. rewrite Hstep. reflexivity.
Qed.

Lemma extract_operation_warns_and_skips_witness :
  @extract_operation example_runtime (VStr (lit "/users"))
    (mk_state [] []) (VStr (lit "post"),
                      VDict [(VStr (lit "summary"), VStr (lit "Create User"))])
  = Ok (mk_state []
          [lit "Warning: Missing tags or summary for " ++ upper (lit "post")
           ++ lit " " ++ lit "/users"])
  /\ @extract_operation example_runtime (VStr (lit "/users"))
       (mk_state [] []) (VStr (lit "get"),
                         VDict [(VStr (lit "tags"), VList [VStr (lit "Users")]);
                                (VStr (lit "summary"), VStr [])])
     = Ok (mk_state []
             [lit "Warning: Missing tags or summary for " ++ upper (lit "get")
              ++ lit " " ++ lit "/users"]).
Proof.
  split.
  - apply (@extract_operation_warns_and_skips example_runtime
             (VStr (lit "/users")) (lit "post")
             [(VStr (lit "summary"), VStr (lit "Create User"))] []
             (mk_state [] [])).
    + simpl. auto.
    + left. reflexivity.
  - apply (@extract_operation_warns_and_skips example_runtime
             (VStr (lit "/users")) (lit "get")
             [(VStr (lit "tags"), VList [VStr (lit "Users")]);
              (VStr (lit "summary"), VStr [])] []
             (mk_state [] [])).
    + simpl. auto.
    + right. reflexivity.
Defined.

(** C5.  What the program does for an operation with a list of
    parameters: it adds the heading [Parameters:], then for each parameter,
    in order, the bullet [name (location, required|optional): description],
    where the word is [required] exactly when the [required] field is true
    as a condition (for a boolean: when it is [true]) and, when the value
    of [example] is true as a condition, the line [Example: <value>] behind
    a line feed and four spaces; a parameter without [example] gets no such
    line; an empty entry ends the block.  The line of the example hangs on
    the truth of the value, where the examples of the request body and of
    the responses hang on the presence of the key (lines 132 and 149): a
    parameter that carries an example which is false as a condition loses
    it, as the failing input below shows. *)
Theorem add_parameters_renders_bullets `{Runtime}
  (operation : list (value * value)) (params : list (list (value * value)))
  (docs : list str) :
  dict_lookup (lit "parameters") operation = Some (VList (map VDict params)) ->
  add_parameters (VDict operation) docs
  = Ok (docs ++ lit "Parameters:" :: flat_map parameter_lines params ++ [[]])
  /\ (forall param,
         In param params ->
         (forall b,
             dict_lookup (lit "required") param = Some (VBool b) ->
             parameter_bullet param
             = lit "  * " ++ py_str (dict_get param (lit "name") (VStr []))
               ++ lit " (" ++ py_str (dict_get param (lit "in") (VStr []))
               ++ lit ", " ++ (if b then lit "required" else lit "optional")
               ++ lit "): "
               ++ py_str (dict_get param (lit "description") (VStr [])))
         /\ (forall example,
                dict_lookup (lit "example") param = Some example ->
                truthy example = true ->
                parameter_lines param
                = [parameter_bullet param;
                   nl :: lit "    Example: " ++ py_str example])
         /\ (dict_lookup (lit "example") param = None ->
             parameter_lines param = [parameter_bullet param])).
Proof.
  intros Hparams. split.
  - unfold add_parameters. rewrite py_in_dict, Hparams. cbn [bind].
    rewrite (py_getitem_dict _ _ _ Hparams). cbn [bind py_iter].
    rewrite for_each_add_parameter. cbn [bind].
    repeat rewrite <- app_assoc. reflexivity.
  - intros param _. repeat split.
    + intros b Hb. unfold parameter_bullet, dict_get at 3. rewrite Hb.
      reflexivity.
    + intros example He Ht. unfold parameter_lines, dict_get at 1 2.
      rewrite He, Ht. reflexivity.
    + intros He. unfold parameter_lines, dict_get at 1. rewrite He.
      reflexivity.
Qed.

Lemma add_parameters_renders_bullets_witness :
  @add_parameters example_runtime
    (VDict [(VStr (lit "parameters"),
             VList (map VDict [example_parameter;
                               [(VStr (lit "name"), VStr (lit "id"));
                                (VStr (lit "required"), VBool true);
                                (VStr (lit "example"), VInt 7)]]))]) []
  = Ok ([] ++ lit "Parameters:"
           :: flat_map (@parameter_lines example_runtime)
                [example_parameter;
                 [(VStr (lit "name"), VStr (lit "id"));
                  (VStr (lit "required"), VBool true);
                  (VStr (lit "example"), VInt 7)]]
           ++ [[]]).
Proof.
  apply (@add_parameters_renders_bullets example_runtime).
  reflexivity.
Defined.

(** C5, the failing input: a parameter that carries the example value 0
    gets its bullet and no [Example:] line. *)
Lemma add_parameters_example_zero :
  @add_parameters example_runtime
    (VDict [(VStr (lit "parameters"), VList [VDict example_parameter])]) []
  = Ok [lit "Parameters:"; lit "  * limit (query, optional): Page size"; []]
  /\ @ExtractorSpec.parameter_entries example_runtime example_parameter
     = [lit "  * limit (query, optional): Page size";
        nl :: lit "    Example: 0"]
  /\ @add_parameters example_runtime
       (VDict [(VStr (lit "parameters"), VList [VDict example_parameter])]) []
     <> Ok (lit "Parameters:"
              :: @ExtractorSpec.parameter_entries example_runtime
                   example_parameter
              ++ [[]]).
Proof. repeat split. discriminate. Qed.

(** The request body with the same example keeps it: there the program
    asks whether the key is present. *)
Example add_body_content_example_zero :
  @add_body_content example_runtime []
    (VStr (lit "application/json"), VDict [(VStr (lit "example"), VInt 0)])
  = Ok [lit "  Content-Type: application/json"; nl :: lit "  Example:";
        lit "      ..."].
Proof. reflexivity. Qed.

(** The word is [required] for any [required] value that is true as a
    condition, a string included. *)
Example parameter_required_by_truth :
  @parameter_bullet example_runtime
    [(VStr (lit "name"), VStr (lit "q"));
     (VStr (lit "required"), VStr (lit "no"))]
  = lit "  * q (, required): ".
Proof. reflexivity. Qed.

(** C9.  A parameter whose [example] key is there with a value that is
    false as a condition (0, [false], the empty string, null) gets no
    [Example:] line; the line is there exactly when the value is true as a
    condition. *)
Theorem add_parameter_example_by_truth `{Runtime} :
  (truthy (VInt 0) = false /\ truthy (VBool false) = false
   /\ truthy (VStr []) = false /\ truthy VNone = false)
  /\ (forall param docs example,
         dict_lookup (lit "example") param = Some example ->
         truthy example = false ->
         add_parameter docs (VDict param)
         = Ok (docs ++ [parameter_bullet param]))
  /\ (forall param docs example,
         dict_lookup (lit "example") param = Some example ->
         truthy example = true ->
         add_parameter docs (VDict param)
         = Ok (docs ++ [parameter_bullet param;
                        nl :: lit "    Example: " ++ py_str example]))
  /\ (forall param docs,
         dict_lookup (lit "example") param = None ->
         add_parameter docs (VDict param)
         = Ok (docs ++ [parameter_bullet param])).
Proof.
  split; [repeat split|]. repeat split.
  - intros param docs example He Hf. rewrite add_parameter_dict.
    unfold parameter_lines, dict_get at 1. rewrite He, Hf. reflexivity.
  - intros param docs example He Ht. rewrite add_parameter_dict.
    unfold parameter_lines, dict_get at 1 2. rewrite He, Ht. reflexivity.
  - intros param docs He. rewrite add_parameter_dict.
    unfold parameter_lines, dict_get at 1. rewrite He. reflexivity.
Qed.

Lemma add_parameter_example_by_truth_witness :
  @add_parameter example_runtime [] (VDict example_parameter)
  = Ok ([] ++ [@parameter_bullet example_runtime example_parameter])
  /\ @add_parameter example_runtime []
       (VDict [(VStr (lit "name"), VStr (lit "id"));
               (VStr (lit "example"), VBool false)])
     = Ok ([] ++ [@parameter_bullet example_runtime
                    [(VStr (lit "name"), VStr (lit "id"));
                     (VStr (lit "example"), VBool false)]]).
Proof.
  split.
  - apply (proj1 (proj2 (@add_parameter_example_by_truth example_runtime))
             example_parameter [] (VInt 0)); reflexivity.
  - apply (proj1 (proj2 (@add_parameter_example_by_truth example_runtime))
             _ [] (VBool false)); reflexivity.
Defined.

(* ------------------------------------------------------------------ *)
(** ** The extractor on a small document *)
(* ------------------------------------------------------------------ *)

Example add_request_body_sample :
  @add_request_body example_runtime
    (VDict
       [(VStr (lit "requestBody"),
         VDict
           [(VStr (lit "content"),
             VDict
               [(VStr (lit "application/json"),
                 VDict
                   [(VStr (lit "schema"),
                     VDict
                       [(VStr (lit "properties"),
                         VDict
                           [(VStr (lit "name"),
                             VDict [(VStr (lit "type"), VStr (lit "string"));
                                    (VStr (lit "description"),
                                     VStr (lit "Full name"))]);
                            (VStr (lit "born"),
                             VDict [(VStr (lit "type"), VStr (lit "string"));
                                    (VStr (lit "format"), VStr (lit "date"))])]);
                        (VStr (lit "required"), VList [VStr (lit "name")])]);
                    (VStr (lit "example"), VDict [])])])])]) []
  = Ok [lit "Body:";
        lit "  Content-Type: application/json";
        lit "  * name: Full name (string)";
        lit "  * born:  (string, date)";
        nl :: lit "  Required body properties: name";
        nl :: lit "  Example:";
        lit "      ...";
        []].
Proof. reflexivity. Qed.

Example add_responses_sample :
  @add_responses example_runtime
    (VDict
       [(VStr (lit "responses"),
         VDict
           [(VInt 200,
             VDict
               [(VStr (lit "description"), VStr (lit "OK"));
                (VStr (lit "content"),
                 VDict
                   [(VStr (lit "application/json"),
                     VDict [(VStr (lit "schema"),
                             VDict [(VStr (lit "example"), VInt 1)])])])]);
            (VInt 404, VDict [])])]) []
  = Ok [lit "Responses:";
        lit "  * 200: OK";
        nl :: lit "    Example (application/json):";
        [];
        lit "      ...";
        lit "  * 404: ";
        []].
Proof. reflexivity. Qed.

(** A document with a path-level [parameters] key, an operation without
    tags and the sample operation: one warning and two entries. *)
Example extract_openapi_docs_sample :
  @extract_openapi_docs example_runtime
    (VDict
       [(VStr (lit "openapi"), VStr (lit "3.0.0"));
        (VStr (lit "paths"),
         VDict
           [(VStr (lit "/users/{id}"),
             VDict
               [(VStr (lit "parameters"), VList []);
                (VStr (lit "delete"),
                 VDict [(VStr (lit "summary"), VStr (lit "Delete User"))]);
                (VStr (lit "get"), VDict example_operation)])])])
  = Ok (mk_state
          [((VStr (lit "Users"), lit "GET", VStr (lit "/users/{id}"),
             VStr (lit "Get User")), join [nl] example_docs);
           ((VStr (lit "Admin"), lit "GET", VStr (lit "/users/{id}"),
             VStr (lit "Get User")), join [nl] example_docs)]
          [lit "Warning: Missing tags or summary for DELETE /users/{id}"]).
Proof. reflexivity. Qed.

(** A path item that is not a mapping makes the extractor raise. *)
Example extract_openapi_docs_raises :
  @extract_openapi_docs example_runtime
    (VDict [(VStr (lit "paths"),
             VDict [(VStr (lit "/users"), VList [])])])
  = Raise AttributeError.
Proof. reflexivity. Qed.

(* ================================================================== *)
(** * Further properties *)
(* ================================================================== *)

(* ------------------------------------------------------------------ *)
(** ** Backups and working files name each other *)
(* ------------------------------------------------------------------ *)

Module RoundTripFacts.

Lemma contains_cons_false (c : char) (s old : str) :
  contains (c :: s) old = false ->
  startswith (c :: s) old = false /\ contains s old = false.
Proof. cbn [contains]. intros H. apply orb_false_iff in H. exact H. Qed.

Lemma contains_app_r_false (a r old : str) :
  contains (a ++ r) old = false -> contains r old = false.
Proof.
  intros H. destruct (contains r old) eqn:E; [|reflexivity].
  apply contains_iff in E as [x [y ->]].
  assert (contains (a ++ x ++ old ++ y) old = true) as E'.
  { apply contains_iff. exists (a ++ x), y. rewrite <- app_assoc. reflexivity. }
  congruence.
Qed.

Lemma contains_app_l_false (a r old : str) :
  contains (a ++ r) old = false -> contains a old = false.
Proof.
  intros H. destruct (contains a old) eqn:E; [|reflexivity].
  rewrite (contains_app_l _ _ r E) in H. discriminate.
Qed.

Lemma startswith_contains (s old : str) :
  startswith s old = true -> contains s old = true.
Proof. intros H. destruct s; simpl in *; rewrite H; reflexivity. Qed.

(** Replacing [.bak] by [.bru] undoes the replacement of [.bru] by [.bak]
    in a text that has no [.bak]. *)
Lemma bru_file_of_backup_path (s : str) :
  contains s (lit ".bak") = false -> bru_file_of (backup_path s) = s.
Proof.
  unfold bru_file_of, backup_path.
  remember (length s) as n eqn:Hn. revert s Hn.
  induction n as [n IH] using lt_wf_ind. intros s Hn Hs.
  destruct s as [|c s]; [reflexivity|].
  destruct (startswith (c :: s) (lit ".bru")) eqn:E.
  - apply startswith_iff in E as [r Hr]. rewrite Hr in *.
    rewrite replace_hit by discriminate.
    rewrite replace_hit by discriminate.
    f_equal. apply (IH (length r)); [|reflexivity|].
    + rewrite Hn, length_app. simpl. lia.
    + apply (contains_app_r_false _ _ _ Hs).
  - rewrite replace_miss by exact E.
    apply contains_cons_false in Hs as [Hc Hs].
    rewrite replace_miss.
    + f_equal. apply (IH (length s)); [|reflexivity|exact Hs].
      rewrite Hn. simpl. lia.
    + destruct (startswith (c :: replace s (lit ".bru") (lit ".bak")) (lit ".bak"))
        eqn:E'; [|reflexivity].
      change (lit ".bak") with (46%N :: lit "bak") in E' at 2.
      cbn [startswith] in E'. apply andb_true_iff in E' as [E1 E2].
      change (lit ".bak") with (46%N :: lit "bak") in E2.
      apply replace_keeps_head in E2; [|discriminate | reflexivity].
      change (lit ".bak") with (46%N :: lit "bak") in Hc.
      cbn [startswith] in Hc. rewrite E1, E2 in Hc. discriminate.
Qed.

(** A match of [old] in [a ++ sep :: b] lies in [a] when [sep] is not a
    character of [old]. *)
Lemma startswith_before_sep (old a : str) (sep : char) (b : str) :
  forallb (fun x => negb (N.eqb x sep)) old = true ->
  startswith (a ++ sep :: b) old = startswith a old.
Proof.
  revert a. induction old as [|o old IH]; intros a Hold; [reflexivity|].
  simpl in Hold. apply andb_true_iff in Hold as [Ho Hold].
  destruct a as [|c a]; cbn [app startswith].
  - apply negb_true_iff in Ho. rewrite Ho. reflexivity.
  - rewrite IH by exact Hold. reflexivity.
Qed.

(** [replace] works on the two sides of such a character separately. *)
Lemma replace_app_sep (old new a : str) (sep : char) (b : str) :
  old <> [] ->
  forallb (fun x => negb (N.eqb x sep)) old = true ->
  replace (a ++ sep :: b) old new
  = replace a old new ++ sep :: replace b old new.
Proof.
  intros Hne Hold.
  remember (length a) as n eqn:Hn. revert a Hn.
  induction n as [n IH] using lt_wf_ind. intros a Hn.
  destruct a as [|c a].
  - rewrite replace_nil by exact Hne. cbn [app].
    apply replace_miss. change (sep :: b) with ([] ++ sep :: b).
    rewrite startswith_before_sep by exact Hold.
    destruct old; [congruence | reflexivity].
  - destruct (startswith (c :: a) old) eqn:E.
    + apply startswith_iff in E as [r Hr]. rewrite Hr.
      rewrite <- app_assoc.
      rewrite !replace_hit by exact Hne.
      rewrite <- app_assoc. f_equal.
      apply (IH (length r)); [|reflexivity].
      rewrite Hn, Hr, length_app. destruct old; [congruence | simpl; lia].
    + cbn [app]. rewrite replace_miss.
      * rewrite replace_miss by exact E. cbn [app]. f_equal.
        apply (IH (length a)); [|reflexivity]. rewrite Hn. simpl. lia.
      * change (c :: a ++ sep :: b) with ((c :: a) ++ sep :: b).
        rewrite startswith_before_sep by exact Hold. exact E.
Qed.

Lemma backup_path_absolute (name : str) :
  startswith (backup_path name) (lit "/") = startswith name (lit "/").
Proof.
  destruct (startswith name (lit "/")) eqn:E.
  - apply startswith_iff in E as [r ->]. unfold backup_path.
    change (lit "/" ++ r) with (47%N :: r).
    rewrite replace_miss by reflexivity. reflexivity.
  - destruct (startswith (backup_path name) (lit "/")) eqn:E'; [|reflexivity].
    unfold backup_path in E'.
    change (lit ".bak") with (46%N :: lit "bak") in E'.
    apply replace_keeps_head in E'; [congruence | discriminate | reflexivity].
Qed.

End RoundTripFacts.
Import RoundTripFacts.

(** X1.  The name that revert derives from the backup name of a file is
    the name of the file again exactly when the name of the file does not
    contain [.bak]. *)
Theorem backup_name_round_trip (name : str) :
  bru_file_of (backup_path name) = name <-> contains name (lit ".bak") = false.
Proof.
  split.
  - intros H. rewrite <- H. apply bru_file_of_no_bak.
  - apply bru_file_of_backup_path.
Qed.

Example backup_name_round_trip_ok :
  bru_file_of (backup_path (lit "Get User.bru")) = lit "Get User.bru".
Proof. reflexivity. Qed.

Example backup_name_round_trip_lost :
  bru_file_of (backup_path (lit "Get.bak.bru")) = lit "Get.bru.bru".
Proof. reflexivity. Qed.

(** X2.  In a directory whose path does not contain [.bru], the backup of
    a file is written into that directory, under the backup name of the
    file: the replacement of line 208, which is applied to the joined
    path, changes the file name only. *)
Theorem backup_path_stays_in_directory (tag_dir bru_file : str) :
  contains tag_dir (lit ".bru") = false ->
  backup_path (path_join tag_dir bru_file)
  = path_join tag_dir (backup_path bru_file).
Proof.
  intros Hdir. unfold path_join. rewrite backup_path_absolute.
  destruct (startswith bru_file (lit "/")); [reflexivity|].
  destruct tag_dir as [|c d]; [reflexivity|].
  destruct (endswith (c :: d) (lit "/")) eqn:E.
  - apply endswith_iff in E as [a Ha]. rewrite Ha in *.
    rewrite <- app_assoc. unfold backup_path.
    change (lit "/" ++ bru_file) with (47%N :: bru_file).
    rewrite replace_app_sep by (discriminate || reflexivity).
    rewrite replace_absent;
      [rewrite <- app_assoc; reflexivity | discriminate |].
    apply (contains_app_l_false _ _ _ Hdir).
  - unfold backup_path.
    change (lit "/" ++ bru_file) with (47%N :: bru_file).
    rewrite replace_app_sep by (discriminate || reflexivity).
    rewrite replace_absent by (discriminate || exact Hdir).
    reflexivity.
Qed.

Lemma backup_path_stays_in_directory_witness :
  backup_path (path_join (lit "/ws/Users") (lit "Get User.bru"))
  = path_join (lit "/ws/Users") (lit "Get User.bak").
Proof.
  apply (backup_path_stays_in_directory (lit "/ws/Users") (lit "Get User.bru")).
  reflexivity.
Defined.

(* ------------------------------------------------------------------ *)
(** ** The patcher, whatever the content of the file *)
(* ------------------------------------------------------------------ *)

Module InjectFacts.

Lemma contains_middle (a s b : str) : contains (a ++ s ++ b) s = true.
Proof. apply contains_iff. exists a, b. reflexivity. Qed.

Lemma forallb_not_brace_body (docs : str) :
  forallb not_brace (nl :: docs ++ [nl]) = forallb not_brace docs.
Proof.
  cbn [forallb]. rewrite forallb_app. cbn [forallb].
  change (not_brace nl) with true. rewrite andb_true_r. reflexivity.
Qed.

(** The block that the patcher writes is in the language of its pattern
    exactly when the text has no brace. *)
Lemma docs_element_is_block (docs : str) :
  block docs_kw (docs_element docs) <-> forallb not_brace docs = true.
Proof.
  rewrite docs_element_block. split.
  - intros [ws [body [E [Hws Hbody]]]].
    unfold block_text in E. apply app_inv_head in E.
    destruct ws as [|w ws]; [discriminate|].
    injection E as <- E.
    destruct ws as [|w' ws].
    + injection E as E.
      change (nl :: (docs ++ [nl]) ++ [rbrace])
        with ((nl :: docs ++ [nl]) ++ [rbrace]) in E.
      apply app_inj_tail in E as [E _].
      rewrite <- E in Hbody. rewrite forallb_not_brace_body in Hbody.
      exact Hbody.
    + injection E as <- _. discriminate.
  - intros H. exists (lit " "), (nl :: docs ++ [nl]).
    split; [reflexivity|]. split; [reflexivity|].
    rewrite forallb_not_brace_body. exact H.
Qed.

(** Every character of a block but the last is not a closing brace. *)
Lemma block_init (m : str) :
  block docs_kw m ->
  exists init,
    m = init ++ [rbrace]
    /\ forallb (fun c => negb (N.eqb c rbrace)) init = true
    /\ exists init', init = 100%N :: init'.
Proof.
  intros [ws [body [-> [Hws Hbody]]]].
  exists (docs_kw ++ ws ++ [lbrace] ++ body). split; [|split].
  - unfold block_text. repeat rewrite <- app_assoc. reflexivity.
  - rewrite !forallb_app. cbn [forallb].
    apply andb_true_iff. split; [reflexivity|].
    apply andb_true_iff. split; [|apply andb_true_iff; split; [reflexivity|]].
    + rewrite forallb_forall in *. intros c Hc. specialize (Hws c Hc).
      destruct (N.eqb_spec c rbrace) as [->|]; [discriminate | reflexivity].
    + rewrite forallb_forall in *. intros c Hc. specialize (Hbody c Hc).
      unfold not_brace in Hbody. apply andb_true_iff in Hbody. apply Hbody.
  - eexists. reflexivity.
Qed.

(** A block that starts before a closing brace ends at that brace or
    before it. *)
Lemma block_before_brace (A Z pre' m' post' : str) :
  block docs_kw m' ->
  A ++ [rbrace] ++ Z = pre' ++ m' ++ post' ->
  length pre' <= length A ->
  exists rest, A ++ [rbrace] = pre' ++ m' ++ rest.
Proof.
  intros Hm E Hle.
  destruct (block_init _ Hm) as [init [-> [Hinit [init' Hd]]]].
  rewrite <- app_assoc in E. cbn [app] in E.
  apply app_eq_app in E as [l [[E1 E2] | [E1 E2]]].
  - symmetry in E2.
    apply app_eq_app in E2 as [l2 [[E3 E4] | [E3 E4]]].
    + destruct l2 as [|x l2].
      * rewrite app_nil_r in E3. subst. exists [].
        rewrite app_nil_r, <- app_assoc. reflexivity.
      * injection E4 as <- E4. subst. exists (l2 ++ [rbrace]).
        repeat (rewrite <- app_assoc; cbn [app]). reflexivity.
    + destruct l2 as [|x l2].
      * rewrite app_nil_r in E3. subst. exists [].
        rewrite app_nil_r, <- app_assoc. reflexivity.
      * injection E4 as <- _. rewrite E3, forallb_app in Hinit.
        apply andb_true_iff in Hinit as [_ Hinit]. discriminate.
  - subst pre'. rewrite length_app in Hle.
    destruct l as [|x l]; [|simpl in Hle; lia].
    subst init. discriminate.
Qed.

(** The content of a file without a docs block after an injection: the
    block is written between two parts of the content, at the start or
    behind the closing brace of the meta block. *)
Lemma update_content_no_docs (content : str) :
  ~ has_block docs_kw content ->
  exists P Q,
    (forall docs, update_content content docs = P ++ docs_element docs ++ Q)
    /\ ((P = [] /\ Q = [nl; nl] ++ content)
        \/ exists A, P = A ++ [rbrace; nl; nl] /\ content = A ++ [rbrace] ++ Q).
Proof.
  intros Hdocs. apply search_none_iff in Hdocs.
  unfold update_content. rewrite Hdocs.
  destruct (search meta_kw content) as [mm|] eqn:E.
  - apply search_from_some in E as [pre [post [[[Hs Hm] _] Hstart]]].
    destruct Hm as [ws [body [Hm _]]].
    exists ((pre ++ meta_kw ++ ws ++ lbrace :: body) ++ [rbrace; nl; nl]), post.
    assert (content
            = (pre ++ meta_kw ++ ws ++ lbrace :: body) ++ [rbrace] ++ post)
      as Hc.
    { rewrite Hs, Hm. unfold block_text.
      repeat (rewrite <- app_assoc; cbn [app]). reflexivity. }
    split.
    + intros docs. unfold m_end. rewrite Hstart. cbn [plus].
      assert (length pre + length (m_group mm)
              = length ((pre ++ meta_kw ++ ws ++ lbrace :: body) ++ [rbrace]))
        as ->.
      { rewrite Hm. unfold block_text. rewrite !length_app. simpl. lia. }
      rewrite Hc at 1 2.
      replace ((pre ++ meta_kw ++ ws ++ lbrace :: body) ++ [rbrace] ++ post)
        with (((pre ++ meta_kw ++ ws ++ lbrace :: body) ++ [rbrace]) ++ post)
        by (rewrite <- app_assoc; reflexivity).
      rewrite firstn_length_app, skipn_length_app.
      repeat (rewrite <- app_assoc; cbn [app]). reflexivity.
    + right. eexists. split; [reflexivity | exact Hc].
  - exists [], ([nl; nl] ++ content). split; [|left; auto].
    intros docs. reflexivity.
Qed.

(** After an injection of a text without braces into a file without a docs
    block, the first docs block of the file is the one just written. *)
Lemma injected_block_first (content P Q docs : str) :
  ~ has_block docs_kw content ->
  (P = [] /\ Q = [nl; nl] ++ content)
  \/ (exists A, P = A ++ [rbrace; nl; nl] /\ content = A ++ [rbrace] ++ Q) ->
  forallb not_brace docs = true ->
  first_block docs_kw P (docs_element docs) Q (P ++ docs_element docs ++ Q).
Proof.
  intros Hnone Hshape Hdocs.
  split; [split; [reflexivity | apply docs_element_is_block, Hdocs]|].
  intros pre' m' post' [E Hm].
  destruct Hshape as [[-> _] | [A [-> Hc]]]; [simpl; lia|].
  destruct (Nat.le_gt_cases (length (A ++ [rbrace; nl; nl])) (length pre'))
    as [Hle | Hgt]; [exact Hle | exfalso].
  rewrite length_app in Hgt. cbn [length] in Hgt.
  destruct (Nat.le_gt_cases (length pre') (length A)) as [Hin | Hout].
  - replace ((A ++ [rbrace; nl; nl]) ++ docs_element docs ++ Q)
      with (A ++ [rbrace] ++ ([nl; nl] ++ docs_element docs ++ Q)) in E
      by (repeat (rewrite <- app_assoc; cbn [app]); reflexivity).
    destruct (block_before_brace _ _ _ _ _ Hm E Hin) as [rest Hrest].
    apply Hnone. exists pre', m', (rest ++ Q). split; [|exact Hm].
    rewrite Hc, app_assoc, Hrest. repeat rewrite <- app_assoc. reflexivity.
  - destruct (block_init _ Hm) as [init [-> [_ [init' ->]]]].
    assert (nth (length pre')
              ((A ++ [rbrace; nl; nl]) ++ docs_element docs ++ Q) 0%N = 100%N)
      as Hd.
    { rewrite E. rewrite <- (Nat.add_0_r (length pre')).
      rewrite app_nth2_plus. reflexivity. }
    replace (length pre') with (length A + (length pre' - length A)) in Hd
      by lia.
    rewrite <- !app_assoc, app_nth2_plus in Hd.
    destruct (length pre' - length A) as [|[|[|k]]] eqn:Ek;
      try discriminate Hd; lia.
Qed.

(** The block just written does not occur in the content behind it. *)
Lemma injected_block_once (content P Q docs : str) :
  ~ has_block docs_kw content ->
  (P = [] /\ Q = [nl; nl] ++ content)
  \/ (exists A, P = A ++ [rbrace; nl; nl] /\ content = A ++ [rbrace] ++ Q) ->
  forallb not_brace docs = true ->
  contains Q (docs_element docs) = false.
Proof.
  intros Hnone Hshape Hdocs.
  apply docs_element_is_block in Hdocs.
  assert (forall a b, content = a ++ docs_element docs ++ b -> False) as Habs.
  { intros a b E. apply Hnone. exists a, (docs_element docs), b.
    split; assumption. }
  destruct (contains Q (docs_element docs)) eqn:E; [exfalso | reflexivity].
  destruct Hshape as [[_ ->] | [A [_ Hc]]].
  - cbn [app contains] in E.
    change (startswith (nl :: nl :: content) (docs_element docs)) with false in E.
    change (startswith (nl :: content) (docs_element docs)) with false in E.
    cbn [orb] in E. apply contains_iff in E as [a [b E]].
    apply (Habs a b E).
  - apply contains_iff in E as [a [b E]].
    apply (Habs (A ++ [rbrace] ++ a) b).
    rewrite Hc, E. repeat rewrite <- app_assoc. reflexivity.
Qed.

Lemma drop_while_all (p : char -> bool) (s : str) :
  forallb p s = true -> drop_while p s = [].
Proof.
  induction s as [|c s IH]; [reflexivity|]. simpl.
  intros H. apply andb_true_iff in H as [-> H]. exact (IH H).
Qed.

Lemma forallb_false_split (p : char -> bool) (s : str) :
  forallb p s = false -> exists x c y, s = x ++ c :: y /\ p c = false.
Proof.
  induction s as [|c s IH]; [discriminate|]. simpl.
  destruct (p c) eqn:E.
  - intros H. destruct (IH H) as [x [c' [y [-> Hc]]]].
    exists (c :: x), c', y. auto.
  - intros _. exists [], c, s. auto.
Qed.

Lemma rstrip_line_feed (s : str) : rstrip (s ++ [nl]) = rstrip s.
Proof. unfold rstrip. rewrite rev_app_distr. reflexivity. Qed.

(** The content of the block after a second text has been merged into
    it: the content of a block with the two texts. *)
Lemma merged_body (B1 B2 : str) :
  rstrip (nl :: B1 ++ [nl]) ++ [nl; nl] ++ B2 ++ [nl]
  = nl :: (if forallb isspace B1 then nl :: B2
           else rstrip B1 ++ [nl; nl] ++ B2) ++ [nl].
Proof.
  destruct (forallb isspace B1) eqn:E.
  - unfold rstrip. rewrite drop_while_all; [reflexivity|].
    rewrite forallb_forall in *. intros c Hc. apply in_rev in Hc.
    cbn [In] in Hc. rewrite in_app_iff in Hc. cbn [In] in Hc.
    destruct Hc as [<- | [Hc | [<- | []]]]; auto.
  - apply forallb_false_split in E as [x [c [y [-> Hc]]]].
    replace (nl :: (x ++ c :: y) ++ [nl]) with ((nl :: x) ++ c :: (y ++ [nl]))
      by (cbn [app]; rewrite <- app_assoc; reflexivity).
    rewrite (rstrip_stop (nl :: x) c (y ++ [nl]) Hc).
    rewrite (rstrip_stop x c y Hc), rstrip_line_feed.
    repeat (rewrite <- app_assoc; cbn [app]). reflexivity.
Qed.

End InjectFacts.
Import InjectFacts.

(** X3.  When the content of a collection file has a docs block, the
    injection keeps the text before the first one, puts the merged block in
    its place, and replaces every later copy of the text of that block by
    the merged block as well; the rest of the content stays. *)
Theorem update_content_rewrites_every_copy (content pre ws A post B : str) :
  first_block docs_kw pre (block_text docs_kw ws A) post content ->
  let merged := block_text docs_kw ws (rstrip A ++ [nl; nl] ++ B ++ [nl]) in
  update_content content B
  = pre ++ merged ++ replace post (block_text docs_kw ws A) merged.
Proof.
  intros Hfirst merged.
  rewrite (update_content_docs _ _ _ _ B Hfirst).
  rewrite updated_docs_block. reflexivity.
Qed.

Lemma update_content_rewrites_every_copy_witness :
  update_content (lit "docs {a} x docs {a} y docs {b}") (lit "B")
  = [] ++ block_text docs_kw (lit " ") (rstrip (lit "a") ++ [nl; nl] ++ lit "B" ++ [nl])
    ++ replace (lit " x docs {a} y docs {b}") (block_text docs_kw (lit " ") (lit "a"))
         (block_text docs_kw (lit " ")
            (rstrip (lit "a") ++ [nl; nl] ++ lit "B" ++ [nl])).
Proof.
  apply (@update_content_rewrites_every_copy
           (lit "docs {a} x docs {a} y docs {b}") [] (lit " ") (lit "a")
           (lit " x docs {a} y docs {b}") (lit "B")).
  apply search_some_iff; reflexivity.
Defined.

(** X4.  Whatever the content of the collection file, the documentation
    text is part of the content that the patcher writes back. *)
Theorem update_content_holds_docs (bru_content docs : str) :
  contains (update_content bru_content docs) docs = true.
Proof.
  destruct (search docs_kw bru_content) as [mm|] eqn:E.
  - pose proof E as E'.
    apply search_from_some in E' as [pre [post [Hfirst _]]].
    rewrite (update_content_docs _ _ _ _ docs Hfirst). unfold updated_docs.
    cbv zeta.
    replace (pre ++ (strip (removelast (m_group mm)) ++ [nl; nl] ++ docs
                     ++ [nl; rbrace])
             ++ replace post (m_group mm)
                  (strip (removelast (m_group mm)) ++ [nl; nl] ++ docs
                   ++ [nl; rbrace]))
      with ((pre ++ strip (removelast (m_group mm)) ++ [nl; nl]) ++ docs
            ++ ([nl; rbrace]
                ++ replace post (m_group mm)
                     (strip (removelast (m_group mm)) ++ [nl; nl] ++ docs
                      ++ [nl; rbrace])))
      by (repeat (rewrite <- app_assoc; cbn [app]); reflexivity).
    apply contains_middle.
  - unfold update_content. rewrite E. unfold docs_element.
    destruct (search meta_kw bru_content) as [mm|].
    + replace (firstn (m_end mm) bru_content ++ [nl; nl]
               ++ (lit "docs {" ++ [nl] ++ docs ++ [nl; rbrace])
               ++ skipn (m_end mm) bru_content)
        with ((firstn (m_end mm) bru_content ++ [nl; nl] ++ lit "docs {" ++ [nl])
              ++ docs ++ ([nl; rbrace] ++ skipn (m_end mm) bru_content))
        by (repeat (rewrite <- app_assoc; cbn [app]); reflexivity).
      apply contains_middle.
    + replace ((lit "docs {" ++ [nl] ++ docs ++ [nl; rbrace]) ++ [nl; nl]
               ++ bru_content)
        with ((lit "docs {" ++ [nl]) ++ docs
              ++ ([nl; rbrace] ++ [nl; nl] ++ bru_content))
        by (repeat (rewrite <- app_assoc; cbn [app]); reflexivity).
      apply contains_middle.
Qed.

(** X5.  The docs pattern matches the block that the patcher has written,
    at the place where it has written it and whatever follows it, exactly
    when the documentation text contains no brace. *)
Theorem docs_element_matches_own_pattern (docs rest : str) :
  match_block docs_kw (docs_element docs ++ rest) = Some (docs_element docs)
  <-> forallb not_brace docs = true.
Proof.
  rewrite <- docs_element_is_block. split.
  - intros H. apply match_block_sound in H. apply H.
  - apply match_block_complete.
Qed.

(** With a brace in the text, the pattern fails at the block or matches a
    span that ends inside the text. *)
Example docs_element_with_braces_not_found :
  search docs_kw (update_content (lit "get {u}") (lit "GET /users/{id}"))
  = None.
Proof. reflexivity. Qed.

Example docs_element_with_brace_cut :
  search docs_kw (update_content (lit "get {u}") (lit "a } b"))
  = Some (mk_match 0 (lit "docs {" ++ [nl] ++ lit "a }")).
Proof. reflexivity. Qed.

(** X6.  Two injections into a file that has no docs block, the first of
    a text without braces, leave the file as one injection of the joined
    text would, with one docs block that holds both texts: the first text
    without its trailing white space, a blank line and the second text; a
    first text of white space only leaves a line feed before the second
    text. *)
Theorem update_content_twice (content B1 B2 : str) :
  ~ has_block docs_kw content ->
  forallb not_brace B1 = true ->
  update_content (update_content content B1) B2
  = update_content content
      (if forallb isspace B1 then nl :: B2 else rstrip B1 ++ [nl; nl] ++ B2).
Proof.
  intros Hnone HB1.
  destruct (update_content_no_docs content Hnone) as [P [Q [Hupd Hshape]]].
  rewrite !Hupd.
  pose proof (injected_block_first content P Q B1 Hnone Hshape HB1) as Hfirst.
  rewrite (update_content_docs _ _ _ _ B2 Hfirst).
  rewrite replace_absent.
  - rewrite (docs_element_block B1), updated_docs_block.
    rewrite merged_body, <- docs_element_block. reflexivity.
  - destruct (docs_element B1) eqn:E; [discriminate E | discriminate].
  - apply (injected_block_once content P Q B1 Hnone Hshape HB1).
Qed.

Lemma update_content_twice_witness :
  update_content (update_content (lit "meta {a} get {u}") (lit "one ")) (lit "two")
  = update_content (lit "meta {a} get {u}")
      (if forallb isspace (lit "one ") then nl :: lit "two"
       else rstrip (lit "one ") ++ [nl; nl] ++ lit "two").
Proof.
  apply (@update_content_twice (lit "meta {a} get {u}") (lit "one ") (lit "two")).
  - apply search_none_iff. reflexivity.
  - reflexivity.
Defined.

(** Injecting the same text twice leaves it twice in the block. *)
Example update_content_same_text_twice :
  update_content (update_content (lit "get {u}") (lit "one")) (lit "one")
  = lit "docs {" ++ [nl] ++ lit "one" ++ [nl; nl] ++ lit "one" ++ [nl]
    ++ lit "}" ++ [nl; nl] ++ lit "get {u}".
Proof. reflexivity. Qed.

Example update_content_twice_sample :
  update_content (update_content (lit "meta {a} get {u}") (lit "one ")) (lit "two")
  = lit "meta {a}" ++ [nl; nl] ++ lit "docs {" ++ [nl] ++ lit "one" ++ [nl; nl]
    ++ lit "two" ++ [nl] ++ lit "} get {u}".
Proof. reflexivity. Qed.

(* ------------------------------------------------------------------ *)
(** ** The search for the collection file of an operation *)
(* ------------------------------------------------------------------ *)

Module MatcherFacts.

Lemma forallb_drop_while (p q : char -> bool) (s : str) :
  forallb p s = true -> forallb p (drop_while q s) = true.
Proof.
  induction s as [|c s IH]; [reflexivity|]. intros H. cbn [drop_while].
  destruct (q c); [|exact H].
  simpl in H. apply andb_true_iff in H as [_ H]. exact (IH H).
Qed.

Lemma forallb_rev (p : char -> bool) (s : str) :
  forallb p (rev s) = forallb p s.
Proof.
  induction s as [|c s IH]; [reflexivity|]. cbn [rev forallb].
  rewrite forallb_app, IH. cbn [forallb]. rewrite andb_true_r.
  apply andb_comm.
Qed.

Lemma forallb_strip (p : char -> bool) (s : str) :
  forallb p s = true -> forallb p (strip s) = true.
Proof.
  intros H. unfold strip, rstrip, lstrip.
  rewrite forallb_rev. apply forallb_drop_while.
  rewrite forallb_rev. apply forallb_drop_while. exact H.
Qed.

Lemma forallb_filter_same (p : char -> bool) (s : str) :
  forallb p (filter p s) = true.
Proof.
  induction s as [|c s IH]; [reflexivity|]. cbn [filter].
  destruct (p c) eqn:E; [|exact IH]. cbn [forallb]. rewrite E. exact IH.
Qed.

Lemma filter_all (p : char -> bool) (s : str) :
  forallb p s = true -> filter p s = s.
Proof.
  induction s as [|c s IH]; [reflexivity|]. cbn [forallb filter].
  intros H. apply andb_true_iff in H as [-> H]. rewrite (IH H). reflexivity.
Qed.

Lemma drop_while_idem (p : char -> bool) (s : str) :
  drop_while p (drop_while p s) = drop_while p s.
Proof.
  induction s as [|c s IH]; [reflexivity|]. cbn [drop_while].
  destruct (p c) eqn:E; [exact IH|]. cbn [drop_while]. rewrite E. reflexivity.
Qed.

Lemma rstrip_idem (s : str) : rstrip (rstrip s) = rstrip s.
Proof. unfold rstrip. rewrite rev_involutive, drop_while_idem. reflexivity. Qed.

Lemma lstrip_head (s : str) :
  lstrip s = [] \/ exists c r, lstrip s = c :: r /\ isspace c = false.
Proof.
  unfold lstrip. induction s as [|c s IH]; [left; reflexivity|].
  cbn [drop_while]. destruct (isspace c) eqn:E; [exact IH|].
  right. exists c, s. auto.
Qed.

Lemma strip_idem (s : str) : strip (strip s) = strip s.
Proof.
  unfold strip.
  destruct (lstrip_head s) as [E | [c [r [E Hc]]]]; rewrite E.
  - reflexivity.
  - pose proof (rstrip_stop [] c r Hc) as E1. cbn [app] in E1.
    pose proof (rstrip_stop [] c (rstrip r) Hc) as E2. cbn [app] in E2.
    rewrite E1. unfold lstrip at 1. cbn [drop_while]. rewrite Hc.
    rewrite E2, rstrip_idem. reflexivity.
Qed.

Lemma strip_spaces (s : str) : forallb isspace s = true -> strip s = [].
Proof.
  intros H. unfold strip, lstrip. rewrite drop_while_all by exact H.
  reflexivity.
Qed.

Lemma summary_char_ascii (c : char) : summary_char c = true -> is_ascii c = true.
Proof.
  unfold summary_char, is_ascii. intros H. apply N.ltb_lt.
  repeat (apply orb_true_iff in H as [H | H]);
    try (apply andb_true_iff in H as [_ H]; apply N.leb_le in H; lia).
  apply N.eqb_eq in H. lia.
Qed.

Lemma contains_nil (s : str) : contains s [] = true.
Proof. destruct s; reflexivity. Qed.

Lemma filter_filter {A : Type} (p q : A -> bool) (l : list A) :
  filter q (filter p l) = filter (fun x => p x && q x) l.
Proof.
  induction l as [|x l IH]; [reflexivity|]. cbn [filter].
  destruct (p x); cbn [filter andb]; rewrite IH; reflexivity.
Qed.

Lemma filter_true {A : Type} (p : A -> bool) (l : list A) :
  (forall x, In x l -> p x = true) -> filter p l = l.
Proof.
  induction l as [|x l IH]; [reflexivity|]. intros H. cbn [filter].
  rewrite (H x (or_introl eq_refl)). f_equal. apply IH.
  intros y Hy. apply H. right. exact Hy.
Qed.

(** The first element that a filter keeps. *)
Lemma filter_first {A : Type} (p : A -> bool) (l : list A) (x : A)
  (rest : list A) :
  filter p l = x :: rest <->
  exists before after,
    l = before ++ x :: after
    /\ p x = true
    /\ (forall y, In y before -> p y = false)
    /\ rest = filter p after.
Proof.
  split.
  - induction l as [|y l IH]; [discriminate|]. cbn [filter].
    destruct (p y) eqn:E.
    + intros H. injection H as -> <-. exists [], l. simpl. tauto.
    + intros H. destruct (IH H) as [before [after [-> [Hx [Hb ->]]]]].
      exists (y :: before), after. repeat split; auto.
      intros z [<- | Hz]; auto.
  - intros [before [after [-> [Hx [Hb ->]]]]].
    rewrite filter_app. cbn [filter]. rewrite Hx.
    replace (filter p before) with (@nil A); [reflexivity|].
    symmetry. induction before as [|y before IH]; [reflexivity|].
    cbn [filter]. rewrite (Hb y (or_introl eq_refl)).
    apply IH. intros z Hz. apply Hb. right. exact Hz.
Qed.

Lemma filter_nonempty {A : Type} (p : A -> bool) (l : list A) :
  negb (match filter p l with [] => true | _ :: _ => false end) = existsb p l.
Proof.
  induction l as [|y l IH]; [reflexivity|]. cbn [filter existsb].
  destruct (p y); [reflexivity | exact IH].
Qed.

Section Select.

Context `{Unicode}.

Lemma matching_files_filter (needle : str) (listing : list str) :
  matching_files needle (bru_files_of listing)
  = filter (fun f => endswith f (lit ".bru") && matches needle f) listing.
Proof. apply filter_filter. Qed.

End Select.

End MatcherFacts.
Import MatcherFacts.

(** The allowed characters that are white space: the space. *)
Lemma summary_space (c : char) :
  summary_char c = true -> isspace c = true -> N.eqb 32 c = true.
Proof.
  unfold summary_char, isspace. intros Hs Hw. apply N.eqb_eq.
  repeat match goal with
         | H : (_ || _)%bool = true |- _ => apply orb_true_iff in H as [H | H]
         | H : (_ && _)%bool = true |- _ => apply andb_true_iff in H as [? H]
         | H : (_ <=? _)%N = true |- _ => apply N.leb_le in H
         | H : (_ =? _)%N = true |- _ => apply N.eqb_eq in H
         end; lia.
Qed.

(** A text is the white space that [strip] takes away at its start, what
    [strip] leaves, and the white space that it takes away at its end. *)
Lemma strip_parts (s : str) :
  exists lead trail,
    s = lead ++ strip s ++ trail
    /\ forallb isspace lead = true /\ forallb isspace trail = true.
Proof.
  exists (take_while isspace s),
    (rev (take_while isspace (rev (lstrip s)))).
  split; [|split].
  - unfold strip, rstrip.
    rewrite <- rev_app_distr, take_drop_while, rev_involutive.
    unfold lstrip. symmetry. apply take_drop_while.
  - apply take_while_all.
  - rewrite forallb_rev. apply take_while_all.
Qed.

(** X7.  The text that a summary is matched by is made of the ASCII
    letters, digits and spaces of the summary, in their order, without the
    spaces at the two ends: every other character of the summary is
    dropped, not replaced.  So it has only these characters and no white
    space at its ends, and cleaning it again changes nothing. *)
Theorem safe_summary_clean (summary : str) :
  (exists lead trail,
      filter summary_char summary = lead ++ safe_summary summary ++ trail
      /\ forallb (N.eqb 32) lead = true
      /\ forallb (N.eqb 32) trail = true)
  /\ forallb summary_char (safe_summary summary) = true
  /\ forallb is_ascii (safe_summary summary) = true
  /\ strip (safe_summary summary) = safe_summary summary
  /\ safe_summary (safe_summary summary) = safe_summary summary.
Proof.
  assert (forallb summary_char (safe_summary summary) = true) as Hall.
  { apply forallb_strip, forallb_filter_same. }
  split.
  { destruct (strip_parts (filter summary_char summary))
      as [lead [trail [E [Hlead Htrail]]]].
    exists lead, trail. split; [exact E|].
    pose proof (forallb_filter_same summary_char summary) as Hkept.
    rewrite E, !forallb_app in Hkept.
    apply andb_true_iff in Hkept as [Hl Hkept].
    apply andb_true_iff in Hkept as [_ Ht].
    rewrite forallb_forall in Hl, Ht, Hlead, Htrail.
    split; apply forallb_forall; intros c Hc; apply summary_space; auto. }
  split; [exact Hall|]. split; [|split; [apply strip_idem|]].
  - rewrite forallb_forall in *.
    intros c Hc. apply summary_char_ascii, Hall, Hc.
  - unfold safe_summary at 1. rewrite filter_all by exact Hall.
    apply strip_idem.
Qed.

Example safe_summary_sample :
  safe_summary (lit " Get user's e-mail (v2)! ") = lit "Get users email v2".
Proof. reflexivity. Qed.

(** X8.  The collection file of an operation is the first entry of the
    directory listing that ends with [.bru] and whose lower-case name
    contains the lower-case cleaned summary, also when a later entry fits
    better; the warning for several matches is printed exactly when a
    later entry matches as well.  No entry is chosen exactly when no entry
    matches. *)
Theorem select_file_first_match `{Unicode} (summary : str) (listing : list str) :
  let fits := fun f =>
    endswith f (lit ".bru") && matches (safe_summary summary) f in
  (forall bru_file multiple,
      select_file summary listing = UseFile bru_file multiple <->
      exists before after,
        listing = before ++ bru_file :: after
        /\ fits bru_file = true
        /\ (forall f, In f before -> fits f = false)
        /\ multiple = existsb fits after)
  /\ (select_file summary listing = NoMatchingFile <->
      forall f, In f listing -> fits f = false).
Proof.
  intros fits. unfold select_file. rewrite matching_files_filter. fold fits.
  split.
  - intros bru_file multiple. split.
    + destruct (filter fits listing) as [|f rest] eqn:E; [discriminate|].
      intros Hsel. injection Hsel as -> <-.
      apply filter_first in E as [before [after [-> [Hf [Hb ->]]]]].
      exists before, after. repeat split; auto.
      rewrite <- filter_nonempty. cbn [length].
      destruct (filter fits after); reflexivity.
    + intros [before [after [-> [Hf [Hb ->]]]]].
      assert (filter fits (before ++ bru_file :: after)
              = bru_file :: filter fits after) as ->.
      { apply filter_first. exists before, after. auto. }
      rewrite <- filter_nonempty. cbn [length].
      destruct (filter fits after); reflexivity.
  - split.
    + destruct (filter fits listing) as [|f rest] eqn:E; [|discriminate].
      intros _ f Hf. destruct (fits f) eqn:Ef; [|reflexivity].
      assert (In f (filter fits listing)) as Hin by (apply filter_In; auto).
      rewrite E in Hin. destruct Hin.
    + intros Hnone. destruct (filter fits listing) as [|f rest] eqn:E;
        [reflexivity|].
      assert (In f (filter fits listing)) as Hin by (rewrite E; left; auto).
      apply filter_In in Hin as [Hin Hf]. rewrite (Hnone f Hin) in Hf.
      discriminate.
Qed.

(** X9.  A summary without an ASCII letter or digit, such as one in
    another script, is cleaned to the empty text, which every name
    contains: the first [.bru] entry of the listing is chosen, whatever
    its name, and the warning is printed when there are several. *)
Theorem select_file_empty_needle `{Unicode} (summary : str) (listing : list str) :
  (forall c, In c summary -> summary_char c = true -> c = 32%N) ->
  safe_summary summary = []
  /\ select_file summary listing
     = match bru_files_of listing with
       | [] => NoMatchingFile
       | bru_file :: rest => UseFile bru_file (1 <? length (bru_file :: rest))
       end.
Proof.
  intros Hsummary.
  assert (safe_summary summary = []) as Hsafe.
  { apply strip_spaces. apply forallb_forall. intros c Hc.
    apply filter_In in Hc as [Hc Hchar].
    rewrite (Hsummary c Hc Hchar). reflexivity. }
  split; [exact Hsafe|].
  unfold select_file, matching_files. rewrite Hsafe.
  rewrite filter_true; [reflexivity|].
  intros f _. unfold matches.
  rewrite (lower_ascii []) by reflexivity. apply contains_nil.
Qed.

Lemma select_file_empty_needle_witness :
  safe_summary [12518; 12540; 12470; 12540; 63]%N = []
  /\ @select_file example_unicode [12518; 12540; 12470; 12540; 63]%N
       [lit "folder.json"; lit "Create.bru"; lit "Get.bru"]
     = match bru_files_of [lit "folder.json"; lit "Create.bru"; lit "Get.bru"]
       with
       | [] => NoMatchingFile
       | bru_file :: rest => UseFile bru_file (1 <? length (bru_file :: rest))
       end.
Proof.
  apply (@select_file_empty_needle example_unicode).
  intros c Hc Hchar. cbn [In] in Hc.
  repeat (destruct Hc as [<- | Hc]; [discriminate Hchar|]).
  destruct Hc.
Defined.

Example select_file_empty_needle_sample :
  @select_file example_unicode [12518; 12540; 12470; 12540; 63]%N
    [lit "folder.json"; lit "Create.bru"; lit "Get.bru"]
  = UseFile (lit "Create.bru") true.
Proof. reflexivity. Qed.

Example select_file_substring :
  @select_file example_unicode (lit "Get User")
    [lit "Forget Users.bru"; lit "Get User.bru"; lit "get user.txt"]
  = UseFile (lit "Forget Users.bru") true.
Proof. reflexivity. Qed.

Example select_file_punctuation :
  @select_file example_unicode (lit "Get user's e-mail")
    [lit "Get user's e-mail.bru"]
  = NoMatchingFile.
Proof. reflexivity. Qed.

(* ------------------------------------------------------------------ *)
(** ** The doc extractor on a whole document *)
(* ------------------------------------------------------------------ *)

Module DocumentFacts.

Lemma for_each_app {A S : Type} (body : S -> A -> result S) (l l' : list A)
  (s : S) :
  for_each body (l ++ l') s = (s' <- for_each body l s ;; for_each body l' s').
Proof.
  revert s. induction l as [|x l IH]; intros s; [reflexivity|].
  cbn [app for_each]. destruct (body s x) as [s1|e]; cbn [bind]; [apply IH|].
  reflexivity.
Qed.

Lemma Ok_inj {A : Type} (a b : A) : Ok a = Ok b -> a = b.
Proof. intros E. injection E as E. exact E. Qed.

(** A property that every step of a loop keeps holds at its end. *)
Lemma for_each_keeps {A S : Type} (P : S -> Prop) (body : S -> A -> result S)
  (l : list A) :
  (forall s x s', In x l -> body s x = Ok s' -> P s -> P s') ->
  forall s s', for_each body l s = Ok s' -> P s -> P s'.
Proof.
  induction l as [|x l IH]; intros Hstep s s' Hrun Hs.
  - injection Hrun as <-. exact Hs.
  - cbn [for_each] in Hrun. inv_bind Hrun as s1 H1.
    apply (IH (fun s0 y s0' Hy => Hstep s0 y s0' (or_intror Hy)) s1 s' Hrun).
    apply (Hstep s x s1 (or_introl eq_refl) H1 Hs).
Qed.

(** A step that raises in every state makes the loop raise. *)
Lemma for_each_raises {A S : Type} (body : S -> A -> result S) (l : list A)
  (x : A) :
  In x l -> (forall s, exists e, body s x = Raise e) ->
  forall s, exists e, for_each body l s = Raise e.
Proof.
  intros Hin Hx. induction l as [|y l IH]; [destruct Hin|].
  intros s. cbn [for_each]. destruct Hin as [-> | Hin].
  - destruct (Hx s) as [e ->]. exists e. reflexivity.
  - destruct (body s y) as [s1|e]; cbn [bind]; [apply (IH Hin)|].
    exists e. reflexivity.
Qed.

Lemma existsb_method_in (m : str) :
  existsb (str_eqb m) http_methods = true -> In m http_methods.
Proof.
  intros H. apply existsb_exists in H as [x [Hx E]].
  apply str_eqb_eq in E. subst. exact Hx.
Qed.

(** The upper-case forms of two method names differ. *)
Lemma upper_method_inj (m m' : str) :
  In m http_methods -> In m' http_methods ->
  str_eqb (upper m') (upper m) = true -> m' = m.
Proof.
  unfold http_methods. cbn [In]. intros Hm Hm'.
  repeat match goal with
         | H : _ \/ _ |- _ => destruct H as [<- | H]
         | H : False |- _ => destruct H
         end;
    intros E; try reflexivity; vm_compute in E; discriminate E.
Qed.

Section Store.

Context `{Runtime}.

(** An operation that is not stored under a key leaves the entry of that
    key alone. *)
Lemma store_tag_frame m path summary text tags d d' k :
  for_each (store_tag m path summary text) tags d = Ok d' ->
  (forall tag, key_eqb (tag, upper m, path, summary) k = false) ->
  docs_lookup k d' = docs_lookup k d.
Proof.
  intros Hrun Hk. revert d Hrun.
  induction tags as [|tag tags IH]; intros d Hrun.
  - injection Hrun as <-. reflexivity.
  - cbn [for_each] in Hrun. inv_bind Hrun as d1 H1.
    unfold store_tag in H1.
    destruct (hashable tag && hashable path && hashable summary);
      [|discriminate].
    injection H1 as <-. rewrite (IH _ Hrun), docs_lookup_set, Hk. reflexivity.
Qed.

Lemma store_tag_keeps_text m path summary text tags d d' k :
  for_each (store_tag m path summary text) tags d = Ok d' ->
  docs_lookup k d = Some text -> docs_lookup k d' = Some text.
Proof.
  revert d. induction tags as [|tag tags IH]; intros d Hrun Hk.
  - injection Hrun as <-. exact Hk.
  - cbn [for_each] in Hrun. inv_bind Hrun as d1 H1.
    unfold store_tag in H1.
    destruct (hashable tag && hashable path && hashable summary);
      [|discriminate].
    injection H1 as <-. apply (IH _ Hrun).
    rewrite docs_lookup_set, Hk. destruct (key_eqb _ k); reflexivity.
Qed.

Lemma store_tag_lookup m path summary text tags d d' tag :
  for_each (store_tag m path summary text) tags d = Ok d' ->
  In tag tags ->
  docs_lookup (tag, upper m, path, summary) d' = Some text.
Proof.
  revert d. induction tags as [|t tags IH]; intros d Hrun Hin; [destruct Hin|].
  cbn [for_each] in Hrun. inv_bind Hrun as d1 H1.
  unfold store_tag in H1.
  destruct (hashable t && hashable path && hashable summary) eqn:Hh;
    [|discriminate].
  injection H1 as <-. destruct Hin as [-> | Hin]; [|apply (IH _ Hrun Hin)].
  apply (store_tag_keeps_text _ _ _ _ _ _ _ _ Hrun).
  rewrite docs_lookup_set, key_eqb_refl; [reflexivity | exact Hh].
Qed.

(** What an item of a path item does to the entry of a key of another
    path or another method: nothing. *)
Lemma extract_operation_frame path' st item st' tag M path summary :
  extract_operation path' st item = Ok st' ->
  py_eq path' path = false
  \/ (forall m', fst item = VStr m' -> In m' http_methods ->
                 str_eqb (upper m') M = false) ->
  docs_lookup (tag, M, path, summary) (s_docs st')
  = docs_lookup (tag, M, path, summary) (s_docs st).
Proof.
  intros Hrun Hother. destruct item as [k v]. unfold extract_operation in Hrun.
  destruct k as [| | |m'| |]; try (injection Hrun as <-; reflexivity).
  destruct (existsb (str_eqb m') http_methods) eqn:Em;
    [|injection Hrun as <-; reflexivity].
  inv_bind Hrun as tags Ht. inv_bind Hrun as summary' Hs.
  destruct (negb (truthy tags) || negb (truthy summary'));
    [injection Hrun as <-; reflexivity|].
  inv_bind Hrun as docs Hd. inv_bind Hrun as tag_list Hl.
  inv_bind Hrun as d Hstore. injection Hrun as <-. cbn [s_docs].
  apply (store_tag_frame _ _ _ _ _ _ _ _ Hstore).
  intros t. cbn [key_eqb].
  destruct Hother as [Hp | Hm].
  - rewrite Hp, andb_false_r. reflexivity.
  - rewrite (Hm m' eq_refl (existsb_method_in _ Em)), andb_false_r.
    reflexivity.
Qed.

Lemma extract_path_frame st item st' tag M path summary :
  extract_path st item = Ok st' ->
  py_eq (fst item) path = false ->
  docs_lookup (tag, M, path, summary) (s_docs st')
  = docs_lookup (tag, M, path, summary) (s_docs st).
Proof.
  destruct item as [path' path_item]. cbn [fst]. unfold extract_path.
  intros Hrun Hp. inv_bind Hrun as operations Ho.
  refine (for_each_keeps
            (fun s => docs_lookup (tag, M, path, summary) (s_docs s)
                      = docs_lookup (tag, M, path, summary) (s_docs st))
            (extract_operation path') operations _ st st' Hrun eq_refl).
  intros s x s' _ Hstep Hs. rewrite <- Hs.
  apply (extract_operation_frame _ _ _ _ _ _ _ _ Hstep). left. exact Hp.
Qed.

(** The items behind an item of a mapping have other keys. *)
Lemma distinct_keys_behind items1 k v items2 :
  distinct_keys (items1 ++ (k, v) :: items2) = true ->
  forall e, In e items2 -> py_eq k (fst e) = false.
Proof.
  induction items1 as [|[k1 v1] items1 IH]; cbn [app distinct_keys].
  - intros Hd e He. apply andb_true_iff in Hd as [Hd _].
    apply negb_true_iff in Hd.
    destruct (py_eq k (fst e)) eqn:E; [|reflexivity].
    assert (existsb (fun e0 => py_eq k (fst e0)) items2 = true) as Hex.
    { apply existsb_exists. exists e. auto. }
    congruence.
  - intros Hd. apply andb_true_iff in Hd as [_ Hd]. exact (IH Hd).
Qed.

Lemma docs_set_key_ok k text d :
  key_ok k = true ->
  forallb (fun e => key_ok (fst e)) d = true ->
  forallb (fun e => key_ok (fst e)) (docs_set k text d) = true.
Proof.
  intros Hk. induction d as [|[k' text'] d IH]; cbn [docs_set forallb fst].
  - intros _. rewrite Hk. reflexivity.
  - intros Hd. apply andb_true_iff in Hd as [Hk' Hd].
    destruct (key_eqb k' k); cbn [forallb fst]; rewrite Hk'; cbn [andb];
      [exact Hd | exact (IH Hd)].
Qed.

Lemma upper_method_listed m :
  In m http_methods ->
  existsb (str_eqb (upper m)) (map upper http_methods) = true.
Proof.
  intros Hm. apply existsb_exists. exists (upper m).
  split; [apply in_map, Hm | apply str_eqb_refl].
Qed.

Lemma store_tag_inv m path summary text tags d d' :
  In m http_methods -> truthy summary = true ->
  for_each (store_tag m path summary text) tags d = Ok d' ->
  unique_keys d /\ forallb (fun e => key_ok (fst e)) d = true ->
  unique_keys d' /\ forallb (fun e => key_ok (fst e)) d' = true.
Proof.
  intros Hm Hs.
  apply (for_each_keeps
           (fun d => unique_keys d /\ forallb (fun e => key_ok (fst e)) d = true)).
  intros d0 tag d1 _ Hstep [Hu Hk]. unfold store_tag in Hstep.
  destruct (hashable tag && hashable path && hashable summary) eqn:Hh;
    [|discriminate].
  injection Hstep as <-. split; [apply unique_keys_set, Hu|].
  apply docs_set_key_ok; [|exact Hk].
  cbn [key_ok]. rewrite (upper_method_listed m Hm), Hs.
  apply andb_true_iff in Hh as [Hh H3]. apply andb_true_iff in Hh as [H1 H2].
  rewrite H1, H2, H3. reflexivity.
Qed.

Lemma extract_operation_inv path st item st' :
  extract_operation path st item = Ok st' ->
  extractor_inv st -> extractor_inv st'.
Proof.
  intros Hrun Hinv. destruct item as [k v]. unfold extract_operation in Hrun.
  destruct k as [| | |m| |]; try (injection Hrun as <-; exact Hinv).
  destruct (existsb (str_eqb m) http_methods) eqn:Em;
    [|injection Hrun as <-; exact Hinv].
  inv_bind Hrun as tags Ht. inv_bind Hrun as summary Hs.
  destruct Hinv as [Hu [Hk Hw]].
  destruct (negb (truthy tags) || negb (truthy summary)) eqn:Emiss.
  - apply Ok_inj in Hrun. subst st'. repeat split; cbn [s_docs s_out]; auto.
    rewrite forallb_app, Hw. cbn [forallb andb]. rewrite andb_true_r.
    unfold is_warning. apply startswith_app.
  - inv_bind Hrun as docs Hd. inv_bind Hrun as tag_list Hl.
    inv_bind Hrun as d Hstore. injection Hrun as <-.
    apply orb_false_iff in Emiss as [_ Esum].
    apply negb_false_iff in Esum.
    destruct (store_tag_inv _ _ _ _ _ _ _ (existsb_method_in _ Em) Esum Hstore
                (conj Hu Hk)) as [Hu' Hk'].
    repeat split; cbn [s_docs s_out]; auto.
Qed.

Lemma extract_path_inv st item st' :
  extract_path st item = Ok st' -> extractor_inv st -> extractor_inv st'.
Proof.
  destruct item as [path path_item]. unfold extract_path. intros Hrun.
  inv_bind Hrun as operations Ho. revert Hrun.
  apply for_each_keeps. intros s x s' _. apply extract_operation_inv.
Qed.

(** An item whose key is no method name is skipped. *)
Lemma extract_operation_skips path st item :
  is_operation_item item = false -> extract_operation path st item = Ok st.
Proof.
  destruct item as [k v]. unfold is_operation_item, extract_operation.
  cbn [fst]. destruct k; try reflexivity. intros ->. reflexivity.
Qed.

(** An operation without tags or summary gives its warning. *)
Lemma extract_operation_untagged path st m v :
  existsb (str_eqb m) http_methods = true -> untagged v = true ->
  extract_operation path st (VStr m, v)
  = Ok (mk_state (s_docs st) (s_out st ++ [missing_warning path m])).
Proof.
  intros Hm Hv. unfold extract_operation. rewrite Hm.
  destruct v as [| | | | |fields]; try discriminate.
  cbn [untagged] in Hv. cbn [py_get bind]. rewrite Hv. reflexivity.
Qed.

Lemma extract_path_untagged st path operations :
  (forall e, In e operations -> is_operation_item e = true ->
             untagged (snd e) = true) ->
  extract_path st (path, VDict operations)
  = Ok (mk_state (s_docs st)
          (s_out st ++ path_warnings (path, VDict operations))).
Proof.
  unfold extract_path, path_warnings. cbn [py_items bind fst snd].
  revert st. induction operations as [|[k v] operations IH]; intros st Hall.
  - cbn [for_each flat_map]. rewrite app_nil_r. destruct st; reflexivity.
  - cbn [for_each flat_map fst].
    assert (forall e, In e operations -> is_operation_item e = true ->
                      untagged (snd e) = true) as Hrest.
    { intros e He. apply Hall. right. exact He. }
    destruct (is_operation_item (k, v)) eqn:E.
    + pose proof (Hall (k, v) (or_introl eq_refl) E) as Hv. cbn [snd] in Hv.
      unfold is_operation_item in E. cbn [fst] in E.
      destruct k as [| | |m| |]; try discriminate.
      rewrite (extract_operation_untagged _ _ _ _ E Hv), E. cbn [bind].
      rewrite (IH _ Hrest). cbn [s_docs s_out].
      rewrite <- app_assoc. reflexivity.
    + rewrite (extract_operation_skips _ _ _ E). cbn [bind].
      rewrite (IH _ Hrest).
      unfold is_operation_item in E. cbn [fst] in E.
      destruct k; try reflexivity. rewrite E. reflexivity.
Qed.

(** The scheme names that the loop of lines 85-87 collects. *)
Lemma security_schemes_of requirements acc :
  for_each
    (fun schemes security_item =>
       items <- py_items security_item ;; Ok (schemes ++ map fst items))
    (map requirement requirements) acc
  = Ok (acc ++ map VStr (flat_map (map fst) requirements)).
Proof.
  revert acc. induction requirements as [|r requirements IH]; intros acc.
  - cbn [map flat_map for_each]. rewrite app_nil_r. reflexivity.
  - cbn [map flat_map for_each]. unfold requirement at 1.
    cbn [py_items bind]. rewrite IH, map_app, <- app_assoc, !map_map.
    reflexivity.
Qed.

Lemma strings_of_strings names : strings_of (map VStr names) = Ok names.
Proof.
  induction names as [|n names IH]; [reflexivity|].
  cbn [map strings_of]. rewrite IH. reflexivity.
Qed.

End Store.

(** A document of version 3.0 passes the loader, and it is not empty. *)
Lemma validate_version_3_0 openapi_data :
  has_version_3_0 openapi_data = true ->
  validate_openapi_file (Parsed openapi_data) = (Some openapi_data, [])
  /\ truthy openapi_data = true.
Proof.
  unfold has_version_3_0, validate_openapi_file.
  destruct openapi_data as [| | | | |items]; try discriminate.
  cbn [py_get bind]. unfold dict_get.
  destruct (dict_lookup (lit "openapi") items) as [v|] eqn:E; [|discriminate].
  destruct v as [| | |version| |]; try discriminate.
  cbn [py_startswith]. intros ->. split; [reflexivity|].
  destruct items; [discriminate E | reflexivity].
Qed.

End DocumentFacts.
Import DocumentFacts.

(** X10.  Of the items of a path item only those under one of the eight
    method names count: path-level [parameters], [summary], [servers] and
    extension entries have no effect on what is extracted or printed,
    whatever their value. *)
Theorem extract_path_ignores_other_keys `{Runtime}
  (st : state) (path : value) (items : list (value * value)) :
  extract_path st (path, VDict items)
  = extract_path st (path, VDict (filter is_operation_item items)).
Proof.
  unfold extract_path. cbn [py_items bind]. revert st.
  induction items as [|item items IH]; intros st; [reflexivity|].
  cbn [filter]. destruct (is_operation_item item) eqn:E.
  - cbn [for_each]. destruct (extract_operation path st item) as [st'|e];
      cbn [bind]; [apply IH | reflexivity].
  - cbn [for_each]. rewrite (extract_operation_skips _ _ _ E). cbn [bind].
    apply IH.
Qed.

(** X11.  When the extractor returns, no two keys of its mapping are
    equal, every key has one of the eight method names in upper case and a
    summary that is not empty, and every line it has printed is a warning
    for an operation without tags or summary. *)
Theorem extract_openapi_docs_invariant `{Runtime}
  (openapi_data : value) (st : state) :
  extract_openapi_docs openapi_data = Ok st ->
  unique_keys (s_docs st)
  /\ forallb (fun e => key_ok (fst e)) (s_docs st) = true
  /\ forallb is_warning (s_out st) = true.
Proof.
  unfold extract_openapi_docs. intros Hrun.
  inv_bind Hrun as paths Hp. inv_bind Hrun as path_items Hi.
  apply (for_each_keeps extractor_inv extract_path path_items
           (fun s x s' _ => extract_path_inv s x s') _ _ Hrun).
  split; [apply unique_keys_nil | split; reflexivity].
Qed.

Lemma extract_openapi_docs_invariant_witness :
  unique_keys (s_docs example_state)
  /\ forallb (fun e => key_ok (fst e)) (s_docs example_state) = true
  /\ forallb is_warning (s_out example_state) = true.
Proof.
  apply (@extract_openapi_docs_invariant example_runtime
           (VDict example_document) example_state).
  reflexivity.
Defined.

(** X12.  In a document whose paths and whose methods under a path are
    different keys, as in every mapping, the entries of an operation are
    in the mapping that the extractor returns: an operation with tags and
    a summary is found under each of its tags with the text built for it,
    and no other operation of the document has overwritten it. *)
Theorem extract_openapi_docs_keeps_every_operation `{Runtime}
  (document paths : list (value * value)) (st : state)
  (path : value) (items operation : list (value * value)) (m : str)
  (tag_list : list value) (tag : value) :
  extract_openapi_docs (VDict document) = Ok st ->
  dict_get document (lit "paths") (VDict []) = VDict paths ->
  distinct_keys paths = true ->
  In (path, VDict items) paths ->
  distinct_keys items = true ->
  In (VStr m, VDict operation) items ->
  In m http_methods ->
  let tags := dict_get operation (lit "tags") (VList []) in
  let summary := dict_get operation (lit "summary") (VStr []) in
  truthy tags = true ->
  truthy summary = true ->
  py_iter tags = Ok tag_list ->
  In tag tag_list ->
  exists docs,
    build_docs (VDict operation) = Ok docs
    /\ docs_lookup (tag, upper m, path, summary) (s_docs st)
       = Some (join [nl] docs).
Proof.
  intros Hrun Hpaths Hdp Hpath Hdi Hitem Hm tags summary Htags Hsummary
    Hiter Htag.
  unfold extract_openapi_docs in Hrun. cbn [py_get bind] in Hrun.
  rewrite Hpaths in Hrun. cbn [py_items bind] in Hrun.
  apply in_split in Hpath as [p1 [p2 ->]].
  rewrite for_each_app in Hrun. inv_bind Hrun as st1 H1.
  cbn [for_each] in Hrun. inv_bind Hrun as st2 H2.
  assert (forall docs,
            docs_lookup (tag, upper m, path, summary) (s_docs st2) = Some docs ->
            docs_lookup (tag, upper m, path, summary) (s_docs st) = Some docs)
    as Hlater.
  { intros docs <-.
    refine (for_each_keeps
              (fun s => docs_lookup (tag, upper m, path, summary) (s_docs s)
                        = docs_lookup (tag, upper m, path, summary) (s_docs st2))
              extract_path p2 _ st2 st Hrun eq_refl).
    intros s x s' Hx Hstep Hs. rewrite <- Hs.
    apply (extract_path_frame _ _ _ _ _ _ _ Hstep).
    rewrite py_eq_sym. apply (distinct_keys_behind _ _ _ _ Hdp x Hx). }
  unfold extract_path in H2. cbn [py_items bind] in H2.
  apply in_split in Hitem as [i1 [i2 ->]].
  rewrite for_each_app in H2. inv_bind H2 as sa Ha.
  cbn [for_each] in H2. inv_bind H2 as sb Hb.
  assert (forall docs,
            docs_lookup (tag, upper m, path, summary) (s_docs sb) = Some docs ->
            docs_lookup (tag, upper m, path, summary) (s_docs st2) = Some docs)
    as Hbehind.
  { intros docs <-.
    refine (for_each_keeps
              (fun s => docs_lookup (tag, upper m, path, summary) (s_docs s)
                        = docs_lookup (tag, upper m, path, summary) (s_docs sb))
              (extract_operation path) i2 _ sb st2 H2 eq_refl).
    intros s x s' Hx Hstep Hs. rewrite <- Hs.
    apply (extract_operation_frame _ _ _ _ _ _ _ _ Hstep). right.
    intros m' Hkey Hm'.
    pose proof (distinct_keys_behind _ _ _ _ Hdi x Hx) as Hne.
    rewrite Hkey in Hne. cbn [py_eq] in Hne.
    destruct (str_eqb (upper m') (upper m)) eqn:E; [|reflexivity].
    rewrite (upper_method_inj m m' Hm Hm' E), str_eqb_refl in Hne.
    discriminate. }
  unfold extract_operation in Hb. rewrite (http_method_in m Hm) in Hb.
  cbn [py_get bind] in Hb. fold tags summary in Hb.
  rewrite Htags, Hsummary in Hb. cbn [negb orb] in Hb.
  inv_bind Hb as docs Hdocs. rewrite Hiter in Hb. cbn [bind] in Hb.
  inv_bind Hb as d Hstore. apply Ok_inj in Hb. subst sb.
  exists docs. split; [exact Hdocs|].
  apply Hlater, Hbehind. cbn [s_docs].
  apply (store_tag_lookup _ _ _ _ _ _ _ _ Hstore Htag).
Qed.

Lemma extract_openapi_docs_keeps_every_operation_witness :
  exists docs,
    @build_docs example_runtime (VDict example_operation) = Ok docs
    /\ docs_lookup
         (VStr (lit "Admin"), upper (lit "get"), VStr (lit "/users/{id}"),
          dict_get example_operation (lit "summary") (VStr []))
         (s_docs example_state)
       = Some (join [nl] docs).
Proof.
  apply (@extract_openapi_docs_keeps_every_operation example_runtime
           example_document example_paths example_state
           (VStr (lit "/users/{id}"))
           [(VStr (lit "parameters"), VList []);
            (VStr (lit "delete"),
             VDict [(VStr (lit "summary"), VStr (lit "Delete User"))]);
            (VStr (lit "get"), VDict example_operation)]
           example_operation (lit "get")
           [VStr (lit "Users"); VStr (lit "Admin")] (VStr (lit "Admin")));
    try reflexivity.
  - left. reflexivity.
  - right. right. left. reflexivity.
  - left. reflexivity.
  - right. left. reflexivity.
Defined.

(** X13.  For security requirements that are mappings from scheme names
    to scopes, the Security entry lists the scheme names of all the
    requirements in the order of the document, a name as often as it
    occurs, separated by a comma and a space; an operation whose
    requirements name no scheme gets no Security entry. *)
Theorem add_security_lists_schemes (operation : list (value * value))
  (requirements : list (list (str * value))) (docs : list str) :
  dict_lookup (lit "security") operation
  = Some (VList (map requirement requirements)) ->
  add_security (VDict operation) docs
  = Ok (docs ++ match flat_map (map fst) requirements with
                | [] => []
                | name :: names =>
                    [lit "Security: " ++ join (lit ", ") (name :: names) ++ [nl]]
                end).
Proof.
  intros Hsec. unfold add_security. rewrite py_in_dict, Hsec. cbn [bind].
  rewrite (py_getitem_dict _ _ _ Hsec). cbn [bind py_iter].
  rewrite security_schemes_of. cbn [bind app].
  destruct (flat_map (map fst) requirements) as [|name names].
  - cbn [map]. rewrite app_nil_r. reflexivity.
  - unfold py_join. rewrite strings_of_strings. reflexivity.
Qed.

Lemma add_security_lists_schemes_witness :
  add_security
    (VDict [(VStr (lit "security"),
             VList (map requirement
                      [[(lit "api_key", VList [])]; [];
                       [(lit "oauth", VList [VStr (lit "read")]);
                        (lit "api_key", VList [])]]))])
    [lit "Description: x" ++ [nl]]
  = Ok ([lit "Description: x" ++ [nl]]
        ++ match flat_map (map fst)
                   [[(lit "api_key", VList [])]; [];
                    [(lit "oauth", VList [VStr (lit "read")]);
                     (lit "api_key", VList [])]] with
           | [] => []
           | name :: names =>
               [lit "Security: " ++ join (lit ", ") (name :: names) ++ [nl]]
           end).
Proof.
  apply add_security_lists_schemes.
  reflexivity.
Defined.

Example add_security_sample :
  add_security
    (VDict [(VStr (lit "security"),
             VList (map requirement
                      [[(lit "api_key", VList [])]; [];
                       [(lit "oauth", VList [VStr (lit "read")]);
                        (lit "api_key", VList [])]]))]) []
  = Ok [lit "Security: api_key, oauth, api_key" ++ [nl]].
Proof. reflexivity. Qed.

(* ------------------------------------------------------------------ *)
(** ** The doc command *)
(* ------------------------------------------------------------------ *)

Module CliFacts.

Section Doc.

Context `{Runtime}.

Lemma extract_paths_untagged paths st :
  (forall path path_item,
      In (path, path_item) paths ->
      exists operations,
        path_item = VDict operations
        /\ forall e, In e operations -> is_operation_item e = true ->
                     untagged (snd e) = true) ->
  for_each extract_path paths st
  = Ok (mk_state (s_docs st) (s_out st ++ flat_map path_warnings paths)).
Proof.
  revert st. induction paths as [|[path path_item] paths IH]; intros st Hall.
  - cbn [for_each flat_map]. rewrite app_nil_r. destruct st; reflexivity.
  - destruct (Hall path path_item (or_introl eq_refl)) as [operations [-> Ho]].
    cbn [for_each flat_map]. rewrite (extract_path_untagged st path _ Ho).
    cbn [bind].
    assert (forall p path_item',
              In (p, path_item') paths ->
              exists operations',
                path_item' = VDict operations'
                /\ forall e, In e operations' -> is_operation_item e = true ->
                             untagged (snd e) = true) as Hrest.
    { intros p path_item' Hin. apply (Hall p path_item'). right. exact Hin. }
    rewrite (IH _ Hrest).
    cbn [s_docs s_out]. rewrite <- app_assoc. reflexivity.
Qed.

(** The command up to the extractor, for a document of version 3.0. *)
Lemma main_doc_extracts openapi_file bruno_dir openapi_data :
  not_given openapi_file = false -> not_given bruno_dir = false ->
  has_version_3_0 openapi_data = true ->
  main_doc openapi_file bruno_dir true true (Parsed openapi_data)
  = match extract_openapi_docs openapi_data with
    | Raise e => Uncaught e
    | Ok st =>
        match s_docs st with
        | [] => Exits 1 (map FromExtractor (s_out st) ++ [NoDocumentationFound])
        | _ :: _ => Updates (s_docs st) (map FromExtractor (s_out st))
        end
    end.
Proof.
  intros Ho Hw Hv. unfold main_doc. rewrite Ho, Hw. cbn [orb negb].
  destruct (validate_version_3_0 _ Hv) as [-> ->]. cbn [negb map app].
  reflexivity.
Qed.

End Doc.

End CliFacts.
Import CliFacts.

(** X14.  When no operation of a version 3.0 document has both tags and
    a summary, in particular when the document has no paths, the doc
    command prints one warning for each operation and the line that no
    documentation was found, and ends with status 1 before it touches the
    workspace. *)
Theorem main_doc_nothing_to_document `{Runtime}
  (openapi_file bruno_dir : option str) (document paths : list (value * value)) :
  not_given openapi_file = false ->
  not_given bruno_dir = false ->
  has_version_3_0 (VDict document) = true ->
  dict_get document (lit "paths") (VDict []) = VDict paths ->
  (forall path path_item,
      In (path, path_item) paths ->
      exists operations,
        path_item = VDict operations
        /\ forall e, In e operations -> is_operation_item e = true ->
                     untagged (snd e) = true) ->
  main_doc openapi_file bruno_dir true true (Parsed (VDict document))
  = Exits 1 (map FromExtractor (flat_map path_warnings paths)
             ++ [NoDocumentationFound]).
Proof.
  intros Ho Hw Hv Hpaths Hall.
  rewrite (main_doc_extracts _ _ _ Ho Hw Hv).
  unfold extract_openapi_docs. cbn [py_get bind]. rewrite Hpaths.
  cbn [py_items bind]. rewrite (extract_paths_untagged _ _ Hall).
  reflexivity.
Qed.

Lemma main_doc_nothing_to_document_witness :
  @main_doc example_runtime (Some (lit "api.yaml")) (Some (lit "ws")) true true
    (Parsed (VDict example_untagged_document))
  = Exits 1 (map FromExtractor
               (flat_map (@path_warnings example_runtime) example_untagged_paths)
             ++ [NoDocumentationFound]).
Proof.
  apply (@main_doc_nothing_to_document example_runtime
           (Some (lit "api.yaml")) (Some (lit "ws"))
           example_untagged_document example_untagged_paths);
    try reflexivity.
  intros path path_item [E | []]. injection E as <- <-.
  eexists. split; [reflexivity|].
  intros e [<- | [<- | []]]; [discriminate | reflexivity].
Defined.

Example main_doc_nothing_to_document_sample :
  @main_doc example_runtime (Some (lit "api.yaml")) (Some (lit "ws")) true true
    (Parsed (VDict example_untagged_document))
  = Exits 1 [FromExtractor
               (lit "Warning: Missing tags or summary for POST /users");
             NoDocumentationFound].
Proof. reflexivity. Qed.

(** X15.  One operation that is not a mapping, anywhere in a version 3.0
    document, makes the doc command end with an exception that nothing
    catches: no mapping is returned, also not for the operations before
    it, and the workspace is not touched. *)
Theorem main_doc_malformed_operation `{Runtime}
  (openapi_file bruno_dir : option str) (document paths : list (value * value))
  (path : value) (items : list (value * value)) (m : str) (operation : value) :
  not_given openapi_file = false ->
  not_given bruno_dir = false ->
  has_version_3_0 (VDict document) = true ->
  dict_get document (lit "paths") (VDict []) = VDict paths ->
  In (path, VDict items) paths ->
  In (VStr m, operation) items ->
  In m http_methods ->
  is_dict operation = false ->
  exists e,
    main_doc openapi_file bruno_dir true true (Parsed (VDict document))
    = Uncaught e.
Proof.
  intros Ho Hw Hv Hpaths Hpath Hitem Hm Hop.
  rewrite (main_doc_extracts _ _ _ Ho Hw Hv).
  unfold extract_openapi_docs. cbn [py_get bind]. rewrite Hpaths.
  cbn [py_items bind].
  destruct (for_each_raises extract_path paths (path, VDict items) Hpath)
    with (s := mk_state [] []) as [e ->]; [|exists e; reflexivity].
  intros s. unfold extract_path. cbn [py_items bind].
  apply (for_each_raises (extract_operation path) items (VStr m, operation)
           Hitem).
  intros s'. exists AttributeError. unfold extract_operation.
  rewrite (http_method_in m Hm).
  destruct operation; try reflexivity. discriminate.
Qed.

Lemma main_doc_malformed_operation_witness :
  exists e,
    @main_doc example_runtime (Some (lit "api.yaml")) (Some (lit "ws")) true true
      (Parsed
         (VDict [(VStr (lit "openapi"), VStr (lit "3.0.0"));
                 (VStr (lit "paths"),
                  VDict [(VStr (lit "/users/{id}"),
                          VDict [(VStr (lit "get"), VDict example_operation);
                                 (VStr (lit "put"), VNone)])])]))
    = Uncaught e.
Proof.
  apply (@main_doc_malformed_operation example_runtime
           (Some (lit "api.yaml")) (Some (lit "ws")) _
           [(VStr (lit "/users/{id}"),
             VDict [(VStr (lit "get"), VDict example_operation);
                    (VStr (lit "put"), VNone)])]
           (VStr (lit "/users/{id}"))
           [(VStr (lit "get"), VDict example_operation);
            (VStr (lit "put"), VNone)]
           (lit "put") VNone); try reflexivity.
  - left. reflexivity.
  - right. left. reflexivity.
  - right. right. left. reflexivity.
Defined.

(* ------------------------------------------------------------------ *)
(** ** What revert leaves in a directory *)
(* ------------------------------------------------------------------ *)

Module RestoreFacts.

Lemma final_app ws ws' name :
  final (ws ++ ws') name
  = match final ws' name with
    | Some v => Some v
    | None => final ws name
    end.
Proof. unfold final. rewrite rev_app_distr. apply lookup_app. Qed.

Lemma lookup_map_ovr f files name :
  lookup name (map (ovr f) files)
  = match lookup name files with
    | Some x => Some (match f name with Some v => v | None => x end)
    | None => None
    end.
Proof.
  induction files as [|[k x] files IH]; [reflexivity|].
  cbn [map lookup]. unfold ovr at 1. cbn [fst].
  destruct (str_eqb k name) eqn:E.
  - apply str_eqb_eq in E. subst k.
    destruct (f name); cbn [lookup]; rewrite str_eqb_refl; reflexivity.
  - destruct (f k); cbn [lookup]; rewrite E; exact IH.
Qed.

Lemma str_in_dec (b : str) (l : list str) : {In b l} + {~ In b l}.
Proof. apply in_dec. apply list_eq_dec. apply N.eq_dec. Qed.

Section Restore.

Variable copy_raises : path -> path -> bool.

Lemma plain_dir files subdirs :
  plain (Dir files subdirs) = true ->
  no_directory_target files subdirs
  /\ forall e, In e subdirs -> plain (snd e) = true.
Proof.
  cbn [plain]. intros H. apply andb_true_iff in H as [H1 H2].
  rewrite forallb_forall in H1, H2. split; [|exact H2].
  intros b Hb. apply negb_true_iff, H1, Hb.
Qed.

Lemma plan_sent_none root files subdirs baks :
  (forall b, In b baks -> has_name (bru_file_of b) subdirs = false) ->
  flat_map (plan_sent copy_raises root subdirs files) baks = [].
Proof.
  induction baks as [|b baks IH]; [reflexivity|]. intros Hall.
  cbn [flat_map]. rewrite IH by (intros b' Hb'; apply Hall; right; exact Hb').
  rewrite app_nil_r. unfold plan_sent.
  pose proof (Hall b (or_introl eq_refl)) as Hb.
  apply lookup_none in Hb. rewrite Hb.
  destruct (_ || _); [|reflexivity].
  destruct (lookup b files); [|reflexivity].
  destruct (copy_raises _ _); reflexivity.
Qed.

(** What the loop leaves: the listing with the contents overridden by the
    last write to each name, nothing sent down, one line for each
    backup. *)
Lemma loop_result root files subdirs :
  no_directory_target files subdirs ->
  let st := fold_left (revert_file copy_raises root subdirs)
              (bak_files_of files) (mk_loop files [] 0 []) in
  l_files st
  = map (ovr (final (flat_map (plan_local copy_raises root subdirs files)
                       (bak_files_of files)))) files
  /\ l_sent st = []
  /\ map fst (l_files st) = map fst files.
Proof.
  intros Hplain st.
  destruct (loop_plan copy_raises root subdirs files (bak_files_of files) _
              (loop_inv_start files) (bak_files_of_ends_bak files))
    as [[Hn _] [Hf Hs]].
  fold st in Hn, Hf, Hs. cbn [l_files l_sent app] in Hf, Hs.
  split; [|split].
  - rewrite Hf. apply write_all_in_place.
    intros name Hn'. apply plan_names in Hn'. apply Hn'.
  - rewrite Hs. apply plan_sent_none, Hplain.
  - exact Hn.
Qed.

Lemma revert_file_out root subdirs st b :
  length (l_out (revert_file copy_raises root subdirs st b))
  = S (length (l_out st)).
Proof.
  unfold revert_file.
  destruct (_ || _); [destruct (copy2 _ _ _ _ _ _ _) as [[f s]|]|];
    cbn [l_out]; rewrite length_app; simpl; lia.
Qed.

Lemma loop_out root subdirs baks st :
  length (l_out (fold_left (revert_file copy_raises root subdirs) baks st))
  = length (l_out st) + length baks.
Proof.
  revert st. induction baks as [|b baks IH]; intros st; simpl; [lia|].
  rewrite IH, revert_file_out. lia.
Qed.

(** The walk over such a workspace: nothing is handed down. *)
Lemma walk_plain root files subdirs :
  no_directory_target files subdirs ->
  let st := fold_left (revert_file copy_raises root subdirs)
              (bak_files_of files) (mk_loop files [] 0 []) in
  let r := walk_each
             (fun name sub => walk copy_raises (root ++ [name]) [] sub)
             subdirs in
  walk copy_raises root [] (Dir files subdirs)
  = (Dir (l_files st) (fst (fst r)), l_count st + snd (fst r),
     l_out st ++ snd r).
Proof.
  intros Hplain st r. rewrite walk_dir. cbv zeta.
  cbn [write_all fold_left]. fold st.
  destruct (loop_result root files subdirs Hplain) as [_ [Hs _]].
  fold st in Hs. rewrite Hs. reflexivity.
Qed.

Lemma lookup_walk_each f l name :
  lookup name (fst (fst (walk_each f l)))
  = option_map (fun sub => fst (fst (f name sub))) (lookup name l).
Proof.
  induction l as [|[k sub] l IH]; [reflexivity|].
  rewrite walk_each_cons. cbn [fst snd lookup].
  destruct (str_eqb k name) eqn:E; [|exact IH].
  apply str_eqb_eq in E. subst k. reflexivity.
Qed.

Lemma lookup_in {A : Type} name (l : list (str * A)) x :
  lookup name l = Some x -> In (name, x) l.
Proof.
  induction l as [|[k y] l IH]; [discriminate|]. cbn [lookup].
  destruct (str_eqb k name) eqn:E.
  - apply str_eqb_eq in E. subst k. intros H. injection H as ->. left.
    reflexivity.
  - intros H. right. exact (IH H).
Qed.

(** The directory at a path after the walk: its files are what the loop
    over its backups leaves, and its subdirectories keep their names. *)
Lemma walk_at p :
  forall d root files subdirs,
    plain d = true ->
    dir_at d p = Some (Dir files subdirs) ->
    no_directory_target files subdirs
    /\ exists subdirs',
         dir_at (fst (fst (walk copy_raises root [] d))) p
         = Some (Dir
                   (l_files
                      (fold_left (revert_file copy_raises (root ++ p) subdirs)
                         (bak_files_of files) (mk_loop files [] 0 [])))
                   subdirs')
         /\ map fst subdirs' = map fst subdirs.
Proof.
  induction p as [|name p IH]; intros d root files subdirs Hplain Hat.
  - cbn [dir_at] in Hat. injection Hat as ->.
    destruct (plain_dir _ _ Hplain) as [Hno _]. split; [exact Hno|].
    rewrite (walk_plain root files subdirs Hno). cbv zeta. cbn [fst dir_at].
    rewrite app_nil_r. eexists. split; [reflexivity|]. apply walk_each_names.
  - destruct d as [files0 subdirs0]. cbn [dir_at subdirs_of] in Hat.
    destruct (lookup name subdirs0) as [sub|] eqn:E; [|discriminate].
    destruct (plain_dir _ _ Hplain) as [Hno Hsubs].
    pose proof (Hsubs _ (lookup_in _ _ _ E)) as Hsub. cbn [snd] in Hsub.
    destruct (IH sub (root ++ [name]) files subdirs Hsub Hat)
      as [Hno' [subdirs' [Hat' Hnames]]].
    split; [exact Hno'|].
    rewrite (walk_plain root files0 subdirs0 Hno). cbv zeta.
    cbn [fst dir_at subdirs_of]. rewrite lookup_walk_each, E.
    cbn [option_map]. rewrite <- app_assoc in Hat'. cbn [app] in Hat'.
    exists subdirs'. split; [exact Hat' | exact Hnames].
Qed.

Lemma plan_local_names root subdirs files baks name :
  In name (map fst (flat_map (plan_local copy_raises root subdirs files) baks)) ->
  exists b, In b baks /\ name = bru_file_of b.
Proof.
  intros H. apply in_map_iff in H as [[k x] [<- H]].
  apply in_flat_map in H as [b [Hb H]]. exists b. split; [exact Hb|].
  assert (In k (map fst (plan_local copy_raises root subdirs files b))) as Hk.
  { apply in_map_iff. exists (k, x). auto. }
  apply plan_local_in_place in Hk. apply Hk.
Qed.

(** The last write to the working file of a backup that is the only one
    with that working file. *)
Lemma final_plan root subdirs files baks b v :
  In b baks ->
  (forall b', In b' baks -> bru_file_of b' = bru_file_of b -> b' = b) ->
  has_name (bru_file_of b) files = true ->
  has_name (bru_file_of b) subdirs = false ->
  lookup b files = Some v ->
  copy_raises (root ++ [b]) (root ++ [bru_file_of b]) = false ->
  final (flat_map (plan_local copy_raises root subdirs files) baks)
    (bru_file_of b)
  = Some v.
Proof.
  intros Hin Huniq Hfile Hdir Hb Hcopy.
  induction baks as [|b0 baks IH]; [destruct Hin|].
  cbn [flat_map]. rewrite final_app.
  destruct (str_in_dec b baks) as [Hrest | Hrest].
  - rewrite IH; [reflexivity | exact Hrest |].
    intros b' Hb'. apply Huniq. right. exact Hb'.
  - destruct Hin as [-> | Hin]; [|contradiction].
    assert (final (flat_map (plan_local copy_raises root subdirs files) baks)
              (bru_file_of b) = None) as ->.
    { apply final_none. intros Hn.
      apply plan_local_names in Hn as [b' [Hb' E]].
      apply Hrest. rewrite <- (Huniq b' (or_intror Hb') (eq_sym E)).
      exact Hb'. }
    unfold plan_local. rewrite Hfile, Hb, Hcopy. cbn [orb].
    apply lookup_none in Hdir. rewrite Hdir.
    unfold final. cbn [rev app lookup]. rewrite str_eqb_refl. reflexivity.
Qed.

Lemma walk_each_out root l :
  Forall
    (fun e =>
       forall root,
         plain (snd e) = true ->
         length (snd (walk copy_raises root [] (snd e)))
         = count_backups (snd e)) l ->
  (forall e, In e l -> plain (snd e) = true) ->
  length
    (snd (walk_each (fun name sub => walk copy_raises (root ++ [name]) [] sub)
            l))
  = list_sum (map (fun e => count_backups (snd e)) l).
Proof.
  induction 1 as [|[name sub] l Hsub _ IH]; intros Hplain; [reflexivity|].
  rewrite walk_each_cons. cbn [snd map list_sum]. rewrite length_app.
  rewrite IH by (intros e He; apply Hplain; right; exact He).
  cbn [snd] in Hsub. rewrite Hsub; [reflexivity|].
  apply (Hplain (name, sub)). left. reflexivity.
Qed.

Lemma walk_out d :
  forall root,
    plain d = true ->
    length (snd (walk copy_raises root [] d)) = count_backups d.
Proof.
  induction d as [files subdirs IH] using dir_induction.
  intros root Hplain. destruct (plain_dir _ _ Hplain) as [Hno Hsubs].
  rewrite (walk_plain root files subdirs Hno). cbv zeta. cbn [snd].
  rewrite length_app, loop_out. cbn [l_out length count_backups].
  rewrite (walk_each_out root subdirs IH Hsubs). reflexivity.
Qed.

End Restore.

End RestoreFacts.
Import RestoreFacts.

(** X16.  In a workspace where no directory has the name that revert
    derives from a backup beside it, revert gives the working file of a
    backup the content of the backup, in every directory of the workspace:
    when the working file exists, the copy is not refused, and no other
    backup of the directory has the same working file.  The backup stays
    as it is. *)
Theorem revert_restores_working_file
  (copy_raises : path -> path -> bool) (d : dir) (p : path)
  (files : list (str * bytes)) (subdirs : list (str * dir))
  (bak_file : str) (data : bytes) :
  plain d = true ->
  dir_at d p = Some (Dir files subdirs) ->
  endswith bak_file (lit ".bak") = true ->
  lookup bak_file files = Some data ->
  has_name (bru_file_of bak_file) files = true ->
  copy_raises (p ++ [bak_file]) (p ++ [bru_file_of bak_file]) = false ->
  (forall b, In b (bak_files_of files) ->
             bru_file_of b = bru_file_of bak_file -> b = bak_file) ->
  exists d' files' subdirs',
    fst (fst (revert_bruno_files copy_raises (Some d))) = Some d'
    /\ dir_at d' p = Some (Dir files' subdirs')
    /\ lookup (bru_file_of bak_file) files' = Some data
    /\ lookup bak_file files' = Some data.
Proof.
  intros Hplain Hat Hbak Hb Hfile Hcopy Huniq.
  destruct (walk_at copy_raises p d [] files subdirs Hplain Hat)
    as [Hno [subdirs' [Hat' _]]].
  cbn [app] in Hat'.
  destruct (loop_result copy_raises p files subdirs Hno) as [Hfiles _].
  unfold revert_bruno_files.
  destruct (walk copy_raises [] [] d) as [[d' c] o]. cbn [fst] in *.
  exists d'. eexists. exists subdirs'.
  split; [reflexivity|]. split; [exact Hat'|].
  assert (In bak_file (bak_files_of files)) as Hin.
  { apply filter_In. split; [|exact Hbak].
    apply has_name_in. apply (lookup_some_has_name _ _ _ Hb). }
  rewrite Hfiles, !lookup_map_ovr. split.
  - rewrite (final_plan copy_raises p subdirs files _ bak_file data Hin Huniq
               Hfile (Hno _ Hin) Hb Hcopy).
    destruct (lookup (bru_file_of bak_file) files) eqn:E; [reflexivity|].
    apply lookup_none in E. congruence.
  - rewrite Hb.
    assert (final
              (flat_map (plan_local copy_raises p subdirs files)
                 (bak_files_of files)) bak_file = None) as ->; [|reflexivity].
    apply final_none. intros Hn. apply plan_names in Hn as [_ [b E]].
    pose proof (bru_file_of_not_bak b _ Hbak) as Hne.
    rewrite <- E, str_eqb_refl in Hne. discriminate.
Qed.

Lemma revert_restores_working_file_witness :
  exists d' files' subdirs',
    fst (fst (revert_bruno_files (fun _ _ => false) (Some workspace_b)))
    = Some d'
    /\ dir_at d' [lit "Users"; lit "Admin"] = Some (Dir files' subdirs')
    /\ lookup (bru_file_of (lit "Delete User.bak")) files' = Some [Byte.x04]
    /\ lookup (lit "Delete User.bak") files' = Some [Byte.x04].
Proof.
  apply (revert_restores_working_file (fun _ _ => false) workspace_b
           [lit "Users"; lit "Admin"]
           [(lit "Delete User.bak", [Byte.x04]);
            (lit "Delete User.bru", [Byte.x05])] []); try reflexivity.
  intros b [<- | []] _. reflexivity.
Defined.

(** X17.  In such a workspace revert keeps, in every directory, the names
    of the files and of the subdirectories, and the content of every file
    that is not the working file of a backup of that directory; so it
    keeps every backup. *)
Theorem revert_keeps_other_files
  (copy_raises : path -> path -> bool) (d : dir) (p : path)
  (files : list (str * bytes)) (subdirs : list (str * dir)) :
  plain d = true ->
  dir_at d p = Some (Dir files subdirs) ->
  exists d' files' subdirs',
    fst (fst (revert_bruno_files copy_raises (Some d))) = Some d'
    /\ dir_at d' p = Some (Dir files' subdirs')
    /\ map fst files' = map fst files
    /\ map fst subdirs' = map fst subdirs
    /\ (forall name,
           (forall b, In b (bak_files_of files) -> bru_file_of b <> name) ->
           lookup name files' = lookup name files)
    /\ (forall name,
           endswith name (lit ".bak") = true ->
           lookup name files' = lookup name files).
Proof.
  intros Hplain Hat.
  destruct (walk_at copy_raises p d [] files subdirs Hplain Hat)
    as [Hno [subdirs' [Hat' Hsub]]].
  cbn [app] in Hat'.
  destruct (loop_result copy_raises p files subdirs Hno) as [Hfiles [_ Hnames]].
  unfold revert_bruno_files.
  destruct (walk copy_raises [] [] d) as [[d' c] o]. cbn [fst] in *.
  exists d'. eexists. exists subdirs'.
  split; [reflexivity|]. split; [exact Hat'|]. split; [exact Hnames|].
  split; [exact Hsub|].
  assert (forall name,
            (forall b, In b (bak_files_of files) -> bru_file_of b <> name) ->
            lookup name
              (l_files
                 (fold_left (revert_file copy_raises p subdirs)
                    (bak_files_of files) (mk_loop files [] 0 [])))
            = lookup name files) as Hother.
  { intros name Hname. rewrite Hfiles, lookup_map_ovr.
    assert (final
              (flat_map (plan_local copy_raises p subdirs files)
                 (bak_files_of files)) name = None) as ->.
    { apply final_none. intros Hn.
      apply plan_local_names in Hn as [b [Hb E]].
      apply (Hname b Hb). symmetry. exact E. }
    destruct (lookup name files); reflexivity. }
  split; [exact Hother|].
  intros name Hbak. apply Hother. intros b _ E.
  pose proof (bru_file_of_not_bak b _ Hbak) as Hne.
  rewrite E, str_eqb_refl in Hne. discriminate.
Qed.

Lemma revert_keeps_other_files_witness :
  exists d' files' subdirs',
    fst (fst (revert_bruno_files (fun _ _ => false) (Some workspace_b)))
    = Some d'
    /\ dir_at d' [lit "Users"] = Some (Dir files' subdirs')
    /\ map fst files'
       = map fst [(lit "Get User.bak", [Byte.x01]);
                  (lit "Get User.bru", [Byte.x02]);
                  (lit "List Users.bru", [Byte.x03])]
    /\ map fst subdirs'
       = map fst [(lit "Admin",
                   Dir [(lit "Delete User.bak", [Byte.x04]);
                        (lit "Delete User.bru", [Byte.x05])] [])]
    /\ (forall name,
           (forall b,
               In b (bak_files_of [(lit "Get User.bak", [Byte.x01]);
                                   (lit "Get User.bru", [Byte.x02]);
                                   (lit "List Users.bru", [Byte.x03])]) ->
               bru_file_of b <> name) ->
           lookup name files'
           = lookup name [(lit "Get User.bak", [Byte.x01]);
                          (lit "Get User.bru", [Byte.x02]);
                          (lit "List Users.bru", [Byte.x03])])
    /\ (forall name,
           endswith name (lit ".bak") = true ->
           lookup name files'
           = lookup name [(lit "Get User.bak", [Byte.x01]);
                          (lit "Get User.bru", [Byte.x02]);
                          (lit "List Users.bru", [Byte.x03])]).
Proof.
  apply (revert_keeps_other_files (fun _ _ => false) workspace_b [lit "Users"]);
    reflexivity.
Defined.

Example revert_workspace_b :
  revert_bruno_files (fun _ _ => false) (Some workspace_b)
  = (Some
       (Dir [(lit "bruno.json", [Byte.x07])]
          [(lit "Users",
            Dir [(lit "Get User.bak", [Byte.x01]);
                 (lit "Get User.bru", [Byte.x01]);
                 (lit "List Users.bru", [Byte.x03])]
              [(lit "Admin",
                Dir [(lit "Delete User.bak", [Byte.x04]);
                     (lit "Delete User.bru", [Byte.x04])] [])])]),
     2,
     [Reverted [lit "Users"; lit "Get User.bru"];
      Reverted [lit "Users"; lit "Admin"; lit "Delete User.bru"]]).
Proof. reflexivity. Qed.

(** X18.  In such a workspace revert prints exactly one line for every
    backup file of the workspace, in whatever directory, and the count it
    returns is at most the number of backup files. *)
Theorem revert_reports_every_backup
  (copy_raises : path -> path -> bool) (d : dir) :
  plain d = true ->
  length (snd (revert_bruno_files copy_raises (Some d))) = count_backups d
  /\ snd (fst (revert_bruno_files copy_raises (Some d))) <= count_backups d.
Proof.
  intros Hplain. unfold revert_bruno_files.
  pose proof (walk_out copy_raises d [] Hplain) as Hout.
  pose proof (walk_count copy_raises d [] []) as Hcount.
  destruct (walk copy_raises [] [] d) as [[d' c] o]. cbn [fst snd] in *.
  split; [exact Hout|].
  rewrite Hcount, <- Hout. unfold count_reverted. apply filter_length_le.
Qed.

Lemma revert_reports_every_backup_witness :
  length (snd (revert_bruno_files (fun _ _ => false) (Some workspace_a)))
  = count_backups workspace_a
  /\ snd (fst (revert_bruno_files (fun _ _ => false) (Some workspace_a)))
     <= count_backups workspace_a.
Proof.
  apply (revert_reports_every_backup (fun _ _ => false) workspace_a).
  reflexivity.
Defined.

(* ------------------------------------------------------------------ *)
(** ** The lines of an example *)
(* ------------------------------------------------------------------ *)

Module ExampleFacts.

Lemma split_nl_nonempty (s : str) : split_nl s <> [].
Proof.
  induction s as [|c s IH]; [discriminate|]. cbn [split_nl].
  destruct (N.eqb c nl); [discriminate|].
  destruct (split_nl s); discriminate.
Qed.

(** Joining the pieces with line feeds gives the text again. *)
Lemma join_split_nl (s : str) : join [nl] (split_nl s) = s.
Proof.
  induction s as [|c s IH]; [reflexivity|]. cbn [split_nl].
  destruct (N.eqb_spec c nl) as [-> | Hc].
  - pose proof (split_nl_nonempty s) as Hne.
    destruct (split_nl s) as [|l ls]; [congruence|].
    change (join [nl] ([] :: l :: ls)) with (nl :: join [nl] (l :: ls)).
    rewrite IH. reflexivity.
  - pose proof (split_nl_nonempty s) as Hne.
    destruct (split_nl s) as [|l ls]; [congruence|].
    destruct ls as [|l' ls].
    + change (join [nl] [c :: l]) with (c :: join [nl] [l]).
      rewrite IH. reflexivity.
    + change (join [nl] ((c :: l) :: l' :: ls))
        with (c :: join [nl] (l :: l' :: ls)).
      rewrite IH. reflexivity.
Qed.

(** No piece has a line feed. *)
Lemma split_nl_lines (s : str) :
  Forall (fun l => forallb (fun c => negb (N.eqb c nl)) l = true) (split_nl s).
Proof.
  induction s as [|c s IH]; [repeat constructor|]. cbn [split_nl].
  destruct (N.eqb c nl) eqn:Hc; [constructor; [reflexivity | exact IH]|].
  destruct (split_nl s) as [|l ls]; [repeat constructor; cbn; rewrite Hc; auto|].
  inversion IH as [|? ? Hl Hls]; subst. constructor; [|exact Hls].
  cbn [forallb]. rewrite Hc, Hl. reflexivity.
Qed.

End ExampleFacts.
Import ExampleFacts.

(** X19.  The lines that are written for an example are the lines of its
    YAML form without the white space around it, each behind six spaces:
    taking the six spaces away and joining the lines with line feeds gives
    that text again, and there is at least one line. *)
Theorem example_lines_round_trip `{Runtime} (example : value) :
  join [nl] (map (skipn 6) (example_lines example)) = strip (yaml_dump example)
  /\ Forall
       (fun line =>
          exists text,
            line = lit "      " ++ text
            /\ forallb (fun c => negb (N.eqb c nl)) text = true)
       (example_lines example)
  /\ example_lines example <> [].
Proof.
  unfold example_lines. split; [|split].
  - rewrite map_map.
    rewrite (map_ext _ (fun line => line)) by (intros line; reflexivity).
    rewrite map_id. apply join_split_nl.
  - apply Forall_map.
    pose proof (split_nl_lines (strip (yaml_dump example))) as Hlines.
    apply (Forall_impl _ (P := fun l =>
             forallb (fun c => negb (N.eqb c nl)) l = true)); [|exact Hlines].
    intros text Htext. exists text. auto.
  - pose proof (split_nl_nonempty (strip (yaml_dump example))) as Hne.
    destruct (split_nl (strip (yaml_dump example))); [congruence|discriminate].
Qed.

(* ------------------------------------------------------------------ *)
(** ** The collection file as it is read and written *)
(* ------------------------------------------------------------------ *)

Module TextFileFacts.

(** A text without CR is read as it is. *)
Lemma read_newlines_no_cr (s : str) :
  forallb (fun c => negb (N.eqb c cr)) s = true -> read_newlines s = s.
Proof.
  induction s as [|c s IH]; [reflexivity|]. cbn [forallb read_newlines].
  intros Hs. apply andb_true_iff in Hs as [Hc Hs].
  apply negb_true_iff in Hc. rewrite Hc, (IH Hs). reflexivity.
Qed.

(** What is read has no CR. *)
Lemma read_newlines_cr_free (s : str) :
  forallb (fun c => negb (N.eqb c cr)) (read_newlines s) = true.
Proof.
  remember (length s) as n eqn:Hn. revert s Hn.
  induction n as [n IH] using lt_wf_ind. intros s Hn.
  destruct s as [|c s]; [reflexivity|]. cbn [read_newlines].
  destruct (N.eqb c cr) eqn:Hc.
  - cbn [forallb]. change (negb (N.eqb nl cr)) with true. cbn [andb].
    destruct s as [|c' s]; [reflexivity|].
    destruct (N.eqb c' nl).
    + apply (IH (length s)); [|reflexivity]. rewrite Hn. simpl. lia.
    + apply (IH (length (c' :: s))); [|reflexivity]. rewrite Hn. simpl. lia.
  - cbn [forallb]. rewrite Hc. cbn [negb andb].
    apply (IH (length s)); [|reflexivity]. rewrite Hn. simpl. lia.
Qed.

(** A CR LF is read as one line feed, whatever stands before and behind. *)
Lemma read_newlines_crlf (a b : str) :
  read_newlines (a ++ cr :: nl :: b) = read_newlines a ++ nl :: read_newlines b.
Proof.
  remember (length a) as n eqn:Hn. revert a Hn.
  induction n as [n IH] using lt_wf_ind. intros a Hn.
  destruct a as [|c a]; [reflexivity|]. cbn [app read_newlines].
  destruct (N.eqb c cr) eqn:Hc.
  - destruct a as [|c' a].
    + cbn [app]. change (N.eqb cr nl) with false. cbv iota.
      change (read_newlines (cr :: nl :: b)) with (nl :: read_newlines b).
      reflexivity.
    + cbn [app]. destruct (N.eqb c' nl).
      * cbn [app]. f_equal. apply (IH (length a)); [|reflexivity].
        rewrite Hn. simpl. lia.
      * cbn [app]. f_equal.
        apply (IH (length (c' :: a)) ltac:(rewrite Hn; simpl; lia) (c' :: a)
                 eq_refl).
  - cbn [app]. f_equal. apply (IH (length a)); [|reflexivity].
    rewrite Hn. simpl. lia.
Qed.

(** Where the line separator is the line feed, a text is written as it
    is. *)
Lemma write_newlines_lf (text : str) : write_newlines [nl] text = text.
Proof.
  induction text as [|c text IH]; [reflexivity|].
  unfold write_newlines in *. cbn [flat_map]. rewrite IH.
  destruct (N.eqb_spec c nl) as [-> |]; reflexivity.
Qed.

(** A line feed is written as the line separator, whatever stands before
    and behind. *)
Lemma write_newlines_line_feed (sep a b : str) :
  write_newlines sep (a ++ nl :: b)
  = write_newlines sep a ++ sep ++ write_newlines sep b.
Proof.
  unfold write_newlines. rewrite flat_map_app. cbn [flat_map].
  rewrite N.eqb_refl. reflexivity.
Qed.

Section Patch.

Context `{Platform}.

Lemma patch_file_reads (data : bytes) (raw docs : str) :
  decode data = Some raw ->
  patch_file data docs
  = encode (write_newlines linesep (update_content (read_newlines raw) docs)).
Proof.
  intros Hraw. unfold patch_file, read_text, write_text. rewrite Hraw.
  reflexivity.
Qed.

End Patch.

End TextFileFacts.
Import TextFileFacts.

(** C1, as amended.  The program reads the collection file in text mode,
    where every CR LF and every other CR is read as a line feed, and writes
    it in text mode, where every line feed is written as the line separator
    of the platform.  When the text it has read has a docs block, the first
    one having white space [ws] and content [A], and the text of that block
    does not occur again behind it, then injecting the documentation text
    [B] writes the text read before the block, a docs block whose content
    is [A] without its trailing white space, a blank line, [B] and a line
    feed, and the text read behind the block.  For a file without CR the
    text read is the text of the file, and where the line separator is the
    line feed the text is written as it is. *)
Theorem patch_file_merges_docs `{Platform}
  (data : bytes) (raw pre ws A post B : str) :
  decode data = Some raw ->
  first_block docs_kw pre (block_text docs_kw ws A) post (read_newlines raw) ->
  contains post (block_text docs_kw ws A) = false ->
  let merged := block_text docs_kw ws (rstrip A ++ [nl; nl] ++ B ++ [nl]) in
  patch_file data B = encode (write_newlines linesep (pre ++ merged ++ post))
  /\ forallb (fun c => negb (N.eqb c cr)) (read_newlines raw) = true
  /\ (forall a b,
         write_newlines linesep (a ++ nl :: b)
         = write_newlines linesep a ++ linesep ++ write_newlines linesep b)
  /\ (forallb (fun c => negb (N.eqb c cr)) raw = true ->
      raw = pre ++ block_text docs_kw ws A ++ post)
  /\ (linesep = [nl] -> patch_file data B = encode (pre ++ merged ++ post)).
Proof.
  intros Hraw Hfirst Honce merged.
  assert (patch_file data B
          = encode (write_newlines linesep (pre ++ merged ++ post))) as Hpatch.
  { rewrite (patch_file_reads data raw B Hraw).
    rewrite (update_content_merges_docs _ _ _ _ _ B Hfirst Honce).
    reflexivity. }
  split; [exact Hpatch|].
  split; [apply read_newlines_cr_free|].
  split; [apply write_newlines_line_feed|]. split.
  - intros Hcr. destruct Hfirst as [[Hs _] _].
    rewrite (read_newlines_no_cr raw Hcr) in Hs. exact Hs.
  - intros Hsep. rewrite Hpatch, Hsep, write_newlines_lf. reflexivity.
Qed.

Lemma patch_file_merges_docs_witness :
  @patch_file example_posix docs_file (lit "B")
  = @encode example_posix
      (@write_newlines (@linesep example_posix)
         (lit "meta {a} "
          ++ block_text docs_kw (lit " ")
               (rstrip (lit "x ") ++ [nl; nl] ++ lit "B" ++ [nl])
          ++ lit " get {u}"))
  /\ forallb (fun c => negb (N.eqb c cr))
       (read_newlines (lit "meta {a} docs {x } get {u}")) = true
  /\ (forall a b,
         write_newlines (@linesep example_posix) (a ++ nl :: b)
         = write_newlines (@linesep example_posix) a ++ @linesep example_posix
           ++ write_newlines (@linesep example_posix) b)
  /\ (forallb (fun c => negb (N.eqb c cr)) (lit "meta {a} docs {x } get {u}")
      = true ->
      lit "meta {a} docs {x } get {u}"
      = lit "meta {a} " ++ block_text docs_kw (lit " ") (lit "x ")
        ++ lit " get {u}")
  /\ (@linesep example_posix = [nl] ->
      @patch_file example_posix docs_file (lit "B")
      = @encode example_posix
          (lit "meta {a} "
           ++ block_text docs_kw (lit " ")
                (rstrip (lit "x ") ++ [nl; nl] ++ lit "B" ++ [nl])
           ++ lit " get {u}")).
Proof.
  apply (@patch_file_merges_docs example_posix docs_file
           (lit "meta {a} docs {x } get {u}") (lit "meta {a} ") (lit " ")
           (lit "x ") (lit " get {u}") (lit "B")).
  - reflexivity.
  - apply search_some_iff; reflexivity.
  - reflexivity.
Defined.

Example patch_file_docs_sample :
  @patch_file example_posix docs_file (lit "B")
  = Some (ascii_bytes "meta {a} docs {x" ++ [Byte.x0a; Byte.x0a]
          ++ ascii_bytes "B" ++ [Byte.x0a] ++ ascii_bytes "} get {u}").
Proof. reflexivity. Qed.




(** Where the line separator is CR LF, a file whose lines end with line
    feeds gets CR LF everywhere. *)
Example patch_file_windows :
  @patch_file example_windows (ascii_bytes "get {u}" ++ [Byte.x0a]) (lit "B")
  = Some (ascii_bytes "docs {" ++ [Byte.x0d; Byte.x0a] ++ ascii_bytes "B"
          ++ [Byte.x0d; Byte.x0a] ++ ascii_bytes "}"
          ++ [Byte.x0d; Byte.x0a; Byte.x0d; Byte.x0a] ++ ascii_bytes "get {u}"
          ++ [Byte.x0d; Byte.x0a]).
Proof. reflexivity. Qed.

(* ------------------------------------------------------------------ *)
(** ** The lines and the count of revert, backup by backup *)
(* ------------------------------------------------------------------ *)

Module ExpectedFacts.

Section Lines.

Variable copy_raises : path -> path -> bool.

Lemma lookup_listed {A : Type} (name : str) (l : list (str * A)) :
  In name (map fst l) -> exists x, lookup name l = Some x.
Proof.
  intros Hin. apply has_name_in in Hin.
  destruct (lookup name l) as [x|] eqn:E; [exists x; reflexivity|].
  apply lookup_none in E. congruence.
Qed.

(** The line of one step of the loop, from the listing the loop started
    with. *)
Lemma revert_file_event root subdirs files st b :
  loop_inv files st -> ends_bak b -> In b (map fst files) ->
  l_out (revert_file copy_raises root subdirs st b)
  = l_out st ++ [event_of copy_raises root subdirs files b].
Proof.
  intros [Hn Hb] Hbak Hin. unfold revert_file, copy2, event_of.
  rewrite (has_name_names _ _ _ Hn), (Hb b Hbak).
  destruct (lookup_listed b files Hin) as [v ->].
  destruct (has_name (bru_file_of b) files || has_name (bru_file_of b) subdirs);
    [|reflexivity].
  destruct (copy_raises _ _); [reflexivity|].
  destruct (lookup (bru_file_of b) subdirs) as [d|]; [|reflexivity].
  destruct (has_name b (subdirs_of d)); reflexivity.
Qed.

Lemma loop_events root subdirs files baks st :
  loop_inv files st -> Forall ends_bak baks ->
  (forall b, In b baks -> In b (map fst files)) ->
  l_out (fold_left (revert_file copy_raises root subdirs) baks st)
  = l_out st ++ map (event_of copy_raises root subdirs files) baks.
Proof.
  revert st. induction baks as [|b baks IH]; intros st Hinv Hbaks Hin.
  - cbn [fold_left map]. rewrite app_nil_r. reflexivity.
  - inversion Hbaks as [|? ? Hb Hrest]; subst.
    destruct (revert_file_plan copy_raises root subdirs files st b Hinv Hb)
      as [Hinv' _].
    cbn [fold_left map].
    rewrite (IH _ Hinv' Hrest) by (intros b' Hb'; apply Hin; right; exact Hb').
    rewrite (revert_file_event _ _ _ _ _ Hinv Hb (Hin b (or_introl eq_refl))).
    rewrite <- app_assoc. reflexivity.
Qed.

Lemma bak_files_of_listed files b :
  In b (bak_files_of files) -> In b (map fst files).
Proof. intros Hb. apply filter_In in Hb. apply Hb. Qed.

Lemma walk_each_events f l :
  snd (walk_each f l) = flat_map (fun e => snd (f (fst e) (snd e))) l.
Proof.
  induction l as [|[name sub] l IH]; [reflexivity|].
  rewrite walk_each_cons. cbn [snd fst flat_map]. rewrite IH. reflexivity.
Qed.

(** The output of the walk, line by line. *)
Lemma walk_events d :
  forall root received,
    snd (walk copy_raises root received d)
    = expected_out copy_raises root received d.
Proof.
  induction d as [files subdirs IH] using dir_induction.
  intros root received. rewrite walk_dir. cbv zeta. cbn [snd expected_out].
  set (files0 := write_all received files).
  destruct (loop_plan copy_raises root subdirs files0 (bak_files_of files0) _
              (loop_inv_start files0) (bak_files_of_ends_bak files0))
    as [_ [_ Hs]].
  rewrite Hs. cbn [l_sent app].
  rewrite (loop_events root subdirs files0 (bak_files_of files0) _
             (loop_inv_start files0) (bak_files_of_ends_bak files0)
             (bak_files_of_listed files0)).
  cbn [l_out app]. f_equal. rewrite walk_each_events.
  apply flat_map_ext_in. intros e He. rewrite Forall_forall in IH.
  apply (IH e He).
Qed.

(** In a workspace where every copy goes to a file, the line of a backup
    of the directory at a path is among the lines. *)
Lemma expected_at p :
  forall d root files subdirs b,
    plain d = true ->
    dir_at d p = Some (Dir files subdirs) ->
    In b (bak_files_of files) ->
    In (event_of copy_raises (root ++ p) subdirs files b)
       (expected_out copy_raises root [] d).
Proof.
  induction p as [|name p IH]; intros d root files subdirs b Hplain Hat Hb.
  - cbn [dir_at] in Hat. injection Hat as ->. rewrite app_nil_r.
    cbn [expected_out write_all fold_left]. apply in_or_app. left.
    apply in_map, Hb.
  - destruct d as [files0 subdirs0]. cbn [dir_at subdirs_of] in Hat.
    destruct (lookup name subdirs0) as [sub|] eqn:E; [|discriminate].
    destruct (plain_dir _ _ Hplain) as [Hno Hsubs].
    pose proof (Hsubs _ (lookup_in _ _ _ E)) as Hsub. cbn [snd] in Hsub.
    cbn [expected_out write_all fold_left]. apply in_or_app. right.
    apply in_flat_map. exists (name, sub). split; [apply lookup_in, E|].
    cbn [fst snd]. rewrite (plan_sent_none copy_raises root files0 subdirs0 _ Hno).
    replace (root ++ name :: p) with ((root ++ [name]) ++ p)
      by (rewrite <- app_assoc; reflexivity).
    apply (IH sub (root ++ [name]) files subdirs b Hsub Hat Hb).
Qed.

End Lines.

End ExpectedFacts.
Import ExpectedFacts.

(** C7.  For a workspace directory that exists, revert prints one line for
    each backup, directory by directory in the order of the walk: the line
    of a reverted file when the copy is made, a warning when nothing has
    the derived name, an error line when the copy fails; and the count it
    returns is the number of lines of reverted files.  In a workspace where
    no directory has the name that revert derives from a backup beside it,
    a backup without a working file gives its warning, a backup whose copy
    is refused gives its error line, and a backup whose copy is not refused
    gives the line of a reverted file and, when it is the only backup of
    its directory with that working file, the working file has the content
    of the backup afterwards.  A step that warns or fails leaves the count
    and the files as they are; a step that copies writes the content of
    the backup and adds one to the count.  A workspace with no backup at
    all gives the count 0 and no output, and the command ends with status
    0 for every workspace directory. *)
Theorem revert_bruno_files_counts_copies (copy_raises : path -> path -> bool) :
  (forall d,
      snd (revert_bruno_files copy_raises (Some d))
      = expected_out copy_raises [] [] d
      /\ snd (fst (revert_bruno_files copy_raises (Some d)))
         = count_reverted (expected_out copy_raises [] [] d))
  /\ (forall d p files subdirs bak_file data,
         plain d = true ->
         dir_at d p = Some (Dir files subdirs) ->
         endswith bak_file (lit ".bak") = true ->
         lookup bak_file files = Some data ->
         let bru_file := bru_file_of bak_file in
         let out := snd (revert_bruno_files copy_raises (Some d)) in
         (has_name bru_file files = false ->
          In (OriginalNotFound (p ++ [bru_file]) (p ++ [bak_file])) out)
         /\ (has_name bru_file files = true ->
             copy_raises (p ++ [bak_file]) (p ++ [bru_file]) = true ->
             In (ErrorReverting (p ++ [bru_file])) out)
         /\ (has_name bru_file files = true ->
             copy_raises (p ++ [bak_file]) (p ++ [bru_file]) = false ->
             In (Reverted (p ++ [bru_file])) out
             /\ ((forall b, In b (bak_files_of files) ->
                            bru_file_of b = bru_file -> b = bak_file) ->
                 exists d' files' subdirs',
                   fst (fst (revert_bruno_files copy_raises (Some d)))
                   = Some d'
                   /\ dir_at d' p = Some (Dir files' subdirs')
                   /\ lookup bru_file files' = Some data)))
  /\ (forall root subdirs st bak_file,
         has_name (bru_file_of bak_file) (l_files st) = false ->
         has_name (bru_file_of bak_file) subdirs = false ->
         revert_file copy_raises root subdirs st bak_file
         = mk_loop (l_files st) (l_sent st) (l_count st)
             (l_out st ++ [OriginalNotFound (root ++ [bru_file_of bak_file])
                             (root ++ [bak_file])]))
  /\ (forall root subdirs st bak_file,
         has_name (bru_file_of bak_file) (l_files st)
         || has_name (bru_file_of bak_file) subdirs = true ->
         copy_raises (root ++ [bak_file]) (root ++ [bru_file_of bak_file]) = true ->
         revert_file copy_raises root subdirs st bak_file
         = mk_loop (l_files st) (l_sent st) (l_count st)
             (l_out st ++ [ErrorReverting (root ++ [bru_file_of bak_file])]))
  /\ (forall root subdirs st bak_file data,
         has_name (bru_file_of bak_file) (l_files st) = true ->
         has_name (bru_file_of bak_file) subdirs = false ->
         lookup bak_file (l_files st) = Some data ->
         copy_raises (root ++ [bak_file]) (root ++ [bru_file_of bak_file]) = false ->
         revert_file copy_raises root subdirs st bak_file
         = mk_loop (write_file (bru_file_of bak_file) data (l_files st))
             (l_sent st) (l_count st + 1)
             (l_out st ++ [Reverted (root ++ [bru_file_of bak_file])]))
  /\ (forall d,
         has_backups d = false ->
         revert_bruno_files copy_raises (Some d) = (Some d, 0, [])
         /\ main_revert copy_raises (Some d) = (Some d, [NothingReverted], 0))
  /\ (forall d, snd (main_revert copy_raises (Some d)) = 0).
Proof.
  destruct (revert_counts_copied_files copy_raises)
    as [Hcount [Hwarn [Herror [Hstep [Hnone Hexit]]]]].
  assert (forall d,
            snd (revert_bruno_files copy_raises (Some d))
            = expected_out copy_raises [] [] d) as Hout.
  { intros d. unfold revert_bruno_files.
    pose proof (walk_events copy_raises d [] []) as H.
    destruct (walk copy_raises [] [] d) as [[d' c] o]. exact H. }
  split; [|split; [|split; [exact Hwarn|split; [exact Herror|split;
             [exact Hstep|split; [exact Hnone|exact Hexit]]]]]].
  - intros d. split; [apply Hout|]. rewrite (Hcount d), Hout. reflexivity.
  - intros d p files subdirs b data Hplain Hat Hbak Hb bru_file out.
    subst bru_file out.
    assert (In b (bak_files_of files)) as Hin.
    { apply filter_In. split; [|exact Hbak].
      apply has_name_in. apply (lookup_some_has_name _ _ _ Hb). }
    pose proof (expected_at copy_raises p d [] files subdirs b Hplain Hat Hin)
      as Hline.
    cbn [app] in Hline. rewrite <- Hout in Hline.
    destruct (walk_at copy_raises p d [] files subdirs Hplain Hat)
      as [Hno [subdirs' [Hat' _]]].
    cbn [app] in Hat'.
    pose proof (Hno b Hin) as Hdir.
    unfold event_of in Hline. cbv zeta in Hline.
    rewrite Hdir, orb_false_r in Hline.
    apply lookup_none in Hdir. rewrite Hdir in Hline.
    split; [|split].
    + intros Hfile. rewrite Hfile in Hline. exact Hline.
    + intros Hfile Hcopy. rewrite Hfile, Hcopy in Hline. exact Hline.
    + intros Hfile Hcopy. rewrite Hfile, Hcopy in Hline.
      split; [exact Hline|]. intros Huniq.
      destruct (loop_result copy_raises p files subdirs Hno) as [Hfiles _].
      unfold revert_bruno_files.
      destruct (walk copy_raises [] [] d) as [[d' c] o]. cbn [fst] in *.
      exists d'. eexists. exists subdirs'.
      split; [reflexivity|]. split; [exact Hat'|].
      rewrite Hfiles, lookup_map_ovr.
      apply lookup_none in Hdir.
      rewrite (final_plan copy_raises p subdirs files _ b data Hin Huniq
                 Hfile Hdir Hb Hcopy).
      destruct (lookup (bru_file_of b) files) eqn:E; [reflexivity|].
      apply lookup_none in E. congruence.
Qed.

Lemma revert_bruno_files_counts_copies_witness :
  snd (revert_bruno_files
         (fun _ dst => str_eqb (last dst []) (lit "c.bru")) (Some workspace_a))
  = [Reverted [lit "a.bru"];
     OriginalNotFound [lit "b.bru"] [lit "b.bak"];
     ErrorReverting [lit "c.bru"];
     Reverted [lit "Users"; lit "u.bru"]]
  /\ snd (fst (revert_bruno_files
                 (fun _ dst => str_eqb (last dst []) (lit "c.bru"))
                 (Some workspace_a)))
     = 2
  /\ exists d' files' subdirs',
       fst (fst (revert_bruno_files
                   (fun _ dst => str_eqb (last dst []) (lit "c.bru"))
                   (Some workspace_a)))
       = Some d'
       /\ dir_at d' [lit "Users"] = Some (Dir files' subdirs')
       /\ lookup (lit "u.bru") files' = Some [Byte.x06].
Proof.
  destruct (revert_bruno_files_counts_copies
              (fun _ dst => str_eqb (last dst []) (lit "c.bru")))
    as [Hlines [Hplain _]].
  destruct (Hlines workspace_a) as [Hout Hcount].
  split; [rewrite Hout; reflexivity|].
  split; [rewrite Hcount; reflexivity|].
  destruct (Hplain workspace_a [lit "Users"]
              [(lit "u.bak", [Byte.x06]); (lit "u.bru", [])] []
              (lit "u.bak") [Byte.x06] eq_refl eq_refl eq_refl eq_refl)
    as [_ [_ Hcopy]].
  destruct (Hcopy eq_refl eq_refl) as [_ Hrestored].
  apply Hrestored. intros b [<- | []] _. reflexivity.
Defined.
